(** * Tasks, Mixtures and their registries (t5/data/utils.py)

    A shallow embedding of the data-provider layer of T5: the provider
    registries, the memoised TFDS loader, the [Task] constructor and its
    token post-processing, and the [Mixture] constructor.

    Python values are embedded as follows.
    - [str] is [string]; a character is an [ascii].  Characters above 127
      are classified by the regular-expression engine through the Unicode
      database, which is a parameter of the development
      ([unicode_alnum], [unicode_decimal]).
    - A [dict] used as a registry or as a keyword mapping is a [gmap]; an
      example of a dataset, whose item order is observable, is an
      association list.
    - Class attributes that are mutated in place ([_REGISTRY],
      [_MEMOIZED_INSTANCES]) and the loader objects they point to live in an
      explicit [World]; code that raises is run in a state-and-exception
      monad over it. *)

From Stdlib Require Import Floats.PrimFloat.
From Stdlib Require Floats.FloatOps Floats.SpecFloat Floats.FloatAxioms.
From Stdlib Require Import ZArith NArith List String Ascii Bool Lia.
From stdpp Require Import base gmap list strings sorting.

Local Open Scope string_scope.
Local Open Scope list_scope.

(* ===================================================================== *)
(** ** Exceptions *)
(* ===================================================================== *)

(** What a schema check of [_validate_dataset] found wrong. *)
Inductive SchemaViolation :=
| MissingFeature
| IncorrectType
| IncorrectRank.

(** Which comparison of [Mixture.__init__] failed. *)
Inductive MixtureMismatch :=
| OutputFeaturesDiffer
| SentencepieceModelPathDiffer.

(** The exceptions the modelled code raises.  Most are [ValueError]s in the
    source and are told apart by their message; they carry the names the
    error taxonomy gives them. *)
Inductive Exception :=
| InvalidName (name : string)
| MissingVersion (tfds_name : string)
| DuplicateRegistration (name : string)
| InvalidProviderType
| NotFound (name : string)
| SchemaError (feat : string) (what : SchemaViolation) (label : string)
| UnexpectedEosError (feat : string) (label : string)
| IncompatibleMixtureError (what : MixtureMismatch)
| MissingRate
| NotCached (name : string)
| MissingStats (name : string) (split : string)
| KeyError (key : string)
| IndexError
| AttributeError
| TypeError
| ZeroDivisionError
| OtherError (msg : string).

(** The [OverflowError] of the conversion of an integer to a float, which
    the taxonomy does not name, by its message. *)
Definition OverflowError : Exception :=
  OtherError "int too large to convert to float".

Inductive Result (A : Type) :=
| Ok (a : A)
| Raise (e : Exception).
Arguments Ok {A} a.
Arguments Raise {A} e.

Definition res_bind {A B} (r : Result A) (k : A -> Result B) : Result B :=
  match r with
  | Ok a => k a
  | Raise e => Raise e
  end.

Declare Scope result_scope.
Delimit Scope result_scope with result.
Notation "x <- r ;; k" := (res_bind r (fun x => k))
  (at level 100, r at next level, right associativity) : result_scope.

(** [mapM] for [Result]: the first exception, in list order, wins. *)
Fixpoint res_mapM {A B} (f : A -> Result B) (l : list A) : Result (list B) :=
  match l with
  | [] => Ok []
  | a :: l' =>
      (b <- f a ;; bs <- res_mapM f l' ;; Ok (b :: bs))%result
  end.

(* ===================================================================== *)
(** ** [re]: the fragment used by [_VALID_TASK_NAME_REGEX] *)
(* ===================================================================== *)

Module Re.

(** Members of a bracketed character class. *)
Inductive ClassItem :=
| cls_w                    (* \w *)
| cls_d                    (* \d *)
| cls_lit (c : ascii).     (* a literal, possibly escaped, character *)

(** Pattern atoms; a pattern is their concatenation. *)
Inductive Atom :=
| Bol                                   (* ^ *)
| Eol                                   (* $ *)
| ClassPlus (items : list ClassItem).   (* [...]+ *)

Definition code (c : ascii) : N := N_of_ascii c.

Definition between (lo hi : N) (n : N) : bool := (lo <=? n)%N && (n <=? hi)%N.

Definition ascii_digit (c : ascii) : bool := between 48 57 (code c).

Definition ascii_letter (c : ascii) : bool :=
  between 65 90 (code c) || between 97 122 (code c).

Definition newline : ascii := ascii_of_N 10.
Definition underscore : ascii := ascii_of_N 95.
Definition dot : ascii := ascii_of_N 46.

Section Engine.
(** Classification of the characters above 127: always [false] for the
    byte patterns of Python 2, the Unicode tables for Python 3.  A character
    of a string stands for one code point below 256; strings with other code
    points are not modelled. *)
Variable unicode_alnum : ascii -> bool.
Variable unicode_decimal : ascii -> bool.

Definition is_w (c : ascii) : bool :=
  if (code c <? 128)%N
  then ascii_letter c || ascii_digit c || Ascii.eqb c underscore
  else unicode_alnum c.

Definition is_d (c : ascii) : bool :=
  if (code c <? 128)%N then ascii_digit c else unicode_decimal c.

Definition item_matches (i : ClassItem) (c : ascii) : bool :=
  match i with
  | cls_w => is_w c
  | cls_d => is_d c
  | cls_lit a => Ascii.eqb c a
  end.

Definition in_class (items : list ClassItem) (c : ascii) : bool :=
  existsb (fun i => item_matches i c) items.

(** [$] without MULTILINE: at the end of the string, or just before a
    newline that is the last character of the string. *)
Definition at_eol (s : string) : bool :=
  match s with
  | EmptyString => true
  | String c EmptyString => Ascii.eqb c newline
  | _ => false
  end.

(** Greedy [+] with backtracking: at least one character of the class,
    the longest run first, then the rest of the pattern [k]. *)
Fixpoint plus_greedy (cls : ascii -> bool) (k : string -> bool)
         (s : string) : bool :=
  match s with
  | EmptyString => false
  | String c s' => cls c && (plus_greedy cls k s' || k s')
  end.

(** Matching a pattern at the current position; [at_start] tells whether
    that position is the beginning of the string. *)
Fixpoint match_atoms (p : list Atom) : bool -> string -> bool :=
  match p with
  | [] => fun _ _ => true
  | Bol :: p' => fun at_start s => at_start && match_atoms p' at_start s
  | Eol :: p' => fun at_start s => at_eol s && match_atoms p' at_start s
  | ClassPlus items :: p' =>
      fun _ s => plus_greedy (in_class items) (match_atoms p' false) s
  end.

(** [pattern.match(s)]: a match anchored at the beginning of [s]; the
    result is used for its truth value only. *)
Definition re_match (p : list Atom) (s : string) : bool :=
  match_atoms p true s.
End Engine.

End Re.

(** [_VALID_TASK_NAME_REGEX = re.compile(r"^[\w\d\._]+$")] *)
Definition _VALID_TASK_NAME_REGEX : list Re.Atom :=
  [Re.Bol;
   Re.ClassPlus [Re.cls_w; Re.cls_d; Re.cls_lit Re.dot; Re.cls_lit Re.underscore];
   Re.Eol].

(** [_DEFAULT_FEATURE_KEYS = ["inputs", "targets"]] *)
Definition _DEFAULT_FEATURE_KEYS : list string := ["inputs"; "targets"].

(* ===================================================================== *)
(** ** Tensors, examples and datasets ([tf.data]) *)
(* ===================================================================== *)

Inductive DType := tf_string | tf_int32 | tf_int64.

Global Instance DType_eq_dec : EqDecision DType.
Proof. solve_decision. Defined.

(** A dense tensor: its shape and its values in row-major order.  Features
    are strings or integers, the two kinds the pipeline produces. *)
Inductive Tensor :=
| StringTensor (shape : list nat) (vals : list string)
| Int32Tensor (shape : list nat) (vals : list Z)
| Int64Tensor (shape : list nat) (vals : list Z).

Definition tensor_dtype (t : Tensor) : DType :=
  match t with
  | StringTensor _ _ => tf_string
  | Int32Tensor _ _ => tf_int32
  | Int64Tensor _ _ => tf_int64
  end.

Definition tensor_shape (t : Tensor) : list nat :=
  match t with
  | StringTensor s _ | Int32Tensor s _ | Int64Tensor s _ => s
  end.

(** The static description of one feature of a dataset; [None] is an
    unknown dimension.  The rank is known: a feature whose rank is not known
    when the dataset is built is not modelled. *)
Record TensorSpec := mkTensorSpec {
  ts_dtype : DType;
  ts_shape : list (option nat)
}.

(** A [dict] whose item order is observable. *)
Definition Dict (V : Type) := list (string * V).

Fixpoint dict_get {V} (d : Dict V) (k : string) : option V :=
  match d with
  | [] => None
  | (k', v) :: d' => if decide (k' = k) then Some v else dict_get d' k
  end.

Definition Example := Dict Tensor.

(** A dataset is lazy: its structure is known when it is built, its
    elements are computed, and may raise, when it is iterated. *)
Record Dataset := mkDataset {
  element_spec : Dict TensorSpec;
  dataset_elements : list (Result Example)
}.

(** [tf.data.get_output_types] and [tf.data.get_output_shapes]. *)
Definition get_output_types (ds : Dataset) : Dict DType :=
  map (fun kv => (fst kv, ts_dtype (snd kv))) (element_spec ds).

Definition get_output_shapes (ds : Dataset) : Dict (list (option nat)) :=
  map (fun kv => (fst kv, ts_shape (snd kv))) (element_spec ds).

(** [{k: f(k, v) for k, v in d.items()}] with an [f] that may raise. *)
Definition dict_map_items {V W} (f : string -> V -> Result W) (d : Dict V)
  : Result (Dict W) :=
  res_mapM (fun kv => (w <- f (fst kv) (snd kv) ;; Ok (fst kv, w))%result) d.

(** [dataset.map(fn)].  The function is traced once, on the structure of
    the elements, when [map] is called: [traced] is [fn] on tensor
    descriptions, and what it raises is raised by the call.  [fn] itself runs
    on each element as the dataset is iterated; an element that already
    raises keeps raising. *)
Definition Dataset_map
    (traced : Dict TensorSpec -> Result (Dict TensorSpec))
    (fn : Example -> Result Example) (ds : Dataset) : Result Dataset :=
  (spec' <- traced (element_spec ds) ;;
   Ok {| element_spec := spec';
         dataset_elements :=
           map (fun r => res_bind r fn) (dataset_elements ds) |})%result.

(** Python slicing [l[:n]] of a sequence, for any integer [n]. *)
Definition slice_to {A} (n : Z) (l : list A) : list A :=
  if (n <? 0)%Z then take (Z.to_nat (Z.of_nat (length l) + n)) l
  else take (Z.to_nat n) l.

(** The length of [l[:n]] for a sequence of length [d]. *)
Definition static_slice_length (n : Z) (d : nat) : nat :=
  if (n <? 0)%Z then Nat.min (Z.to_nat (Z.of_nat d + n)) d
  else Nat.min (Z.to_nat n) d.

(** An element agrees with the structure of its dataset: same keys in the
    same order, and each tensor of the described type and rank. *)
Definition tensor_conforms (s : TensorSpec) (t : Tensor) : Prop :=
  tensor_dtype t = ts_dtype s /\ length (tensor_shape t) = length (ts_shape s).

Definition example_conforms (spec : Dict TensorSpec) (ex : Example) : Prop :=
  Forall2 (fun ks kv => fst ks = fst kv /\ tensor_conforms (snd ks) (snd kv))
          spec ex.

(* ===================================================================== *)
(** ** Objects, the world, and the monad of stateful code *)
(* ===================================================================== *)

Definition loc := nat.

(** What [tfds.builder(name, data_dir=...)] was asked for; the builder's
    metadata is external to this development. *)
Record Builder := mkBuilder {
  builder_name : string;
  builder_data_dir : option string
}.

(** The attributes [LazyTfdsLoader.__init__] sets. *)
Record LazyTfdsLoader := mkLazyTfdsLoader {
  _name : string;
  _data_dir : option string;
  _builder : option Builder
}.

Inductive FnOrList (F : Type) :=
| OneFn (f : F)
| FnList (fs : list F).
Arguments OneFn {F} f.
Arguments FnList {F} fs.

Record SentencePieceVocabulary := mkVocabulary {
  vocab_model_path : string
}.

Definition TextPreprocessor := Dataset -> Result Dataset.

(** A token preprocessor is called with the keyword arguments
    [sequence_length] and [vocabulary]. *)
Definition TokenPreprocessor :=
  Dataset -> gmap string Z -> SentencePieceVocabulary -> Result Dataset.

(** The attributes of a [Task].  [_metric_fns] and [_postprocess_fn] are
    stored and returned by the constructor and its properties and take part
    in nothing else; they are left out. *)
Record Task := mkTask {
  task_name : string;
  task_tfds : loc;
  _text_preprocessor : FnOrList TextPreprocessor;
  _token_preprocessor : FnOrList TokenPreprocessor;
  _sentencepiece_model_path : string;
  _cache_dir : option string;
  _stats : gmap string (gmap string Z);
  _output_features : list string;
  _splits : option (list string)
}.

(** Python floats are IEEE-754 binary64 numbers, [PrimFloat.float]. *)

(** The conversion of an integer to a float, as in [float(n)] and in the
    product of an integer and a float: the nearest binary64 number, and
    [OverflowError] when that is beyond the largest one. *)
Definition float_of_int (n : Z) : Result float :=
  let x := FloatOps.SF2Prim
             (SpecFloat.binary_normalize FloatOps.prec FloatOps.emax n 0 false) in
  if PrimFloat.is_infinity x then Raise OverflowError else Ok x.
Arguments float_of_int : simpl never.

(** What [x ** y] returns on floats: a float, or, in Python 3, a complex
    number for a negative [x] and a [y] that is not an integer. *)
Inductive PyNumber :=
| PyFloat (x : float)
| PyComplex (re im : float).

(** The part of the file system and of the module's configuration that the
    cache look-ups of a [Task] read. *)
Inductive File :=
| JsonFile (content : gmap string Z)
| MarkerFile.

Record Storage := mkStorage {
  _GLOBAL_CACHE_DIRECTORIES : list string;
  files : gmap string File
}.

(** A mixing rate: a number, or a function of the [Task]. *)
Inductive Rate :=
| RateNumber (r : float)
| RateFn (f : Storage -> Task -> Result float).

(** An element of the [tasks] argument of [Mixture]: a task name, or a pair
    of a task name and a rate. *)
Inductive MixtureEntry :=
| TaskName (task_name : string)
| TaskWithRate (task_name : string) (rate : Rate).

Record Mixture := mkMixture {
  _tasks : list Task;
  _task_to_rate : gmap string Rate
}.

(** The objects a provider class may return. *)
Inductive Object :=
| TaskObject (t : Task)
| MixtureObject (m : Mixture)
| OtherObject.

(** The mutable state shared by the whole module: the loader objects, by
    identity, and the class attributes. *)
Record World := mkWorld {
  heap : gmap loc (option LazyTfdsLoader);
  _MEMOIZED_INSTANCES : gmap (string * option string) loc;
  TaskRegistry_REGISTRY : gmap string Task;
  MixtureRegistry_REGISTRY : gmap string Mixture;
  _TFDS_DATA_DIR_OVERRIDE : option string
}.

Definition set_heap (h : gmap loc (option LazyTfdsLoader)) (w : World) : World :=
  mkWorld h (_MEMOIZED_INSTANCES w) (TaskRegistry_REGISTRY w)
          (MixtureRegistry_REGISTRY w) (_TFDS_DATA_DIR_OVERRIDE w).

Definition set_MEMOIZED_INSTANCES (m : gmap (string * option string) loc)
           (w : World) : World :=
  mkWorld (heap w) m (TaskRegistry_REGISTRY w)
          (MixtureRegistry_REGISTRY w) (_TFDS_DATA_DIR_OVERRIDE w).

Definition set_TaskRegistry_REGISTRY (r : gmap string Task) (w : World) : World :=
  mkWorld (heap w) (_MEMOIZED_INSTANCES w) r
          (MixtureRegistry_REGISTRY w) (_TFDS_DATA_DIR_OVERRIDE w).

Definition set_MixtureRegistry_REGISTRY (r : gmap string Mixture) (w : World)
  : World :=
  mkWorld (heap w) (_MEMOIZED_INSTANCES w) (TaskRegistry_REGISTRY w)
          r (_TFDS_DATA_DIR_OVERRIDE w).

(** [set_tfds_data_dir_override] *)
Definition set_tfds_data_dir_override (d : option string) (w : World) : World :=
  mkWorld (heap w) (_MEMOIZED_INSTANCES w) (TaskRegistry_REGISTRY w)
          (MixtureRegistry_REGISTRY w) d.

(** Stateful code: it returns or raises, and leaves a world behind either
    way. *)
Definition M (A : Type) : Type := World -> Result A * World.

Definition ret {A} (a : A) : M A := fun w => (Ok a, w).

Definition raise {A} (e : Exception) : M A := fun w => (Raise e, w).

Definition bind {A B} (m : M A) (k : A -> M B) : M B :=
  fun w =>
    match m w with
    | (Ok a, w') => k a w'
    | (Raise e, w') => (Raise e, w')
    end.

Definition gets {A} (f : World -> A) : M A := fun w => (Ok (f w), w).

Definition modify (f : World -> World) : M unit := fun w => (Ok tt, f w).

Declare Scope world_scope.
Delimit Scope world_scope with world.
Notation "x <- m ;; k" := (bind m (fun x => k))
  (at level 100, m at next level, right associativity) : world_scope.

(* ===================================================================== *)
(** ** [LazyTfdsLoader] *)
(* ===================================================================== *)

(** [object.__new__(cls)]: a new object, with no attribute yet. *)
Definition object__new__ : M loc :=
  fun w =>
    let l := fresh (dom (heap w)) in
    (Ok l, set_heap (<[l := None]> (heap w)) w).

(** Reading the attributes of an object, and writing them back. *)
Definition load (self : loc) : M LazyTfdsLoader :=
  fun w =>
    match heap w !! self with
    | Some (Some o) => (Ok o, w)
    | _ => (Raise AttributeError, w)
    end.

Definition store (self : loc) (o : LazyTfdsLoader) : M unit :=
  modify (fun w => set_heap (<[self := Some o]> (heap w)) w).

(** [LazyTfdsLoader.__new__]: either creates a new dataset or returns it if
    it already exists. *)
Definition LazyTfdsLoader__new__ (name : string) (data_dir : option string)
  : M loc :=
  (let key := (name, data_dir) in
   memo <- gets _MEMOIZED_INSTANCES ;;
   _ <- match memo !! key with
        | None =>
            l <- object__new__ ;;
            modify (fun w =>
                      set_MEMOIZED_INSTANCES (<[key := l]> (_MEMOIZED_INSTANCES w)) w)
        | Some _ => ret tt
        end ;;
   memo' <- gets _MEMOIZED_INSTANCES ;;
   match memo' !! key with
   | Some l => ret l
   | None => raise (KeyError name)
   end)%world.

Definition LazyTfdsLoader__init__ (self : loc) (name : string)
           (data_dir : option string) : M unit :=
  store self {| _name := name; _data_dir := data_dir; _builder := None |}.

(** [LazyTfdsLoader(name, data_dir)]: [__new__], then [__init__] on what it
    returned. *)
Definition LazyTfdsLoader_call (name : string) (data_dir : option string)
  : M loc :=
  (self <- LazyTfdsLoader__new__ name data_dir ;;
   _ <- LazyTfdsLoader__init__ self name data_dir ;;
   ret self)%world.

Definition LazyTfdsLoader_name (self : loc) : M string :=
  (o <- load self ;; ret (_name o))%world.

(** Truth value of an optional string: [None] and the empty string are
    false. *)
Definition str_truthy (s : option string) : bool :=
  match s with
  | None => false
  | Some s => negb (String.eqb s "")
  end.

Definition LazyTfdsLoader_data_dir (self : loc) : M (option string) :=
  (o <- load self ;;
   override <- gets _TFDS_DATA_DIR_OVERRIDE ;;
   if str_truthy override then ret override else ret (_data_dir o))%world.

(** The [builder] property: built on first use, then kept. *)
Definition LazyTfdsLoader_builder (self : loc) : M Builder :=
  (o <- load self ;;
   match _builder o with
   | Some b => ret b
   | None =>
       name <- LazyTfdsLoader_name self ;;
       data_dir <- LazyTfdsLoader_data_dir self ;;
       let b := mkBuilder name data_dir in
       _ <- store self {| _name := _name o; _data_dir := _data_dir o;
                          _builder := Some b |} ;;
       ret b
   end)%world.

(* ===================================================================== *)
(** ** [Task] *)
(* ===================================================================== *)

(** [c in s] for a one-character [c]. *)
Fixpoint str_contains (c : ascii) (s : string) : bool :=
  match s with
  | EmptyString => false
  | String a s' => Ascii.eqb a c || str_contains c s'
  end.

(** [sorted(set(l))]: the set forgets order and repetitions, [sorted] lists
    its elements in increasing order. *)
Definition sorted_set (l : list string) : list string :=
  merge_sort String.le (elements (list_to_set l : gset string)).

(** [x or default] for an optional list: [None] and [[]] are false. *)
Definition list_or {A} (x : option (list A)) (default : list A) : list A :=
  match x with
  | None | Some [] => default
  | Some l => l
  end.

(** The arguments of [Task.__init__] after [name]. *)
Record TaskArgs := mkTaskArgs {
  arg_tfds_name : string;
  arg_text_preprocessor : option (FnOrList TextPreprocessor);
  arg_sentencepiece_model_path : string;
  arg_token_preprocessor : option (FnOrList TokenPreprocessor);
  arg_tfds_data_dir : option string;
  arg_output_features : option (list string);
  arg_splits : option (list string)
}.

Section TaskConstruction.
Variable unicode_alnum : ascii -> bool.
Variable unicode_decimal : ascii -> bool.

(** [_VALID_TASK_NAME_REGEX.match(name)], as a truth value. *)
Definition valid_task_name (name : string) : bool :=
  Re.re_match unicode_alnum unicode_decimal _VALID_TASK_NAME_REGEX name.

(** [Task.__init__] *)
Definition Task_init (name : string) (a : TaskArgs) : M Task :=
  (if negb (valid_task_name name) then raise (InvalidName name)
   else if negb (str_contains ":" (arg_tfds_name a))
   then raise (MissingVersion (arg_tfds_name a))
   else
     tfds <- LazyTfdsLoader_call (arg_tfds_name a) (arg_tfds_data_dir a) ;;
     ret {| task_name := name;
            task_tfds := tfds;
            _text_preprocessor :=
              match arg_text_preprocessor a with
              | None => FnList []
              | Some p => p
              end;
            _token_preprocessor :=
              match arg_token_preprocessor a with
              | None => FnList []
              | Some p => p
              end;
            _sentencepiece_model_path := arg_sentencepiece_model_path a;
            _cache_dir := None;
            _stats := ∅;
            _output_features :=
              sorted_set (list_or (arg_output_features a)
                                  _DEFAULT_FEATURE_KEYS);
            _splits := arg_splits a |})%world.
End TaskConstruction.

(** [Task.get_vocabulary] *)
Definition Task_get_vocabulary (self : Task) : SentencePieceVocabulary :=
  mkVocabulary (_sentencepiece_model_path self).

(** [Task._preprocess_dataset]: a single function is wrapped in a list, and
    the functions are applied in order; [call] applies one of them with the
    keyword arguments. *)
Definition _preprocess_dataset {F} (call : F -> Dataset -> Result Dataset)
           (dataset : Dataset) (preprocessors : FnOrList F) : Result Dataset :=
  let preprocessors :=
    match preprocessors with
    | OneFn f => [f]
    | FnList fs => fs
    end in
  fold_left (fun ds prep_fn => res_bind ds (call prep_fn))
            preprocessors (Ok dataset).

(** The three checks [_validate_dataset] makes of one output feature. *)
Definition check_output_feature
    (types : Dict DType) (shapes : Dict (list (option nat)))
    (expected_output_type : DType) (expected_output_rank : nat)
    (error_label : string) (feat : string) : Result unit :=
  match dict_get types feat with
  | None => Raise (SchemaError feat MissingFeature error_label)
  | Some ty =>
      if decide (expected_output_type <> ty)
      then Raise (SchemaError feat IncorrectType error_label)
      else
        match dict_get shapes feat with
        | None => Raise (KeyError feat)
        | Some shape =>
            if decide (expected_output_rank <> length shape)
            then Raise (SchemaError feat IncorrectRank error_label)
            else Ok tt
        end
  end.

(** [tf.assert_none_equal(v, tf.constant(1, tf.int64))] *)
Definition assert_none_equal_1 (v : Tensor) (e : Exception) : Result unit :=
  match v with
  | Int64Tensor _ vals => if existsb (Z.eqb 1) vals then Raise e else Ok tt
  | _ => Raise TypeError
  end.

(** [_ensure_no_eos], on an element and as traced on its description. *)
Definition _ensure_no_eos (self : Task) (error_label : string)
           (feat : string) (v : Tensor) : Result Tensor :=
  if bool_decide (feat ∉ _output_features self) then Ok v
  else
    (_ <- assert_none_equal_1 v (UnexpectedEosError feat error_label) ;;
     Ok v)%result.

Definition _ensure_no_eos_traced (self : Task) (feat : string)
           (v : TensorSpec) : Result TensorSpec :=
  if bool_decide (feat ∉ _output_features self) then Ok v
  else if decide (ts_dtype v = tf_int64) then Ok v
  else Raise TypeError.

(** [Task._validate_dataset] *)
Definition _validate_dataset (self : Task) (dataset : Dataset)
    (expected_output_type : DType) (expected_output_rank : nat)
    (error_label : string) (ensure_no_eos : bool) : Result Dataset :=
  (let types := get_output_types dataset in
   let shapes := get_output_shapes dataset in
   _ <- res_mapM (check_output_feature types shapes expected_output_type
                                       expected_output_rank error_label)
                 (_output_features self) ;;
   if ensure_no_eos
   then Dataset_map (dict_map_items (_ensure_no_eos_traced self))
                    (dict_map_items (_ensure_no_eos self error_label))
                    dataset
   else Ok dataset)%result.

(** [Task.preprocess_text] *)
Definition Task_preprocess_text (self : Task) (dataset : Dataset)
  : Result Dataset :=
  (dataset <- _preprocess_dataset (fun f ds => f ds) dataset
                                  (_text_preprocessor self) ;;
   _validate_dataset self dataset tf_string 0 "text preprocessing" false)%result.

(** [tf.concat([v[:n], [1]], axis=0)] for a vector of integers. *)
Definition trim_concat_1 (n : Z) (v : Tensor) : Result Tensor :=
  match v with
  | Int64Tensor [_] vals =>
      let r := slice_to n vals ++ [1%Z] in Ok (Int64Tensor [length r] r)
  | Int32Tensor [_] vals =>
      let r := slice_to n vals ++ [1%Z] in Ok (Int32Tensor [length r] r)
  | _ => Raise TypeError
  end.

(** The length of [tf.concat([v[:len - 1], [1]], axis=0)] as it is known
    when the function is traced, for a vector [v] of length [d]: the length of
    the slice and one more when [d] is known, and unknown when it is not. *)
Definition trimmed_dim (len : Z) (d : option nat) : option nat :=
  option_map (fun d => S (static_slice_length (len - 1) d)) d.

(** [_trim_and_append_eos], on an element and as traced on its
    description. *)
Definition _trim_and_append_eos (self : Task) (sequence_length : gmap string Z)
           (feat : string) (v : Tensor) : Result Tensor :=
  if bool_decide (feat ∉ _output_features self) then Ok v
  else
    match sequence_length !! feat with
    | None => Raise (KeyError feat)
    | Some len => trim_concat_1 (len - 1) v
    end.

Definition _trim_and_append_eos_traced (self : Task)
           (sequence_length : gmap string Z)
           (feat : string) (v : TensorSpec) : Result TensorSpec :=
  if bool_decide (feat ∉ _output_features self) then Ok v
  else
    match sequence_length !! feat with
    | None => Raise (KeyError feat)
    | Some len =>
        match ts_dtype v, ts_shape v with
        | (tf_int32 | tf_int64), [d] =>
            Ok (mkTensorSpec (ts_dtype v) [trimmed_dim len d])
        | _, _ => Raise TypeError
        end
    end.

(** [Task.preprocess_tokens] *)
Definition Task_preprocess_tokens (self : Task) (dataset : Dataset)
           (sequence_length : gmap string Z) : Result Dataset :=
  (dataset <- _preprocess_dataset
                (fun f ds => f ds sequence_length (Task_get_vocabulary self))
                dataset (_token_preprocessor self) ;;
   dataset <- _validate_dataset self dataset tf_int64 1
                                "token preprocessing" true ;;
   Dataset_map
     (dict_map_items (_trim_and_append_eos_traced self sequence_length))
     (dict_map_items (_trim_and_append_eos self sequence_length))
     dataset)%result.

(** *** The cache of a [Task] *)

(** [os.path.join(a, b)] *)
Definition os_path_join (a b : string) : string :=
  if String.prefix "/" b then b
  else if String.eqb a "" then b
  else if String.eqb (String.substring (String.length a - 1) 1 a) "/"
       then a ++ b
       else a ++ "/" ++ b.

(** [tf.io.gfile.exists] *)
Definition gfile_exists (st : Storage) (path : string) : bool :=
  bool_decide (is_Some (files st !! path)).

(** [get_stats_path]: [_STATS_FILENAME = "stats.{split}.json"] *)
Definition get_stats_path (data_dir split : string) : string :=
  os_path_join data_dir ("stats." ++ split ++ ".json").

Definition set_cache_dir (d : option string) (t : Task) : Task :=
  mkTask (task_name t) (task_tfds t) (_text_preprocessor t)
         (_token_preprocessor t) (_sentencepiece_model_path t)
         d (_stats t) (_output_features t) (_splits t).

Definition set_stats (s : gmap string (gmap string Z)) (t : Task) : Task :=
  mkTask (task_name t) (task_tfds t) (_text_preprocessor t)
         (_token_preprocessor t) (_sentencepiece_model_path t)
         (_cache_dir t) s (_output_features t) (_splits t).

(** The methods below update the memo attributes of the [Task] they are
    called on: they return the [Task] as they leave it. *)

(** [Task.initialize] *)
Definition Task_initialize (st : Storage) (self : Task) : Task :=
  if str_truthy (_cache_dir self) then self
  else
    let potential_cache_dirs :=
      map (fun d => os_path_join d (task_name self))
          (_GLOBAL_CACHE_DIRECTORIES st) in
    match List.find (fun cache_dir =>
                       gfile_exists st (os_path_join cache_dir "COMPLETED"))
                    potential_cache_dirs with
    | Some cache_dir => set_cache_dir (Some cache_dir) self
    | None => self
    end.

(** [Task.cached] *)
Definition Task_cached (st : Storage) (self : Task) : bool * Task :=
  let self := Task_initialize st self in
  (bool_decide (is_Some (_cache_dir self)), self).

(** [Task.assert_cached] *)
Definition Task_assert_cached (st : Storage) (self : Task)
  : Result unit * Task :=
  let (cached, self) := Task_cached st self in
  if cached then (Ok tt, self) else (Raise (NotCached (task_name self)), self).

(** [Task.cache_dir] *)
Definition Task_cache_dir (st : Storage) (self : Task) : Result string * Task :=
  match Task_assert_cached st self with
  | (Ok _, self) =>
      match _cache_dir self with
      | Some d => (Ok d, self)
      | None => (Raise (NotCached (task_name self)), self)
      end
  | (Raise e, self) => (Raise e, self)
  end.

(** [Task.get_cached_stats] *)
Definition Task_get_cached_stats (st : Storage) (self : Task) (split : string)
  : Result (gmap string Z) * Task :=
  match Task_assert_cached st self with
  | (Raise e, self) => (Raise e, self)
  | (Ok _, self) =>
      match _stats self !! split with
      | Some stats => (Ok stats, self)
      | None =>
          match Task_cache_dir st self with
          | (Raise e, self) => (Raise e, self)
          | (Ok cache_dir, self) =>
              let stats_path := get_stats_path cache_dir split in
              if negb (gfile_exists st stats_path)
              then (Raise (MissingStats (task_name self) split), self)
              else
                match files st !! stats_path with
                | Some (JsonFile stats) =>
                    (Ok stats, set_stats (<[split := stats]> (_stats self)) self)
                | _ => (Raise (OtherError "json.load"), self)
                end
          end
      end
  end.

(* ===================================================================== *)
(** ** Provider registries *)
(* ===================================================================== *)

(** A registry class: its [_REGISTRY] dictionary, which lives in the world,
    and its [_PROVIDER_TYPE], as the test [isinstance(provider,
    cls._PROVIDER_TYPE)] that also gives the provider its type. *)
Class DatasetProviderRegistry (P : Type) := {
  _REGISTRY : World -> gmap string P;
  set_REGISTRY : gmap string P -> World -> World;
  _PROVIDER_TYPE : Object -> option P;
  REGISTRY_set_get : forall r w, _REGISTRY (set_REGISTRY r w) = r
}.

Section Registry.
Context {P : Type} (cls : DatasetProviderRegistry P).

(** [DatasetProviderRegistry.add]; [provider_cls] is the call of the
    provider class on its positional and keyword arguments. *)
Definition DatasetProviderRegistry_add (name : string)
           (provider_cls : M Object) : M unit :=
  (registry <- gets _REGISTRY ;;
   if bool_decide (is_Some (registry !! name))
   then raise (DuplicateRegistration name)
   else
     provider <- provider_cls ;;
     match _PROVIDER_TYPE provider with
     | None => raise InvalidProviderType
     | Some p =>
         modify (fun w => set_REGISTRY (<[name := p]> (_REGISTRY w)) w)
     end)%world.

(** [DatasetProviderRegistry.get] *)
Definition DatasetProviderRegistry_get (name : string) : M P :=
  (registry <- gets _REGISTRY ;;
   match registry !! name with
   | None => raise (NotFound name)
   | Some p => ret p
   end)%world.

(** [DatasetProviderRegistry.names] *)
Definition DatasetProviderRegistry_names : M (gset string) :=
  gets (fun w => dom (_REGISTRY w)).
End Registry.

Definition TaskRegistry : DatasetProviderRegistry Task :=
  {| _REGISTRY := TaskRegistry_REGISTRY;
     set_REGISTRY := set_TaskRegistry_REGISTRY;
     _PROVIDER_TYPE := fun o => match o with TaskObject t => Some t | _ => None end;
     REGISTRY_set_get := fun _ _ => eq_refl |}.

Definition MixtureRegistry : DatasetProviderRegistry Mixture :=
  {| _REGISTRY := MixtureRegistry_REGISTRY;
     set_REGISTRY := set_MixtureRegistry_REGISTRY;
     _PROVIDER_TYPE :=
       fun o => match o with MixtureObject m => Some m | _ => None end;
     REGISTRY_set_get := fun _ _ => eq_refl |}.

Section TaskRegistration.
Variable unicode_alnum : ascii -> bool.
Variable unicode_decimal : ascii -> bool.

(** [TaskRegistry.add] with the keyword arguments [kwargs] *)
Definition TaskRegistry_add (name : string) (kwargs : TaskArgs) : M unit :=
  DatasetProviderRegistry_add TaskRegistry name
    (t <- Task_init unicode_alnum unicode_decimal name kwargs ;;
     ret (TaskObject t))%world.
End TaskRegistration.

(* ===================================================================== *)
(** ** [Mixture] *)
(* ===================================================================== *)

(** The loop of [Mixture.__init__] over [tasks], from the attributes
    gathered so far. *)
Fixpoint Mixture_init_loop (tasks : list MixtureEntry)
         (default_rate : option Rate) (self : Mixture) : M Mixture :=
  match tasks with
  | [] => ret self
  | t :: tasks' =>
      (entry <- match t with
                | TaskName task_name =>
                    match default_rate with
                    | None => raise MissingRate
                    | Some rate => ret (task_name, rate)
                    end
                | TaskWithRate task_name rate => ret (task_name, rate)
                end ;;
       task <- DatasetProviderRegistry_get TaskRegistry (fst entry) ;;
       Mixture_init_loop tasks' default_rate
         {| _tasks := _tasks self ++ [task];
            _task_to_rate := <[fst entry := snd entry]> (_task_to_rate self) |}
      )%world
  end.

(** [len(set(f(t) for t in tasks))] *)
Definition count_distinct {A B} `{Countable B} (f : A -> B) (l : list A) : nat :=
  size (list_to_set (map f l) : gset B).

(** [Mixture.__init__] *)
Definition Mixture_init (tasks : list MixtureEntry)
           (default_rate : option Rate) : M Mixture :=
  (self <- Mixture_init_loop tasks default_rate
                             {| _tasks := []; _task_to_rate := ∅ |} ;;
   if negb (Nat.eqb (count_distinct _output_features (_tasks self)) 1)
   then raise (IncompatibleMixtureError OutputFeaturesDiffer)
   else if negb (Nat.eqb (count_distinct _sentencepiece_model_path (_tasks self)) 1)
   then raise (IncompatibleMixtureError SentencepieceModelPathDiffer)
   else ret self)%world.

(** [MixtureRegistry.add(name, tasks, default_rate)] *)
Definition MixtureRegistry_add (name : string) (tasks : list MixtureEntry)
           (default_rate : option Rate) : M unit :=
  DatasetProviderRegistry_add MixtureRegistry name
    (m <- Mixture_init tasks default_rate ;; ret (MixtureObject m))%world.

(** [self._tasks[0]] *)
Definition Mixture_first_task (self : Mixture) : Result Task :=
  match _tasks self with
  | t :: _ => Ok t
  | [] => Raise IndexError
  end.

(** [Mixture.output_features] *)
Definition Mixture_output_features (self : Mixture) : Result (list string) :=
  (t <- Mixture_first_task self ;; Ok (_output_features t))%result.

(** [Mixture.sentencepiece_model_path] *)
Definition Mixture_sentencepiece_model_path (self : Mixture) : Result string :=
  (t <- Mixture_first_task self ;; Ok (_sentencepiece_model_path t))%result.

(** [Mixture.get_vocabulary] *)
Definition Mixture_get_vocabulary (self : Mixture)
  : Result SentencePieceVocabulary :=
  (t <- Mixture_first_task self ;; Ok (Task_get_vocabulary t))%result.

(** [Mixture.get_rate] *)
Definition Mixture_get_rate (self : Mixture) (st : Storage) (task : Task)
  : Result float :=
  match _task_to_rate self !! task_name task with
  | None => Raise (KeyError (task_name task))
  | Some (RateFn rate) => rate st task
  | Some (RateNumber rate) => Ok rate
  end.

(* ===================================================================== *)
(** ** Functions to be used as mixing rates *)
(* ===================================================================== *)

(** Truth value of an optional number: [None] and zero are false. *)
Definition float_truthy (x : option float) : bool :=
  match x with
  | None => false
  | Some x => negb (PrimFloat.eqb x 0%float)
  end.

(** [min(a, b)]: [b] when it is smaller, else [a]. *)
Definition py_min (a b : float) : float :=
  if PrimFloat.ltb b a then b else a.

Section Rates.
(** [x ** y] on floats: the platform's [pow], the exceptions Python raises
    around it, and the complex numbers Python 3 returns. *)
Variable float_pow : float -> float -> Result PyNumber.

(** [x / y] on floats. *)
Definition float_div (x y : float) : Result float :=
  if PrimFloat.eqb y 0%float then Raise ZeroDivisionError
  else Ok (PrimFloat.div x y).

(** [rate_num_examples].  The count is an integer, which the product with
    [scale] converts to a float; the arguments are taken by their
    float values. *)
Definition rate_num_examples (st : Storage) (task : Task)
           (maximum : option float) (temperature scale : float)
  : Result PyNumber :=
  (stats <- fst (Task_get_cached_stats st task "train") ;;
   examples <- match stats !! "examples" with
               | Some n => Ok n
               | None => Raise (KeyError "examples")
               end ;;
   examples <- float_of_int examples ;;
   let ret := PrimFloat.mul examples scale in
   let ret := match maximum with
              | Some m => if float_truthy maximum then py_min ret m else ret
              | None => ret
              end in
   if negb (PrimFloat.eqb temperature 1%float)
   then (e <- float_div 1%float temperature ;; float_pow ret e)
   else Ok (PyFloat ret))%result.

(** [rate_unsupervised] *)
Definition rate_unsupervised (task : Task) (value : float) : float := value.
End Rates.

(* ===================================================================== *)
(** ** Concrete inputs *)
(* ===================================================================== *)

(** A Unicode database that knows no letter or digit above 127. *)
Definition ascii_only : ascii -> bool := fun _ => false.

(** A world in which nothing has been registered or loaded. *)
Definition empty_world : World := mkWorld ∅ ∅ ∅ ∅ None.

Definition cola_args : TaskArgs :=
  mkTaskArgs "glue/cola:1.0.0" None "sp.model" None None
             (Some ["targets"; "inputs"; "targets"]) None.

Definition rte_args : TaskArgs :=
  mkTaskArgs "glue/rte:1.0.0" None "sp.model" None None None None.

(** A [Task] with the default output features and no preprocessor. *)
Definition plain_task : Task :=
  {| task_name := "plain";
     task_tfds := 0;
     _text_preprocessor := FnList [];
     _token_preprocessor := FnList [];
     _sentencepiece_model_path := "sp.model";
     _cache_dir := None;
     _stats := ∅;
     _output_features := ["inputs"; "targets"];
     _splits := None |}.

Definition token_spec : Dict TensorSpec :=
  [("inputs", mkTensorSpec tf_int64 [None]);
   ("targets", mkTensorSpec tf_int64 [None]);
   ("idx", mkTensorSpec tf_int64 [None])].

Definition dataset_of (ex : Example) : Dataset :=
  {| element_spec := token_spec; dataset_elements := [Ok ex] |}.

Definition lengths (inputs targets : Z) : gmap string Z :=
  <["inputs" := inputs]> (<["targets" := targets]> ∅).

(** Constructing one loader after the other, for a list of keys. *)
Fixpoint construct_all (keys : list (string * option string)) : M unit :=
  match keys with
  | [] => ret tt
  | (name, data_dir) :: keys' =>
      (_ <- LazyTfdsLoader_call name data_dir ;; construct_all keys')%world
  end.

Definition world_after_cola : World :=
  snd (LazyTfdsLoader_call "glue/cola:1.0.0" None empty_world).

Definition world_after_rte : World :=
  snd (construct_all [("glue/rte:1.0.0", None)] world_after_cola).

(** The provider class [Task] called on the name and arguments of the cola
    task, and the world after that task has been registered. *)
Definition cola_provider : M Object :=
  (t <- Task_init ascii_only ascii_only "cola" cola_args ;;
   ret (TaskObject t))%world.

Definition world_with_cola : World :=
  snd (TaskRegistry_add ascii_only ascii_only "cola" cola_args empty_world).

Definition world_with_cola_rte : World :=
  snd (TaskRegistry_add ascii_only ascii_only "rte" rte_args world_with_cola).

(** The task registered under a name. *)
Definition registered_task (w : World) (name : string) : Task :=
  default plain_task (TaskRegistry_REGISTRY w !! name).

(** What an element of the [tasks] argument of [Mixture] names, and the
    rate it gets. *)
Definition entry_name (e : MixtureEntry) : string :=
  match e with
  | TaskName n | TaskWithRate n _ => n
  end.

Definition entry_rate (default_rate : option Rate) (e : MixtureEntry)
  : option Rate :=
  match e with
  | TaskName _ => default_rate
  | TaskWithRate _ r => Some r
  end.

(** The entry has a rate and names the registered task [t]. *)
Definition entry_resolves (default_rate : option Rate) (w : World)
           (e : MixtureEntry) (t : Task) : Prop :=
  is_Some (entry_rate default_rate e) /\
  TaskRegistry_REGISTRY w !! entry_name e = Some t.

(** The output features are as [Task.__init__] leaves them. *)
Definition features_normalised (t : Task) : Prop :=
  _output_features t = sorted_set (_output_features t).

Definition same_feature_set (t1 t2 : Task) : Prop :=
  forall x, x ∈ _output_features t1 <-> x ∈ _output_features t2.

(** The first step of [Task.preprocess_tokens]: the token preprocessors,
    called with [sequence_length] and the vocabulary of the task. *)
Definition token_preprocessing_stage (self : Task) (dataset : Dataset)
           (sequence_length : gmap string Z) : Result Dataset :=
  _preprocess_dataset
    (fun f ds => f ds sequence_length (Task_get_vocabulary self))
    dataset (_token_preprocessor self).

(** An item of an element, and the item that the trimming of
    [Task.preprocess_tokens] makes of it. *)
Definition trimmed_item (self : Task) (sequence_length : gmap string Z)
           (kv kv' : string * Tensor) : Prop :=
  fst kv' = fst kv /\
  (fst kv ∉ _output_features self -> snd kv' = snd kv) /\
  (fst kv ∈ _output_features self ->
   exists len d vals r,
     sequence_length !! fst kv = Some len /\
     snd kv = Int64Tensor [d] vals /\
     snd kv' = Int64Tensor [length r] r /\
     last r = Some 1%Z /\
     r = take (length r - 1) vals ++ [1%Z] /\
     ((1 <= len)%Z ->
      Z.of_nat (length r) = Z.min len (Z.of_nat (length vals) + 1))).

Definition example_567 : Example :=
  [("inputs", Int64Tensor [2] [5; 6]%Z);
   ("targets", Int64Tensor [1] [7]%Z);
   ("idx", Int64Tensor [2] [1; 1]%Z)].

Definition example_567_trimmed : Example :=
  [("inputs", Int64Tensor [2] [5; 1]%Z);
   ("targets", Int64Tensor [2] [7; 1]%Z);
   ("idx", Int64Tensor [2] [1; 1]%Z)].

(** An element that is already trimmed to the lengths 2 and 2 and ends
    with the EOS id. *)
Definition example_eos : Example :=
  [("inputs", Int64Tensor [2] [5; 1]%Z);
   ("targets", Int64Tensor [2] [7; 1]%Z);
   ("idx", Int64Tensor [2] [1; 1]%Z)].

Fixpoint string_forallb (p : ascii -> bool) (s : string) : bool :=
  match s with
  | EmptyString => true
  | String c s' => p c && string_forallb p s'
  end.

(** The alphabet [[A-Za-z0-9_.]]. *)
Definition plain_name_char (c : ascii) : bool :=
  Re.ascii_letter c || Re.ascii_digit c
  || Ascii.eqb c Re.underscore || Ascii.eqb c Re.dot.

(** A storage in which the task named plain is cached, with the given
    number of training examples in its statistics. *)
Definition cache_storage (examples : Z) : Storage :=
  {| _GLOBAL_CACHE_DIRECTORIES := ["/cache"];
     files :=
       <["/cache/plain/COMPLETED" := MarkerFile]>
         (<["/cache/plain/stats.train.json" :=
              JsonFile (<["examples" := examples]> ∅)]> ∅) |}.

(** A [pow] that is exact at the exponent one half for a base that is not
    negative, and raises everywhere else. *)
Definition sqrt_pow (x y : float) : Result PyNumber :=
  if PrimFloat.eqb y 0.5%float && negb (PrimFloat.ltb x 0%float)
  then Ok (PyFloat (PrimFloat.sqrt x))
  else Raise (OtherError "pow").

(* ===================================================================== *)
(** ** The rest of the module: configuration, split metadata, features *)
(* ===================================================================== *)

(** The [ValueError]s of the functions below, told apart by their
    messages. *)
Definition InvalidSplit (name split : string) : Exception :=
  OtherError (name ++ " has no '" ++ split ++ "' split").

Definition NoAvailableTasks (split : string) : Exception :=
  OtherError ("No datasets have a '" ++ split ++ "' split").

Definition UnsupportedShape (key : string) : Exception :=
  OtherError ("Unsupported shape for '" ++ key ++ "' value").

(** [set_global_cache_dirs] and [add_global_cache_dirs] *)
Definition set_global_cache_dirs (global_cache_dirs : list string)
           (st : Storage) : Storage :=
  mkStorage global_cache_dirs (files st).

Definition add_global_cache_dirs (global_cache_dirs : list string)
           (st : Storage) : Storage :=
  mkStorage (_GLOBAL_CACHE_DIRECTORIES st ++ global_cache_dirs) (files st).

(** [d[k] = v] on a dictionary whose item order is observable: the value is
    replaced where the key is, a new key goes last. *)
Fixpoint dict_set {V} (d : Dict V) (k : string) (v : V) : Dict V :=
  match d with
  | [] => [(k, v)]
  | (k', v') :: d' =>
      if decide (k' = k) then (k, v) :: d' else (k', v') :: dict_set d' k v
  end.

Definition dict_keys {V} (d : Dict V) : list string := map fst d.

(** *** [LazyTfdsLoader]: the metadata of the splits *)

(** [size] returns the number of examples, or [np.inf]. *)
Inductive DatasetSize :=
| FiniteSize (n : Z)
| InfiniteSize.

Section TfdsInfo.
(** [builder.info.splits]: for each split of the dataset of a builder, its
    [num_examples].  The catalogue of TFDS is external. *)
Variable tfds_splits : Builder -> gmap string Z.

(** [LazyTfdsLoader.info], as far as its splits go. *)
Definition LazyTfdsLoader_info_splits (self : loc) : M (gmap string Z) :=
  (b <- LazyTfdsLoader_builder self ;; ret (tfds_splits b))%world.

(** [LazyTfdsLoader.verify_split] *)
Definition LazyTfdsLoader_verify_split (self : loc) (split : string) : M unit :=
  (splits <- LazyTfdsLoader_info_splits self ;;
   if bool_decide (split ∉ dom splits)
   then name <- LazyTfdsLoader_name self ;; raise (InvalidSplit name split)
   else ret tt)%world.

(** [LazyTfdsLoader.size] *)
Definition LazyTfdsLoader_size (self : loc) (split : string) : M DatasetSize :=
  (_ <- LazyTfdsLoader_verify_split self split ;;
   ds_splits <- LazyTfdsLoader_info_splits self ;;
   match ds_splits !! split with
   | None => raise (KeyError split)
   | Some dataset_size =>
       ret (if (0 <? dataset_size)%Z then FiniteSize dataset_size
            else InfiniteSize)
   end)%world.

(** [Task.splits]: [self._splits or self.tfds_dataset.info.splits].  What
    it returns is used for membership tests; it is given as a set. *)
Definition Task_splits (self : Task) : M (gset string) :=
  match _splits self with
  | Some (s :: l) => ret (list_to_set (s :: l))
  | _ =>
      (splits <- LazyTfdsLoader_info_splits (task_tfds self) ;;
       ret (dom splits))%world
  end.

(** The first loop of [Mixture.get_dataset]: the tasks that have the
    split, in the order of the mixture. *)
Fixpoint Mixture_get_dataset_loop (all : list Task) (split : string)
         (tasks : list Task) : M (list Task) :=
  match all with
  | [] => ret tasks
  | task :: rest =>
      (splits <- Task_splits task ;;
       if bool_decide (split ∉ splits)
       then Mixture_get_dataset_loop rest split tasks
       else Mixture_get_dataset_loop rest split (tasks ++ [task]))%world
  end.

(** [Mixture.get_dataset], up to the choice of the tasks: the loop, and
    the error when no task is left.  The rest of the function draws at
    random from the datasets of these tasks. *)
Definition Mixture_get_dataset_tasks (self : Mixture) (split : string)
  : M (list Task) :=
  (tasks <- Mixture_get_dataset_loop (_tasks self) split [] ;;
   match tasks with
   | [] => raise (NoAvailableTasks split)
   | _ => ret tasks
   end)%world.
End TfdsInfo.

(** *** [encode_string_features] *)

(** [tf.cast(v, tf.int64)], on a tensor and on its description. *)
Definition tf_cast_int64 (v : Tensor) : Result Tensor :=
  match v with
  | Int32Tensor shape vals | Int64Tensor shape vals =>
      Ok (Int64Tensor shape vals)
  | StringTensor _ _ => Raise TypeError
  end.

Definition tf_cast_int64_traced (v : TensorSpec) : Result TensorSpec :=
  match ts_dtype v with
  | tf_int32 | tf_int64 => Ok (mkTensorSpec tf_int64 (ts_shape v))
  | tf_string => Raise TypeError
  end.

(** [my_fn] of [encode_string_features].  It runs on the tensors of an
    element and, when it is traced, on their descriptions: [dtype] tells the
    type of a value and [encode] is [tf.cast(vocabulary.encode_tf(v),
    tf.int64)]. *)
Definition encode_my_fn {V} (dtype : V -> DType) (encode : V -> Result V)
           (keys : gset string) (copy_plaintext : bool) (features : Dict V)
  : Result (Dict V) :=
  fold_left
    (fun ret kv =>
       (ret <- ret ;;
        if bool_decide (dtype (snd kv) = tf_string) && bool_decide (fst kv ∈ keys)
        then
          let ret :=
            if copy_plaintext
            then dict_set ret (fst kv ++ "_plaintext")%string (snd kv)
            else ret in
          v <- encode (snd kv) ;;
          Ok (dict_set ret (fst kv) v)
        else Ok (dict_set ret (fst kv) (snd kv)))%result)
    features (Ok []).

Section Vocabulary.
(** [vocabulary.encode_tf], on a tensor and on its description. *)
Variable encode_tf : Tensor -> Result Tensor.
Variable encode_tf_traced : TensorSpec -> Result TensorSpec.

(** [encode_string_features] *)
Definition encode_string_features (dataset : Dataset) (keys : list string)
           (copy_plaintext : bool) : Result Dataset :=
  let keys : gset string := list_to_set keys in
  Dataset_map
    (encode_my_fn ts_dtype
       (fun v => res_bind (encode_tf_traced v) tf_cast_int64_traced)
       keys copy_plaintext)
    (encode_my_fn tensor_dtype
       (fun v => res_bind (encode_tf v) tf_cast_int64)
       keys copy_plaintext)
    dataset.
End Vocabulary.

(** *** [inverse_dataset] *)

(** [tf.strings.join([label, v])] for a Python string [label], on a tensor
    and on its description. *)
Definition strings_join (label : string) (v : Tensor) : Result Tensor :=
  match v with
  | StringTensor shape vals =>
      Ok (StringTensor shape (map (String.append label) vals))
  | _ => Raise TypeError
  end.

Definition strings_join_traced (v : TensorSpec) : Result TensorSpec :=
  match ts_dtype v with
  | tf_string => Ok v
  | _ => Raise TypeError
  end.

(** [x[k]] *)
Definition dict_item {V} (x : Dict V) (k : string) : Result V :=
  match dict_get x k with
  | Some v => Ok v
  | None => Raise (KeyError k)
  end.

(** [map_fn] of [inverse_dataset] *)
Definition inverse_map_fn {V} (join : V -> Result V) (x : Dict V)
  : Result (Dict V) :=
  (targets <- dict_item x "targets" ;;
   joined <- join targets ;;
   inputs <- dict_item x "inputs" ;;
   Ok [("inputs", joined); ("targets", inputs)])%result.

(** [inverse_dataset] *)
Definition inverse_dataset (dataset : Dataset) (label : string)
  : Result Dataset :=
  Dataset_map (inverse_map_fn strings_join_traced)
              (inverse_map_fn (strings_join label)) dataset.

(** *** [dict_to_tfexample] *)

(** A [tf.train.Feature]: a list of bytes or a list of int64. *)
Inductive Feature :=
| bytes_list (value : list string)
| int64_list (value : list Z).

(** A value of the dictionary that [dict_to_tfexample] is given: a tensor
    of strings or of integers, or a value of another type, a float or a
    boolean, of which only the shape plays a part. *)
Inductive ExampleValue :=
| TensorValue (t : Tensor)
| OtherValue (shape : list nat).

Definition value_shape (v : ExampleValue) : list nat :=
  match v with
  | TensorValue t => tensor_shape t
  | OtherValue shape => shape
  end.

(** The feature of a value of rank 0 or 1: the list of its one element, or
    of its elements, as bytes for strings and as int64 for both widths of
    integers. *)
Definition feature_of (v : Tensor) : Feature :=
  match v with
  | StringTensor _ vals => bytes_list vals
  | Int32Tensor _ vals | Int64Tensor _ vals => int64_list vals
  end.

Section TfExample.
(** What the [raise] for a value of an unsupported type raises, for the key
    of the value: its [ValueError], or the [AttributeError] of building the
    message of that error, which reads [tf.dtype], where the module has no
    attribute of that name. *)
Variable unsupported_type : string -> Exception.

(** The body of the loop of [dict_to_tfexample], up to the assignment: the
    shape is looked at first, then the type. *)
Definition value_feature (k : string) (v : ExampleValue) : Result Feature :=
  if (1 <? length (value_shape v))%nat then Raise (UnsupportedShape k)
  else
    match v with
    | TensorValue t => Ok (feature_of t)
    | OtherValue _ => Raise (unsupported_type k)
    end.

(** [dict_to_tfexample]: the feature dictionary of the
    [tf.train.Example]. *)
Definition dict_to_tfexample (ex : Dict ExampleValue) : Result (Dict Feature) :=
  fold_left
    (fun feature_dict kv =>
       (feature_dict <- feature_dict ;;
        feature <- value_feature (fst kv) (snd kv) ;;
        Ok (dict_set feature_dict (fst kv) feature))%result)
    ex (Ok []).
End TfExample.

(** *** Invariants of the world *)

(** The memo table of [LazyTfdsLoader] names objects that exist, and no
    object under two keys. *)
Definition loader_inv (w : World) : Prop :=
  (forall k l, _MEMOIZED_INSTANCES w !! k = Some l -> is_Some (heap w !! l)) /\
  (forall k1 k2 l,
      _MEMOIZED_INSTANCES w !! k1 = Some l ->
      _MEMOIZED_INSTANCES w !! k2 = Some l -> k1 = k2).

(** Every registered [Task] is registered under its own name, with its
    output features as [Task.__init__] leaves them. *)
Definition registry_inv (w : World) : Prop :=
  forall k t, TaskRegistry_REGISTRY w !! k = Some t ->
              task_name t = k /\ features_normalised t.

(** The names are made of characters below 128. *)
Definition ascii_name (name : string) : bool :=
  string_forallb (fun c => (Re.code c <? 128)%N) name.

(** The description of one feature before and after the EOS check and the
    trimming of [preprocess_tokens], when both are traced without an
    error. *)
Definition traced_spec_item (self : Task) (sl : gmap string Z)
           (ks ks' : string * TensorSpec) : Prop :=
  fst ks' = fst ks /\
  (fst ks ∉ _output_features self -> snd ks' = snd ks) /\
  (fst ks ∈ _output_features self ->
   exists len d,
     sl !! fst ks = Some len /\
     snd ks = mkTensorSpec tf_int64 [d] /\
     snd ks' = mkTensorSpec tf_int64 [trimmed_dim len d]).

(** The rates that the entries of a [Mixture] give, the later entry
    replacing the earlier one with the same name. *)
Definition rates_of (default_rate : option Rate) (tasks : list MixtureEntry)
           (init : gmap string Rate) : gmap string Rate :=
  fold_left (fun acc e =>
               match entry_rate default_rate e with
               | Some r => <[entry_name e := r]> acc
               | None => acc
               end)
            tasks init.

(** The error that [Mixture.__init__] raises at an entry that has no rate
    or names no registered task. *)
Definition entry_error (default_rate : option Rate) (e : MixtureEntry)
  : Exception :=
  match entry_rate default_rate e with
  | None => MissingRate
  | Some _ => NotFound (entry_name e)
  end.

(** What [my_fn] of [encode_string_features] makes of one feature: the
    feature itself, or its encoding, after its plaintext copy if one is asked
    for. *)
Definition encode_items {V} (dtype : V -> DType) (encode : V -> Result V)
           (keys : gset string) (copy_plaintext : bool) (k : string) (v : V)
  : Result (Dict V) :=
  if bool_decide (dtype v = tf_string) && bool_decide (k ∈ keys)
  then (v' <- encode v ;;
        Ok ((if copy_plaintext then [((k ++ "_plaintext")%string, v)] else [])
              ++ [(k, v')]))%result
  else Ok [(k, v)].

(** A vocabulary for the examples: a string is encoded as its length. *)
Definition length_encode_tf (v : Tensor) : Result Tensor :=
  match v with
  | StringTensor _ vals =>
      Ok (Int32Tensor [length vals]
                      (map (fun s => Z.of_nat (String.length s)) vals))
  | _ => Raise TypeError
  end.

Definition text_example : Example :=
  [("inputs", StringTensor [] ["cola sentence: hello"]);
   ("targets", StringTensor [] ["acceptable"]);
   ("idx", Int64Tensor [] [3%Z])].

Definition text_spec : Dict TensorSpec :=
  [("inputs", mkTensorSpec tf_string []);
   ("targets", mkTensorSpec tf_string []);
   ("idx", mkTensorSpec tf_int64 [])].

(** A dataset of tokens whose features have known lengths. *)
Definition static_token_spec : Dict TensorSpec :=
  [("inputs", mkTensorSpec tf_int64 [Some 2]);
   ("targets", mkTensorSpec tf_int64 [Some 1]);
   ("idx", mkTensorSpec tf_int64 [Some 2])].

Definition static_dataset_of (ex : Example) : Dataset :=
  {| element_spec := static_token_spec; dataset_elements := [Ok ex] |}.

(** An example with a float feature. *)
Definition scored_example : Dict ExampleValue :=
  [("inputs", TensorValue (StringTensor [] ["cola sentence: hello"]));
   ("idx", TensorValue (Int32Tensor [2] [3; 4]%Z));
   ("score", OtherValue [])].

(** Two preprocessors for the examples. *)
Definition label_cola (ds : Dataset) : Result Dataset :=
  inverse_dataset ds "cola: ".

Definition label_rte (ds : Dataset) : Result Dataset :=
  inverse_dataset ds "rte: ".

(** The splits of the GLUE datasets, for the examples. *)
Definition glue_splits (b : Builder) : gmap string Z :=
  <["train" := 0%Z]> (<["validation" := 1043%Z]> ∅).

(** A task that declares its splits. *)
Definition task_with_splits (name : string) (splits : list string) : Task :=
  {| task_name := name;
     task_tfds := 0;
     _text_preprocessor := FnList [];
     _token_preprocessor := FnList [];
     _sentencepiece_model_path := "sp.model";
     _cache_dir := None;
     _stats := ∅;
     _output_features := ["inputs"; "targets"];
     _splits := Some splits |}.

(* ===================================================================== *)
(** ** The name pattern *)
(* ===================================================================== *)

Lemma plus_greedy_true cls k s :
  Re.plus_greedy cls k s = true <->
  exists body rest,
    s = (body ++ rest)%string /\ body <> "" /\ string_forallb cls body = true /\
    k rest = true.
Proof.
  induction s as [|c s IH]; simpl.
  - split; [discriminate|].
    intros (body & rest & Hs & Hne & _). destruct body; [done|discriminate].
  - rewrite andb_true_iff, orb_true_iff, IH. split.
    + intros [Hc [(body & rest & -> & Hne & Hall & Hk)|Hk]].
      * exists (String c body), rest. simpl. rewrite Hc, Hall. done.
      * exists (String c ""), s. simpl. rewrite Hc. done.
    + intros (body & rest & Hs & Hne & Hall & Hk).
      destruct body as [|b body]; [done|]. simpl in *.
      injection Hs as -> ->. apply andb_true_iff in Hall as [Hb Hall].
      split; [done|]. destruct body as [|b' body].
      * right. done.
      * left. exists (String b' body), rest. done.
Qed.

Lemma append_empty_r (s : string) : (s ++ "")%string = s.
Proof.
  induction s as [|c s IH]; [reflexivity|].
  change (String c (s ++ "")%string = String c s). by rewrite IH.
Qed.

Lemma at_eol_true s :
  Re.at_eol s = true <-> s = "" \/ s = String Re.newline "".
Proof.
  destruct s as [|c [|c' s]]; simpl.
  - split; auto.
  - rewrite Ascii.eqb_eq. split; [intros ->; auto|].
    intros [?|[=]]; [discriminate|done].
  - split; [discriminate|]. intros [?|?]; discriminate.
Qed.

(** What [valid_task_name] accepts: one or more characters of the class,
    optionally followed by one newline. *)
Lemma valid_task_name_true ua ud s :
  valid_task_name ua ud s = true <->
  exists body,
    body <> "" /\
    string_forallb
      (Re.in_class ua ud
         [Re.cls_w; Re.cls_d; Re.cls_lit Re.dot; Re.cls_lit Re.underscore])
      body = true /\
    (s = body \/ s = (body ++ String Re.newline "")%string).
Proof.
  unfold valid_task_name, Re.re_match, _VALID_TASK_NAME_REGEX. simpl.
  rewrite plus_greedy_true. split.
  - intros (body & rest & -> & Hne & Hall & Hk).
    rewrite andb_true_r in Hk. apply at_eol_true in Hk as [->| ->].
    + exists body. split_and!; [done..|]. left. apply append_empty_r.
    + exists body. auto.
  - intros (body & Hne & Hall & [->| ->]).
    + exists body, "". split_and!; [|done..]. symmetry. apply append_empty_r.
    + exists body, (String Re.newline ""). done.
Qed.

(** On the ASCII characters the class is the alphabet [[A-Za-z0-9_.]]. *)
Lemma in_class_ascii ua ud c :
  (Re.code c < 128)%N ->
  Re.in_class ua ud
    [Re.cls_w; Re.cls_d; Re.cls_lit Re.dot; Re.cls_lit Re.underscore] c
  = plain_name_char c.
Proof.
  intros Hc. unfold Re.in_class, plain_name_char. simpl.
  unfold Re.is_w, Re.is_d. apply N.ltb_lt in Hc. rewrite Hc.
  destruct (Re.ascii_letter c), (Re.ascii_digit c),
    (Ascii.eqb c Re.underscore), (Ascii.eqb c Re.dot); reflexivity.
Qed.

(** C6. The name check of the [Task] constructor accepts the name made of
    the letter a followed by a newline, although the newline is not a
    letter, a digit, an underscore or a dot: [$] also matches just before a
    final newline.  The check therefore does not accept exactly the
    non-empty strings over [[A-Za-z0-9_.]]. *)
Theorem C6_trailing_newline_accepted :
  forall ua ud (a : TaskArgs) (w : World),
    plain_name_char Re.newline = false /\
    valid_task_name ua ud (String "a" (String Re.newline "")) = true /\
    (str_contains ":" (arg_tfds_name a) = true ->
     exists t w',
       Task_init ua ud (String "a" (String Re.newline "")) a w = (Ok t, w') /\
       task_name t = String "a" (String Re.newline "")).
Proof.
  intros ua ud a w. split; [reflexivity|]. split; [reflexivity|].
  intros Hcolon. unfold Task_init.
  change (valid_task_name ua ud (String "a" (String Re.newline ""))) with true.
  simpl. rewrite Hcolon. simpl.
  unfold bind.
  destruct (LazyTfdsLoader_call (arg_tfds_name a) (arg_tfds_data_dir a) w)
    as [[l|e] w'] eqn:Hcall.
  - eexists _, _. split; reflexivity.
  - exfalso. revert Hcall. unfold LazyTfdsLoader_call, LazyTfdsLoader__new__,
      LazyTfdsLoader__init__, store, object__new__, bind, gets, modify, ret, raise.
    simpl. destruct (_MEMOIZED_INSTANCES w !! _) eqn:Hm; simpl.
    + rewrite Hm. discriminate.
    + rewrite lookup_insert_eq. discriminate.
Qed.

(* ===================================================================== *)
(** ** [sorted(set(...))] *)
(* ===================================================================== *)

Lemma elem_of_sorted_set (l : list string) (x : string) :
  x ∈ sorted_set l <-> x ∈ l.
Proof.
  unfold sorted_set. rewrite merge_sort_Permutation, elem_of_elements.
  apply elem_of_list_to_set.
Qed.

Lemma sorted_set_NoDup (l : list string) : NoDup (sorted_set l).
Proof.
  unfold sorted_set. rewrite merge_sort_Permutation. apply NoDup_elements.
Qed.

Lemma sorted_set_StronglySorted (l : list string) :
  StronglySorted String.le (sorted_set l).
Proof. apply StronglySorted_merge_sort; apply _. Qed.

(** The result depends on the set of elements only. *)
Lemma sorted_set_ext (l1 l2 : list string) :
  (forall x, x ∈ l1 <-> x ∈ l2) <-> sorted_set l1 = sorted_set l2.
Proof.
  split.
  - intros H. unfold sorted_set. f_equal. f_equal.
    apply set_eq. intros x. rewrite !elem_of_list_to_set. apply H.
  - intros H x. rewrite <- (elem_of_sorted_set l1), <- (elem_of_sorted_set l2).
    by rewrite H.
Qed.

Lemma sorted_set_idemp (l : list string) :
  sorted_set (sorted_set l) = sorted_set l.
Proof. apply sorted_set_ext. intros x. apply elem_of_sorted_set. Qed.

(* ===================================================================== *)
(** ** [LazyTfdsLoader] *)
(* ===================================================================== *)

(** What a construction leaves in the world: the key is memoised, the
    memoised object carries the attributes [__init__] sets, the entries that
    were memoised before are kept, and the registries are untouched. *)
Lemma LazyTfdsLoader_call_spec name data_dir w :
  exists l w',
    LazyTfdsLoader_call name data_dir w = (Ok l, w') /\
    _MEMOIZED_INSTANCES w' !! (name, data_dir) = Some l /\
    heap w' !! l = Some (Some (mkLazyTfdsLoader name data_dir None)) /\
    (forall k l0, _MEMOIZED_INSTANCES w !! k = Some l0 ->
                  _MEMOIZED_INSTANCES w' !! k = Some l0) /\
    TaskRegistry_REGISTRY w' = TaskRegistry_REGISTRY w /\
    MixtureRegistry_REGISTRY w' = MixtureRegistry_REGISTRY w.
Proof.
  unfold LazyTfdsLoader_call, LazyTfdsLoader__new__, LazyTfdsLoader__init__,
    store, object__new__, bind, gets, modify, ret, raise. simpl.
  destruct (_MEMOIZED_INSTANCES w !! (name, data_dir)) as [l|] eqn:Hm; simpl.
  - rewrite Hm. eexists _, _. split; [reflexivity|]. simpl.
    rewrite lookup_insert_eq. done.
  - rewrite lookup_insert_eq. eexists _, _. split; [reflexivity|]. simpl.
    rewrite !lookup_insert_eq. split_and!; try done.
    intros k l0 Hk. rewrite lookup_insert_ne; [done|]. congruence.
Qed.

Lemma construct_all_memo keys w k l :
  _MEMOIZED_INSTANCES w !! k = Some l ->
  _MEMOIZED_INSTANCES (snd (construct_all keys w)) !! k = Some l.
Proof.
  revert w. induction keys as [|[name dd] keys IH]; intros w Hk; [done|].
  simpl. unfold bind.
  destruct (LazyTfdsLoader_call_spec name dd w)
    as (l' & w' & -> & _ & _ & Hkeep & _).
  apply IH, Hkeep, Hk.
Qed.

(** C8. Two constructions of a [LazyTfdsLoader] with the same name and data
    directory return the same object, whatever other loaders were
    constructed in between; so an attribute written through one reference is
    read through the other, and the builder cached by the [builder] property
    through one reference is the one the other reference returns, without
    building it again. *)
Theorem C8_same_key_same_instance :
  forall name data_dir others w r1 w1 r w2 r2 w3,
    LazyTfdsLoader_call name data_dir w = (r1, w1) ->
    construct_all others w1 = (r, w2) ->
    LazyTfdsLoader_call name data_dir w2 = (r2, w3) ->
    exists l,
      r1 = Ok l /\ r2 = Ok l /\
      (forall o w4, store l o w3 = (Ok tt, w4) -> load l w4 = (Ok o, w4)) /\
      (forall rb w4,
          LazyTfdsLoader_builder l w3 = (rb, w4) ->
          exists b, rb = Ok b /\ LazyTfdsLoader_builder l w4 = (Ok b, w4)).
Proof.
  intros name data_dir others w r1 w1 r w2 r2 w3 H1 Hmid H2.
  destruct (LazyTfdsLoader_call_spec name data_dir w)
    as (l & w1' & E1 & Hmemo1 & _).
  rewrite E1 in H1.
  assert (r1 = Ok l) as -> by congruence.
  assert (w1 = w1') as -> by congruence. clear H1.
  pose proof (construct_all_memo others w1' _ _ Hmemo1) as Hmemo2.
  rewrite Hmid in Hmemo2. simpl in Hmemo2.
  destruct (LazyTfdsLoader_call_spec name data_dir w2)
    as (l' & w3' & E2 & Hmemo3 & Hheap & Hkeep & _).
  rewrite E2 in H2.
  assert (r2 = Ok l') as -> by congruence.
  assert (w3 = w3') as -> by congruence. clear H2.
  apply Hkeep in Hmemo2. rewrite Hmemo3 in Hmemo2.
  assert (l' = l) as -> by congruence.
  exists l. split_and!; [done..| |].
  - intros o w4 Hst. unfold store, modify in Hst. injection Hst as <-.
    unfold load. simpl. by rewrite lookup_insert_eq.
  - intros rb w4. unfold LazyTfdsLoader_builder, LazyTfdsLoader_name,
      LazyTfdsLoader_data_dir, load, store, bind, gets, modify, ret.
    repeat (rewrite Hheap; simpl).
    destruct (str_truthy (_TFDS_DATA_DIR_OVERRIDE w3')); simpl;
      intros [= <- <-]; eexists; (split; [reflexivity|]); simpl;
      rewrite lookup_insert_eq; reflexivity.
Qed.

(* ===================================================================== *)
(** ** [Task.__init__] *)
(* ===================================================================== *)

(** When the constructor returns and what it returns. *)
Lemma Task_init_ok ua ud name a w :
  valid_task_name ua ud name = true ->
  str_contains ":" (arg_tfds_name a) = true ->
  exists t w',
    Task_init ua ud name a w = (Ok t, w') /\
    task_name t = name /\
    _sentencepiece_model_path t = arg_sentencepiece_model_path a /\
    _output_features t =
      sorted_set (list_or (arg_output_features a) _DEFAULT_FEATURE_KEYS) /\
    TaskRegistry_REGISTRY w' = TaskRegistry_REGISTRY w /\
    MixtureRegistry_REGISTRY w' = MixtureRegistry_REGISTRY w.
Proof.
  intros Hname Hcolon. unfold Task_init. rewrite Hname, Hcolon. simpl.
  unfold bind.
  destruct (LazyTfdsLoader_call_spec (arg_tfds_name a) (arg_tfds_data_dir a) w)
    as (l & w' & -> & _ & _ & _ & Ht & Hm).
  eexists _, _. split; [reflexivity|]. done.
Qed.

Lemma Task_init_inv ua ud name a w t w' :
  Task_init ua ud name a w = (Ok t, w') ->
  valid_task_name ua ud name = true /\
  str_contains ":" (arg_tfds_name a) = true.
Proof.
  unfold Task_init.
  destruct (valid_task_name ua ud name); [|discriminate].
  destruct (str_contains ":" (arg_tfds_name a)); [done|discriminate].
Qed.

(** C9. A [Task] that the constructor returns has its output features
    sorted and without repetition, and they are the features that were
    passed; when [None] or the empty list is passed they are
    [["inputs"; "targets"]]. *)
Theorem C9_output_features_normalised :
  forall ua ud name (a : TaskArgs) w,
    valid_task_name ua ud name = true ->
    str_contains ":" (arg_tfds_name a) = true ->
    exists t w',
      Task_init ua ud name a w = (Ok t, w') /\
      StronglySorted String.le (_output_features t) /\
      NoDup (_output_features t) /\
      (forall x, x ∈ _output_features t <->
                 x ∈ list_or (arg_output_features a) _DEFAULT_FEATURE_KEYS) /\
      (arg_output_features a = None \/ arg_output_features a = Some [] ->
       _output_features t = ["inputs"; "targets"]).
Proof.
  intros ua ud name a w Hname Hcolon.
  destruct (Task_init_ok ua ud name a w Hname Hcolon)
    as (t & w' & E & _ & _ & Hout & _).
  exists t, w'. rewrite Hout. split_and!.
  - done.
  - apply sorted_set_StronglySorted.
  - apply sorted_set_NoDup.
  - intros x. apply elem_of_sorted_set.
  - intros [-> | ->]; reflexivity.
Qed.

Lemma C9_witness :
  exists t w',
    Task_init ascii_only ascii_only "cola" cola_args empty_world = (Ok t, w') /\
    StronglySorted String.le (_output_features t) /\
    NoDup (_output_features t) /\
    (forall x, x ∈ _output_features t <->
               x ∈ list_or (arg_output_features cola_args)
                           _DEFAULT_FEATURE_KEYS) /\
    (arg_output_features cola_args = None \/
     arg_output_features cola_args = Some [] ->
     _output_features t = ["inputs"; "targets"]).
Proof.
  apply (C9_output_features_normalised ascii_only ascii_only "cola" cola_args
                                       empty_world); reflexivity.
Defined.

Lemma C8_witness :
  exists l,
    fst (LazyTfdsLoader_call "glue/cola:1.0.0" None empty_world) = Ok l /\
    fst (LazyTfdsLoader_call "glue/cola:1.0.0" None world_after_rte) = Ok l /\
    (forall o w4,
        store l o (snd (LazyTfdsLoader_call "glue/cola:1.0.0" None
                                            world_after_rte)) = (Ok tt, w4) ->
        load l w4 = (Ok o, w4)) /\
    (forall rb w4,
        LazyTfdsLoader_builder
          l (snd (LazyTfdsLoader_call "glue/cola:1.0.0" None world_after_rte))
        = (rb, w4) ->
        exists b, rb = Ok b /\ LazyTfdsLoader_builder l w4 = (Ok b, w4)).
Proof.
  apply (C8_same_key_same_instance
           "glue/cola:1.0.0" None [("glue/rte:1.0.0", None)] empty_world
           _ world_after_cola (Ok tt) world_after_rte _ _);
    [apply surjective_pairing | reflexivity | apply surjective_pairing].
Defined.

(* ===================================================================== *)
(** ** Provider registries *)
(* ===================================================================== *)

Section RegistryFacts.
Context {P : Type} (cls : DatasetProviderRegistry P).

Lemma add_duplicate name provider_cls w :
  is_Some (_REGISTRY w !! name) ->
  DatasetProviderRegistry_add cls name provider_cls w
  = (Raise (DuplicateRegistration name), w).
Proof.
  intros Hin. unfold DatasetProviderRegistry_add, bind, gets, raise. simpl.
  by rewrite bool_decide_eq_true_2.
Qed.

Lemma add_fresh name provider_cls w :
  _REGISTRY w !! name = None ->
  DatasetProviderRegistry_add cls name provider_cls w =
  match provider_cls w with
  | (Ok provider, w1) =>
      match _PROVIDER_TYPE provider with
      | Some p => (Ok tt, set_REGISTRY (<[name := p]> (_REGISTRY w1)) w1)
      | None => (Raise InvalidProviderType, w1)
      end
  | (Raise e, w1) => (Raise e, w1)
  end.
Proof.
  intros Hout. unfold DatasetProviderRegistry_add, bind, gets, raise. simpl.
  rewrite bool_decide_eq_false_2 by (rewrite Hout; by inversion 1).
  destruct (provider_cls w) as [[provider|e] w1]; [|done].
  by destruct (_PROVIDER_TYPE provider).
Qed.

Lemma add_ok_inv name provider_cls w w' :
  DatasetProviderRegistry_add cls name provider_cls w = (Ok tt, w') ->
  _REGISTRY w !! name = None /\
  exists provider p w1,
    provider_cls w = (Ok provider, w1) /\
    _PROVIDER_TYPE provider = Some p /\
    w' = set_REGISTRY (<[name := p]> (_REGISTRY w1)) w1.
Proof.
  intros Hadd. destruct (_REGISTRY w !! name) as [p0|] eqn:Hreg.
  - rewrite add_duplicate in Hadd by (rewrite Hreg; eauto). discriminate.
  - split; [done|]. rewrite add_fresh in Hadd by done.
    destruct (provider_cls w) as [[provider|e] w1]; [|discriminate].
    destruct (_PROVIDER_TYPE provider) as [p|] eqn:Hp; [|discriminate].
    exists provider, p, w1. split_and!; [done..|]. congruence.
Qed.

Lemma get_registered name p w :
  _REGISTRY w !! name = Some p ->
  DatasetProviderRegistry_get cls name w = (Ok p, w).
Proof.
  intros Hreg. unfold DatasetProviderRegistry_get, bind, gets, ret. simpl.
  by rewrite Hreg.
Qed.

Lemma get_absent name w :
  _REGISTRY w !! name = None ->
  DatasetProviderRegistry_get cls name w = (Raise (NotFound name), w).
Proof.
  intros Hreg. unfold DatasetProviderRegistry_get, bind, gets, raise. simpl.
  by rewrite Hreg.
Qed.
End RegistryFacts.

(** C7. For every registry class and every provider class: [add] with a
    name that is already registered raises [DuplicateRegistration] and
    leaves the whole world as it was, so the provider class was not called;
    after an [add] that returned, [get] returns the provider that the
    provider class constructed; [get] with a name that is not registered
    raises [NotFound]; and the [Task] that [get] returns after a
    [TaskRegistry.add] that returned has the registration key for name. *)
Theorem C7_registry_add_get :
  forall (P : Type) (cls : DatasetProviderRegistry P) (name : string)
         (provider_cls : M Object) (w : World),
    (is_Some (_REGISTRY w !! name) ->
     DatasetProviderRegistry_add cls name provider_cls w
     = (Raise (DuplicateRegistration name), w)) /\
    (forall w',
        DatasetProviderRegistry_add cls name provider_cls w = (Ok tt, w') ->
        exists provider p w1,
          provider_cls w = (Ok provider, w1) /\
          _PROVIDER_TYPE provider = Some p /\
          DatasetProviderRegistry_get cls name w' = (Ok p, w')) /\
    (_REGISTRY w !! name = None ->
     DatasetProviderRegistry_get cls name w = (Raise (NotFound name), w)) /\
    (forall ua ud kwargs,
        (is_Some (TaskRegistry_REGISTRY w !! name) ->
         TaskRegistry_add ua ud name kwargs w
         = (Raise (DuplicateRegistration name), w)) /\
        (forall w',
            TaskRegistry_add ua ud name kwargs w = (Ok tt, w') ->
            exists t,
              DatasetProviderRegistry_get TaskRegistry name w' = (Ok t, w') /\
              task_name t = name)).
Proof.
  intros P cls name provider_cls w. split_and!.
  - apply add_duplicate.
  - intros w' Hadd.
    apply add_ok_inv in Hadd as (_ & provider & p & w1 & Hc & Hp & ->).
    exists provider, p, w1. split_and!; [done..|].
    apply get_registered. rewrite REGISTRY_set_get. apply lookup_insert_eq.
  - apply get_absent.
  - intros ua ud kwargs. split.
    + apply (add_duplicate TaskRegistry).
    + intros w' Hadd. unfold TaskRegistry_add in Hadd.
      apply add_ok_inv in Hadd as (_ & provider & t & w1 & Hc & Hp & ->).
      exists t. split.
      * apply get_registered. simpl. apply lookup_insert_eq.
      * unfold bind in Hc.
        destruct (Task_init ua ud name kwargs w) as [[t0|e] w0] eqn:Hinit;
          [|discriminate].
        unfold ret in Hc. assert (provider = TaskObject t0) as -> by congruence.
        simpl in Hp. assert (t0 = t) as -> by congruence.
        destruct (Task_init_inv _ _ _ _ _ _ _ Hinit) as [Hn Hcol].
        destruct (Task_init_ok ua ud name kwargs w Hn Hcol)
          as (t1 & w1' & E & Hname & _).
        rewrite E in Hinit. congruence.
Qed.

Lemma C7_witness :
  DatasetProviderRegistry_add TaskRegistry "cola" cola_provider world_with_cola
  = (Raise (DuplicateRegistration "cola"), world_with_cola) /\
  (exists provider p w1,
      cola_provider empty_world = (Ok provider, w1) /\
      @_PROVIDER_TYPE Task TaskRegistry provider = Some p /\
      DatasetProviderRegistry_get TaskRegistry "cola" world_with_cola
      = (Ok p, world_with_cola)) /\
  DatasetProviderRegistry_get TaskRegistry "rte" world_with_cola
  = (Raise (NotFound "rte"), world_with_cola) /\
  (exists t,
      DatasetProviderRegistry_get TaskRegistry "cola" world_with_cola
      = (Ok t, world_with_cola) /\
      task_name t = "cola").
Proof.
  split_and!.
  - apply (proj1 (C7_registry_add_get Task TaskRegistry "cola" cola_provider
                                      world_with_cola)).
    vm_compute. eexists. reflexivity.
  - apply (proj1 (proj2 (C7_registry_add_get Task TaskRegistry "cola"
                                             cola_provider empty_world))).
    vm_compute. reflexivity.
  - apply (proj1 (proj2 (proj2 (C7_registry_add_get
                                  Task TaskRegistry "rte" cola_provider
                                  world_with_cola)))).
    vm_compute. reflexivity.
  - apply (proj2 (proj2 (proj2 (proj2
             (C7_registry_add_get Task TaskRegistry "cola" cola_provider
                                  empty_world)))
             ascii_only ascii_only cola_args)).
    vm_compute. reflexivity.
Defined.

(* ===================================================================== *)
(** ** [Mixture.__init__] *)
(* ===================================================================== *)

(** [len(set(...)) == 1] says that the list is not empty and that all its
    elements agree. *)
Lemma count_distinct_nil {A B} `{Countable B} (f : A -> B) :
  count_distinct f [] = 0.
Proof. unfold count_distinct. cbn [map]. by rewrite list_to_set_nil, size_empty. Qed.

Lemma count_distinct_1 {A B} `{Countable B} (f : A -> B) (l : list A) :
  count_distinct f l = 1 <->
  l <> [] /\ forall x y, x ∈ l -> y ∈ l -> f x = f y.
Proof.
  unfold count_distinct. split.
  - intros Hsize. split.
    + intros ->. cbn [map] in Hsize.
      rewrite list_to_set_nil, size_empty in Hsize. discriminate.
    + intros x y Hx Hy.
      apply (size_singleton_inv (list_to_set (map f l) : gset B)); [done|..];
        apply elem_of_list_to_set, list_elem_of_fmap; eauto.
  - intros [Hne Hall]. destruct l as [|a l]; [done|].
    assert ((list_to_set (map f (a :: l)) : gset B) = {[ f a ]}) as ->.
    { apply set_eq. intros b.
      rewrite elem_of_list_to_set, elem_of_singleton, list_elem_of_fmap.
      split.
      - intros (x & -> & Hx). apply Hall; [done|]. apply list_elem_of_here.
      - intros ->. exists a. split; [done|]. apply list_elem_of_here. }
    by rewrite size_singleton.
Qed.

(** The loop resolves the entries in order and changes nothing in the
    world. *)
Lemma Mixture_init_loop_ok tasks default_rate self w ts :
  Forall2 (entry_resolves default_rate w) tasks ts ->
  exists m,
    Mixture_init_loop tasks default_rate self w = (Ok m, w) /\
    _tasks m = _tasks self ++ ts.
Proof.
  intros Hres. revert self.
  induction Hres as [|e t tasks ts [[r Hr] Ht] _ IH]; intros self.
  - exists self. simpl. by rewrite app_nil_r.
  - simpl. unfold bind.
    assert ((match e with
             | TaskName task_name =>
                 match default_rate with
                 | Some rate => ret (task_name, rate)
                 | None => raise MissingRate
                 end
             | TaskWithRate task_name rate => ret (task_name, rate)
             end) w = (Ok (entry_name e, r), w)) as ->.
    { destruct e as [n|n r0]; simpl in *.
      - by rewrite Hr.
      - by injection Hr as ->. }
    simpl. rewrite (get_registered TaskRegistry _ t) by done.
    edestruct IH as (m & -> & Hm). exists m. split; [done|].
    rewrite Hm. simpl. by rewrite <- app_assoc.
Qed.

Lemma Mixture_init_loop_inv tasks default_rate self w m w' :
  Mixture_init_loop tasks default_rate self w = (Ok m, w') ->
  w' = w /\
  exists ts,
    Forall2 (entry_resolves default_rate w) tasks ts /\
    _tasks m = _tasks self ++ ts.
Proof.
  revert self. induction tasks as [|e tasks IH]; intros self; simpl.
  - intros [= <- <-]. split; [done|]. exists []. split; [constructor|].
    by rewrite app_nil_r.
  - unfold bind.
    destruct (entry_rate default_rate e) as [r|] eqn:Hr.
    2:{ destruct e as [n|n r0]; simpl in Hr; [|discriminate].
        rewrite Hr. discriminate. }
    assert ((match e with
             | TaskName task_name =>
                 match default_rate with
                 | Some rate => ret (task_name, rate)
                 | None => raise MissingRate
                 end
             | TaskWithRate task_name rate => ret (task_name, rate)
             end) w = (Ok (entry_name e, r), w)) as ->.
    { destruct e as [n|n r0]; simpl in *.
      - by rewrite Hr.
      - by injection Hr as ->. }
    simpl.
    destruct (TaskRegistry_REGISTRY w !! entry_name e) as [t|] eqn:Ht.
    2:{ rewrite (get_absent TaskRegistry) by done. discriminate. }
    rewrite (get_registered TaskRegistry _ t) by done.
    intros Hloop. apply IH in Hloop as (-> & ts & Hres & Hm).
    split; [done|]. exists (t :: ts). split.
    + constructor; [|done]. split; [by rewrite Hr|done].
    + rewrite Hm. simpl. by rewrite <- app_assoc.
Qed.

(** For tasks whose features are as [Task.__init__] leaves them, equal
    feature lists and equal feature sets are the same thing. *)
Lemma normalised_features_eq (t1 t2 : Task) :
  features_normalised t1 -> features_normalised t2 ->
  _output_features t1 = _output_features t2 <-> same_feature_set t1 t2.
Proof.
  unfold features_normalised, same_feature_set. intros H1 H2. split.
  - by intros ->.
  - intros Hset. rewrite H1, H2. by apply sorted_set_ext.
Qed.

Lemma Task_init_normalised ua ud name a w t w' :
  Task_init ua ud name a w = (Ok t, w') -> features_normalised t.
Proof.
  intros Hinit. destruct (Task_init_inv _ _ _ _ _ _ _ Hinit) as [Hn Hc].
  destruct (Task_init_ok ua ud name a w Hn Hc) as (t1 & w1 & E & _ & _ & Hf & _).
  assert (t1 = t) as -> by congruence.
  unfold features_normalised. rewrite Hf. symmetry. apply sorted_set_idemp.
Qed.

(** C4. For a non-empty list of entries that name registered tasks and have
    a rate, the constructor returns the mixture of these tasks when they all
    have the same set of output features and the same tokenizer path, and
    raises [IncompatibleMixtureError] when the sets of output features
    differ, or when they agree and the tokenizer paths differ.  The tasks
    are compared by the sets of their output features: the order and the
    repetitions with which the features were given to [Task.__init__] play
    no part. *)
Theorem C4_mixture_compatibility :
  forall (tasks : list MixtureEntry) (default_rate : option Rate)
         (w : World) (ts : list Task),
    tasks <> [] ->
    Forall2 (entry_resolves default_rate w) tasks ts ->
    Forall features_normalised ts ->
    (((forall t1 t2, t1 ∈ ts -> t2 ∈ ts -> same_feature_set t1 t2) /\
      (forall t1 t2, t1 ∈ ts -> t2 ∈ ts ->
                     _sentencepiece_model_path t1 = _sentencepiece_model_path t2)) ->
     exists m, Mixture_init tasks default_rate w = (Ok m, w) /\ _tasks m = ts) /\
    (~ (forall t1 t2, t1 ∈ ts -> t2 ∈ ts -> same_feature_set t1 t2) ->
     Mixture_init tasks default_rate w
     = (Raise (IncompatibleMixtureError OutputFeaturesDiffer), w)) /\
    ((forall t1 t2, t1 ∈ ts -> t2 ∈ ts -> same_feature_set t1 t2) ->
     ~ (forall t1 t2, t1 ∈ ts -> t2 ∈ ts ->
                      _sentencepiece_model_path t1 = _sentencepiece_model_path t2) ->
     Mixture_init tasks default_rate w
     = (Raise (IncompatibleMixtureError SentencepieceModelPathDiffer), w)) /\
    (forall ua ud n1 a1 w1 t1 w1' n2 a2 w2 t2 w2',
        Task_init ua ud n1 a1 w1 = (Ok t1, w1') ->
        Task_init ua ud n2 a2 w2 = (Ok t2, w2') ->
        features_normalised t1 /\ features_normalised t2 /\
        (same_feature_set t1 t2 <->
         forall x, x ∈ list_or (arg_output_features a1) _DEFAULT_FEATURE_KEYS <->
                   x ∈ list_or (arg_output_features a2) _DEFAULT_FEATURE_KEYS)).
Proof.
  intros tasks default_rate w ts Hne Hres Hnorm.
  assert (ts <> []) as Hts.
  { intros ->. apply Forall2_nil_inv_r in Hres. done. }
  destruct (Mixture_init_loop_ok tasks default_rate
              {| _tasks := []; _task_to_rate := ∅ |} w ts Hres)
    as (m & Hloop & Hm).
  simpl in Hm.
  assert (forall t1 t2, t1 ∈ ts -> t2 ∈ ts ->
            _output_features t1 = _output_features t2 <-> same_feature_set t1 t2)
    as Hfeat.
  { intros t1 t2 H1 H2. rewrite Forall_forall in Hnorm.
    apply normalised_features_eq; auto. }
  unfold Mixture_init, bind. rewrite Hloop, Hm. split_and!.
  - intros [Hsame Hpath].
    assert (count_distinct _output_features ts = 1) as ->.
    { apply count_distinct_1. split; [done|]. intros x y Hx Hy.
      apply Hfeat; auto. }
    assert (count_distinct _sentencepiece_model_path ts = 1) as ->.
    { apply count_distinct_1. split; [done|]. auto. }
    simpl. exists m. done.
  - intros Hdiff.
    destruct (Nat.eqb (count_distinct _output_features ts) 1) eqn:Hc; [|done].
    exfalso. apply Hdiff. apply Nat.eqb_eq, count_distinct_1 in Hc as [_ Hc].
    intros t1 t2 H1 H2. apply Hfeat; auto.
  - intros Hsame Hdiff.
    assert (count_distinct _output_features ts = 1) as ->.
    { apply count_distinct_1. split; [done|]. intros x y Hx Hy.
      apply Hfeat; auto. }
    simpl.
    destruct (Nat.eqb (count_distinct _sentencepiece_model_path ts) 1) eqn:Hc;
      [|done].
    exfalso. apply Hdiff. by apply Nat.eqb_eq, count_distinct_1 in Hc as [_ Hc].
  - intros ua ud n1 a1 w1 t1 w1' n2 a2 w2 t2 w2' H1 H2.
    split; [by eapply Task_init_normalised|].
    split; [by eapply Task_init_normalised|].
    destruct (Task_init_inv _ _ _ _ _ _ _ H1) as [Hn1 Hc1].
    destruct (Task_init_inv _ _ _ _ _ _ _ H2) as [Hn2 Hc2].
    destruct (Task_init_ok ua ud n1 a1 w1 Hn1 Hc1)
      as (t1' & ? & E1 & _ & _ & Hf1 & _).
    destruct (Task_init_ok ua ud n2 a2 w2 Hn2 Hc2)
      as (t2' & ? & E2 & _ & _ & Hf2 & _).
    assert (t1' = t1) as -> by congruence.
    assert (t2' = t2) as -> by congruence.
    unfold same_feature_set. rewrite Hf1, Hf2.
    split; intros H y; specialize (H y); rewrite !elem_of_sorted_set in *; done.
Qed.

(** C10. The constructor raises on the empty list of tasks, whatever the
    default rate; so a mixture that the constructor returns was given at
    least one entry, has at least one task, and its accessors, which read
    the first task, return. *)
Theorem C10_mixture_not_empty :
  forall (default_rate : option Rate) (w : World),
    Mixture_init [] default_rate w
    = (Raise (IncompatibleMixtureError OutputFeaturesDiffer), w) /\
    (forall tasks m w',
        Mixture_init tasks default_rate w = (Ok m, w') ->
        tasks <> [] /\ _tasks m <> [] /\
        length (_tasks m) = length tasks /\
        exists t,
          Mixture_first_task m = Ok t /\
          Mixture_output_features m = Ok (_output_features t) /\
          Mixture_sentencepiece_model_path m
          = Ok (_sentencepiece_model_path t) /\
          Mixture_get_vocabulary m = Ok (Task_get_vocabulary t)).
Proof.
  intros default_rate w. split; [reflexivity|].
  intros tasks m w'. unfold Mixture_init, bind.
  destruct (Mixture_init_loop tasks default_rate _ w) as [[m0|e] w0] eqn:Hloop;
    [|discriminate].
  destruct (Nat.eqb (count_distinct _output_features (_tasks m0)) 1) eqn:Hc;
    [|discriminate].
  simpl.
  destruct (Nat.eqb (count_distinct _sentencepiece_model_path (_tasks m0)) 1);
    [|discriminate].
  simpl. unfold ret. intros Heq. assert (m0 = m) as -> by congruence.
  apply Nat.eqb_eq, count_distinct_1 in Hc as [Hne _].
  apply Mixture_init_loop_inv in Hloop as (_ & ts & Hres & Hm). simpl in Hm.
  assert (length (_tasks m) = length tasks) as Hlen.
  { rewrite Hm. symmetry. by eapply Forall2_length. }
  split_and!; [|done..|].
  - intros ->. destruct (_tasks m); [done|discriminate].
  - unfold Mixture_output_features, Mixture_sentencepiece_model_path,
      Mixture_get_vocabulary, Mixture_first_task.
    destruct (_tasks m) as [|t ?]; [done|]. exists t. done.
Qed.

(* ===================================================================== *)
(** ** Mapping a function that may raise *)
(* ===================================================================== *)

Lemma res_mapM_Ok {A B} (f : A -> Result B) l l' :
  res_mapM f l = Ok l' <-> Forall2 (fun a b => f a = Ok b) l l'.
Proof.
  revert l'. induction l as [|a l IH]; intros l'; simpl.
  - split; [intros [= <-]; constructor|]. intros H. by inversion H.
  - destruct (f a) as [b|e] eqn:Hfa; simpl.
    + destruct (res_mapM f l) as [bs|e] eqn:Hl; simpl.
      * split.
        -- intros [= <-]. constructor; [done|]. by apply IH.
        -- intros H. inversion H as [|? b' ? bs' Hb Hbs]; subst.
           apply IH in Hbs. congruence.
      * split; [discriminate|]. intros H.
        inversion H as [|? b' ? bs' Hb Hbs]; subst.
        apply IH in Hbs. discriminate.
    + split; [discriminate|]. intros H. inversion H; congruence.
Qed.

(** When only exceptions of one kind can be raised on the elements, and one
    element raises, the whole raises an exception of that kind. *)
Lemma res_mapM_Raise {A B} (f : A -> Result B) (Q : Exception -> Prop) l :
  (forall a e, a ∈ l -> f a = Raise e -> Q e) ->
  (exists a e, a ∈ l /\ f a = Raise e) ->
  exists e, res_mapM f l = Raise e /\ Q e.
Proof.
  induction l as [|a l IH]; intros Hall (a0 & e0 & Hin & Hraise).
  - by apply elem_of_nil in Hin.
  - simpl. destruct (f a) as [b|e] eqn:Hfa; simpl.
    + destruct IH as (e & -> & He).
      * intros a' e' Ha'. apply Hall. by apply list_elem_of_further.
      * apply elem_of_cons in Hin as [->|Hin]; [congruence|]. eauto.
      * exists e. done.
    + exists e. split; [done|]. eapply Hall; [apply list_elem_of_here|done].
Qed.

Lemma Forall2_iff {A B} (R1 R2 : A -> B -> Prop) l l' :
  (forall a b, R1 a b <-> R2 a b) -> Forall2 R1 l l' <-> Forall2 R2 l l'.
Proof.
  intros H. split; intros HF; (eapply Forall2_impl; [exact HF|]);
    intros a b; apply H.
Qed.

Lemma dict_map_items_Ok {V W} (f : string -> V -> Result W) d d' :
  dict_map_items f d = Ok d' <->
  Forall2 (fun kv kw => fst kw = fst kv /\ f (fst kv) (snd kv) = Ok (snd kw))
          d d'.
Proof.
  unfold dict_map_items. etrans; [apply res_mapM_Ok|]. apply Forall2_iff.
  intros [k v] [k' w]. simpl. destruct (f k v) as [w0|e]; simpl.
  - split; [intros [= -> ->]; done|]. intros [-> [= ->]]. done.
  - split; [discriminate|]. intros [_ ?]. discriminate.
Qed.


(* ===================================================================== *)
(** ** [Task.preprocess_tokens] *)
(* ===================================================================== *)

Lemma _ensure_no_eos_Ok self label feat v v' :
  _ensure_no_eos self label feat v = Ok v' ->
  v' = v /\
  (feat ∈ _output_features self ->
   exists shape vals, v = Int64Tensor shape vals /\ 1%Z ∉ vals).
Proof.
  unfold _ensure_no_eos. case_bool_decide as Hout.
  - intros [= <-]. split; [done|]. intros Hin. done.
  - unfold assert_none_equal_1.
    destruct v as [sh vals|sh vals|sh vals]; simpl; try discriminate.
    destruct (existsb (Z.eqb 1) vals) eqn:Hex; simpl; [discriminate|].
    intros [= <-]. split; [done|]. intros _. exists sh, vals. split; [done|].
    intros Hin. apply not_true_iff_false in Hex. apply Hex.
    apply existsb_exists. exists 1%Z. split; [|apply Z.eqb_refl].
    by apply list_elem_of_In.
Qed.

Lemma _ensure_no_eos_Raise self label feat v e :
  _ensure_no_eos self label feat v = Raise e ->
  feat ∈ _output_features self /\
  (e = UnexpectedEosError feat label \/
   (e = TypeError /\ tensor_dtype v <> tf_int64)).
Proof.
  unfold _ensure_no_eos. case_bool_decide as Hout; [discriminate|].
  assert (feat ∈ _output_features self) as Hin.
  { destruct (decide (feat ∈ _output_features self)); done. }
  unfold assert_none_equal_1.
  destruct v as [sh vals|sh vals|sh vals]; simpl.
  - intros [= <-]. split; [done|]. right. done.
  - intros [= <-]. split; [done|]. right. done.
  - destruct (existsb (Z.eqb 1) vals); simpl; [|discriminate].
    intros [= <-]. split; [done|]. by left.
Qed.

Lemma _ensure_no_eos_eos self label feat shape vals :
  feat ∈ _output_features self -> 1%Z ∈ vals ->
  _ensure_no_eos self label feat (Int64Tensor shape vals)
  = Raise (UnexpectedEosError feat label).
Proof.
  intros Hin H1. unfold _ensure_no_eos.
  rewrite bool_decide_eq_false_2 by (intros Hn; by apply Hn).
  simpl. assert (existsb (Z.eqb 1) vals = true) as ->; [|done].
  apply existsb_exists. exists 1%Z. split; [|apply Z.eqb_refl].
  by apply list_elem_of_In.
Qed.

Lemma slice_to_length {A} (n : Z) (l : list A) :
  (0 <= n)%Z ->
  Z.of_nat (length (slice_to n l)) = Z.min n (Z.of_nat (length l)).
Proof.
  intros Hn. unfold slice_to.
  destruct (n <? 0)%Z eqn:Hneg; [apply Z.ltb_lt in Hneg; lia|].
  rewrite length_take. lia.
Qed.

Lemma take_length_take {A} (n : nat) (l : list A) :
  take (length (take n l)) l = take n l.
Proof.
  rewrite length_take.
  destruct (Nat.min_spec n (length l)) as [[? ->]|[? ->]]; [done|].
  by rewrite !take_ge by lia.
Qed.

Lemma slice_to_prefix {A} (n : Z) (l : list A) :
  slice_to n l = take (length (slice_to n l)) l.
Proof.
  unfold slice_to. destruct (n <? 0)%Z; by rewrite take_length_take.
Qed.

(** What [_trim_and_append_eos] returns, when it returns. *)
Lemma _trim_and_append_eos_int64 self sl feat len d vals :
  feat ∈ _output_features self -> sl !! feat = Some len ->
  _trim_and_append_eos self sl feat (Int64Tensor [d] vals)
  = Ok (Int64Tensor [length (slice_to (len - 1) vals ++ [1%Z])]
                    (slice_to (len - 1) vals ++ [1%Z])).
Proof.
  intros Hin Hlen. unfold _trim_and_append_eos.
  rewrite bool_decide_eq_false_2 by (intros Hn; by apply Hn).
  by rewrite Hlen.
Qed.

Lemma _trim_and_append_eos_other self sl feat v :
  feat ∉ _output_features self ->
  _trim_and_append_eos self sl feat v = Ok v.
Proof.
  intros Hout. unfold _trim_and_append_eos. by rewrite bool_decide_eq_true_2.
Qed.

(** The structure of a call that returns: the token preprocessors returned
    a dataset, whose description gives every output feature the type int64,
    rank 1 and a sequence length, and each element of the result is the
    element of that dataset put through the EOS check and the trimming. *)
Lemma Task_preprocess_tokens_inv self ds sl out :
  Task_preprocess_tokens self ds sl = Ok out ->
  exists mid,
    token_preprocessing_stage self ds sl = Ok mid /\
    Forall (fun ks =>
              fst ks ∈ _output_features self ->
              ts_dtype (snd ks) = tf_int64 /\
              length (ts_shape (snd ks)) = 1 /\
              is_Some (sl !! fst ks))
           (element_spec mid) /\
    dataset_elements out =
      map (fun r =>
             res_bind
               (res_bind r (dict_map_items
                              (_ensure_no_eos self "token preprocessing")))
               (dict_map_items (_trim_and_append_eos self sl)))
          (dataset_elements mid).
Proof.
  unfold Task_preprocess_tokens, token_preprocessing_stage.
  destruct (_preprocess_dataset
              (fun f ds0 => f ds0 sl (Task_get_vocabulary self))
              ds (_token_preprocessor self)) as [mid|e];
    [|discriminate].
  simpl. unfold _validate_dataset.
  destruct (res_mapM
              (check_output_feature (get_output_types mid)
                 (get_output_shapes mid) tf_int64 1 "token preprocessing")
              (_output_features self)) as [u|e]; [|discriminate].
  simpl. unfold Dataset_map.
  destruct (dict_map_items (_ensure_no_eos_traced self) (element_spec mid))
    as [spec1|e] eqn:Hspec1; [|discriminate].
  simpl.
  destruct (dict_map_items (_trim_and_append_eos_traced self sl) spec1)
    as [spec2|e] eqn:Hspec2; [|discriminate].
  simpl. intros [= <-]. exists mid. split; [done|]. simpl.
  split; [|by rewrite map_map].
  apply dict_map_items_Ok in Hspec1. apply dict_map_items_Ok in Hspec2.
  clear -Hspec1 Hspec2. revert spec2 Hspec2.
  induction Hspec1 as [|[k s] [k1 s1] spec spec1 [Hk Hs] _ IH];
    intros spec2 Hspec2; [constructor|].
  inversion Hspec2 as [|? [k2 s2] ? spec2' [Hk2 Hs2] Hrest]; subst.
  simpl in *. subst k1. constructor; [|by eapply IH].
  simpl. intros Hin.
  unfold _ensure_no_eos_traced in Hs.
  rewrite bool_decide_eq_false_2 in Hs by (intros Hn; by apply Hn).
  destruct (decide (ts_dtype s = tf_int64)) as [Hty|]; [|discriminate].
  injection Hs as <-.
  unfold _trim_and_append_eos_traced in Hs2.
  rewrite bool_decide_eq_false_2 in Hs2 by (intros Hn; by apply Hn).
  destruct (sl !! k) as [len|]; [|discriminate].
  split; [done|]. split; [|by eexists].
  destruct (ts_dtype s); try discriminate;
    destruct (ts_shape s) as [|? [|? ?]]; done.
Qed.

(** An element that agrees with such a description has, for each output
    feature, a vector of int64. *)
Lemma conforming_output_item (self : Task) (sl : gmap string Z) spec ex k v :
  Forall (fun ks =>
            fst ks ∈ _output_features self ->
            ts_dtype (snd ks) = tf_int64 /\
            length (ts_shape (snd ks)) = 1 /\
            is_Some (sl !! fst ks))
         spec ->
  example_conforms spec ex ->
  (k, v) ∈ ex -> k ∈ _output_features self ->
  exists d vals len, v = Int64Tensor [d] vals /\ sl !! k = Some len.
Proof.
  intros Hspec Hconf. unfold example_conforms in Hconf.
  induction Hconf as [|[k0 s] [k1 v1] spec ex [Hk [Hty Hrank]] _ IH];
    intros Hin Hout.
  - by apply elem_of_nil in Hin.
  - apply Forall_cons in Hspec as [Hs Hspec]. simpl in *. subst k1.
    apply elem_of_cons in Hin as [[= <- <-]|Hin]; [|by apply IH].
    destruct (Hs Hout) as (Hty' & Hrank' & [len Hlen]).
    rewrite Hty' in Hty. rewrite Hrank' in Hrank.
    destruct v as [sh vals|sh vals|sh vals]; try discriminate.
    simpl in Hrank. destruct sh as [|d [|? ?]]; try discriminate.
    by exists d, vals, len.
Qed.

(** One item through the EOS check and the trimming. *)
Lemma item_trimmed self sl k v v1 v' :
  _ensure_no_eos self "token preprocessing" k v = Ok v1 ->
  _trim_and_append_eos self sl k v1 = Ok v' ->
  v1 = v /\ trimmed_item self sl (k, v) (k, v').
Proof.
  intros Heos Htrim. apply _ensure_no_eos_Ok in Heos as [-> Hint].
  split; [done|]. unfold trimmed_item. simpl. split; [done|]. split.
  - intros Hout. rewrite _trim_and_append_eos_other in Htrim by done.
    congruence.
  - intros Hin. destruct (Hint Hin) as (sh & vals & -> & Hno1).
    unfold _trim_and_append_eos in Htrim.
    rewrite bool_decide_eq_false_2 in Htrim by (intros Hn; by apply Hn).
    destruct (sl !! k) as [len|] eqn:Hlen; [|discriminate].
    simpl in Htrim. destruct sh as [|d [|? ?]]; try discriminate.
    injection Htrim as <-.
    exists len, d, vals, (slice_to (len - 1) vals ++ [1%Z]).
    split_and!; try done.
    + apply last_snoc.
    + rewrite length_app. simpl.
      replace (length (slice_to (len - 1) vals) + 1 - 1)
        with (length (slice_to (len - 1) vals)) by lia.
      f_equal. apply slice_to_prefix.
    + intros Hpos. rewrite length_app. simpl.
      rewrite Nat2Z.inj_add, slice_to_length by lia. lia.
Qed.

Lemma element_trimmed self sl ex ex1 ex' :
  dict_map_items (_ensure_no_eos self "token preprocessing") ex = Ok ex1 ->
  dict_map_items (_trim_and_append_eos self sl) ex1 = Ok ex' ->
  Forall2 (trimmed_item self sl) ex ex'.
Proof.
  intros Heos Htrim.
  apply dict_map_items_Ok in Heos. apply dict_map_items_Ok in Htrim.
  revert ex' Htrim.
  induction Heos as [|[k v] [k1 v1] ex ex1 [Hk Hv] _ IH]; intros ex' Htrim.
  - inversion Htrim. constructor.
  - inversion Htrim as [|? [k' v'] ? ex'' [Hk' Hv'] Hrest]; subst.
    simpl in *. subst. constructor; [|by apply IH].
    by destruct (item_trimmed self sl k v v1 v' Hv Hv').
Qed.

(** C1 (amended). When [preprocess_tokens] returns, each element of the
    result that evaluates is the corresponding element of the output of the
    token preprocessors, item by item and in the same order: an item that is
    not an output feature is unchanged; an output feature is a vector of
    int64 that has become a prefix of itself followed by the EOS id 1, so
    its last element is 1, and when its sequence length [len] is at least 1
    its length is [min len (original length + 1)]. *)
Theorem C1_trimmed_length_and_eos :
  forall (self : Task) (ds : Dataset) (sl : gmap string Z) (out : Dataset),
    Task_preprocess_tokens self ds sl = Ok out ->
    exists mid,
      token_preprocessing_stage self ds sl = Ok mid /\
      Forall2 (fun r r' =>
                 forall ex', r' = Ok ex' ->
                             exists ex, r = Ok ex /\
                                        Forall2 (trimmed_item self sl) ex ex')
              (dataset_elements mid) (dataset_elements out).
Proof.
  intros self ds sl out Hout.
  apply Task_preprocess_tokens_inv in Hout as (mid & Hmid & _ & Hel).
  exists mid. split; [done|]. rewrite Hel.
  apply Forall2_fmap_r, Forall_Forall2_diag, Forall_forall.
  intros r _ ex'. destruct r as [ex|e]; simpl; [|discriminate].
  destruct (dict_map_items _ ex) as [ex1|e] eqn:Heos; simpl; [|discriminate].
  intros Htrim. exists ex. split; [done|]. by eapply element_trimmed.
Qed.

Lemma C1_witness :
  exists mid,
    token_preprocessing_stage plain_task (dataset_of example_567)
                              (lengths 2 4) = Ok mid /\
    Forall2 (fun r r' =>
               forall ex', r' = Ok ex' ->
                           exists ex,
                             r = Ok ex /\
                             Forall2 (trimmed_item plain_task (lengths 2 4))
                                     ex ex')
            (dataset_elements mid)
            (dataset_elements (dataset_of example_567_trimmed)).
Proof.
  apply (C1_trimmed_length_and_eos plain_task (dataset_of example_567)
                                   (lengths 2 4)
                                   (dataset_of example_567_trimmed)).
  vm_compute. reflexivity.
Defined.

(** C1, as stated, fails for a sequence length of 0: the output feature
    "inputs" of original length 2 comes out with length 2, not
    [min 0 (2 + 1) = 0]. *)
Lemma C1_counterexample :
  exists out ex' r,
    Task_preprocess_tokens plain_task (dataset_of example_567) (lengths 0 4)
    = Ok out /\
    dataset_elements out = [Ok ex'] /\
    dict_get example_567 "inputs" = Some (Int64Tensor [2] [5; 6]%Z) /\
    lengths 0 4 !! "inputs" = Some 0%Z /\
    dict_get ex' "inputs" = Some (Int64Tensor [length r] r) /\
    Z.of_nat (length r) <> Z.min 0 (Z.of_nat (length [5; 6]%Z) + 1).
Proof.
  eexists _, _, [5; 1]%Z. split; [vm_compute; reflexivity|].
  split; [reflexivity|]. split; [reflexivity|]. split; [reflexivity|].
  split; [reflexivity|]. simpl. lia.
Qed.

Lemma lookup_element {A B} (f : A -> B) (l : list A) (l' : list B) i a :
  l' = map f l -> l !! i = Some a -> l' !! i = Some (f a).
Proof.
  intros -> Hi. change (map f l) with (f <$> l).
  by rewrite list_lookup_fmap, Hi.
Qed.

(** An element one of whose output features contains the EOS id raises
    [UnexpectedEosError] when the result of [preprocess_tokens] is
    iterated. *)
Lemma eos_element_raises self ds sl out mid i ex :
  Task_preprocess_tokens self ds sl = Ok out ->
  token_preprocessing_stage self ds sl = Ok mid ->
  dataset_elements mid !! i = Some (Ok ex) ->
  example_conforms (element_spec mid) ex ->
  (exists k shape vals,
      (k, Int64Tensor shape vals) ∈ ex /\ k ∈ _output_features self /\
      1%Z ∈ vals) ->
  exists k',
    k' ∈ _output_features self /\
    dataset_elements out !! i
    = Some (Raise (UnexpectedEosError k' "token preprocessing")).
Proof.
  intros Hout Hmid Hi Hconf (k & shape & vals & Hin & Hk & H1).
  apply Task_preprocess_tokens_inv in Hout as (mid' & Hmid' & Hspec & Hel).
  assert (mid' = mid) as -> by congruence.
  pose proof (lookup_element _ _ _ _ _ Hel Hi) as Hi'. simpl in Hi'.
  unfold dict_map_items in Hi' at 1.
  edestruct (res_mapM_Raise
               (fun kv : string * Tensor =>
                  res_bind (_ensure_no_eos self "token preprocessing"
                                           (fst kv) (snd kv))
                           (fun w => Ok (fst kv, w)))
               (fun e => exists k', k' ∈ _output_features self /\
                                    e = UnexpectedEosError k'
                                          "token preprocessing")
               ex) as (e & He & k' & Hk' & ->).
  - intros [k0 v0] e Hin0. simpl.
    destruct (_ensure_no_eos self "token preprocessing" k0 v0) as [w|e0] eqn:He;
      simpl; [discriminate|].
    intros [= <-]. apply _ensure_no_eos_Raise in He as [Hk0 [->|[-> Hty]]].
    + eauto.
    + destruct (conforming_output_item self sl _ _ _ _ Hspec Hconf Hin0 Hk0)
        as (d & vals0 & len & -> & _). done.
  - exists (k, Int64Tensor shape vals), (UnexpectedEosError k "token preprocessing").
    split; [done|]. simpl. by rewrite _ensure_no_eos_eos.
  - exists k'. split; [done|]. rewrite He in Hi'. exact Hi'.
Qed.

(** An element none of whose output features contains the EOS id
    evaluates, whatever its other features contain. *)
Lemma clean_element_evaluates self ds sl out mid i ex :
  Task_preprocess_tokens self ds sl = Ok out ->
  token_preprocessing_stage self ds sl = Ok mid ->
  dataset_elements mid !! i = Some (Ok ex) ->
  example_conforms (element_spec mid) ex ->
  (forall k shape vals,
      (k, Int64Tensor shape vals) ∈ ex -> k ∈ _output_features self ->
      1%Z ∉ vals) ->
  exists ex',
    dataset_elements out !! i = Some (Ok ex') /\
    Forall2 (trimmed_item self sl) ex ex'.
Proof.
  intros Hout Hmid Hi Hconf Hclean.
  apply Task_preprocess_tokens_inv in Hout as (mid' & Hmid' & Hspec & Hel).
  assert (mid' = mid) as -> by congruence.
  pose proof (lookup_element _ _ _ _ _ Hel Hi) as Hi'. simpl in Hi'.
  assert (dict_map_items (_ensure_no_eos self "token preprocessing") ex = Ok ex)
    as Heos.
  { apply dict_map_items_Ok, Forall_Forall2_diag, Forall_forall.
    intros [k v] Hin. split; [done|]. simpl.
    unfold _ensure_no_eos. case_bool_decide as Hk; [done|].
    assert (k ∈ _output_features self) as Hk'.
    { destruct (decide (k ∈ _output_features self)); done. }
    destruct (conforming_output_item self sl _ _ _ _ Hspec Hconf Hin Hk')
      as (d & vals & len & -> & _).
    simpl. assert (existsb (Z.eqb 1) vals = false) as ->; [|done].
    apply not_true_iff_false. intros Hex.
    apply existsb_exists in Hex as (z & Hz & Heq). apply Z.eqb_eq in Heq.
    subst z. apply list_elem_of_In in Hz. by eapply Hclean. }
  rewrite Heos in Hi'. simpl in Hi'.
  assert (exists ex', dict_map_items (_trim_and_append_eos self sl) ex = Ok ex')
    as [ex' Htrim].
  { assert (forall k v, (k, v) ∈ ex ->
              exists v', _trim_and_append_eos self sl k v = Ok v') as Htot.
    { intros k v Hin. destruct (decide (k ∈ _output_features self)) as [Hk|Hk].
      - destruct (conforming_output_item self sl _ _ _ _ Hspec Hconf Hin Hk)
          as (d & vals & len & -> & Hlen).
        rewrite (_trim_and_append_eos_int64 _ _ _ len) by done. eauto.
      - rewrite _trim_and_append_eos_other by done. eauto. }
    clear -Htot. induction ex as [|[k v] ex IH].
    - by exists [].
    - destruct IH as [ex' Hex'].
      { intros k0 v0 Hin. apply Htot. by apply list_elem_of_further. }
      destruct (Htot k v) as [v' Hv']; [apply list_elem_of_here|].
      exists ((k, v') :: ex'). unfold dict_map_items in *. simpl.
      rewrite Hv'. simpl. by rewrite Hex'. }
  exists ex'. split; [etrans; [exact Hi'|]; f_equal; exact Htrim|].
  by eapply element_trimmed.
Qed.

(** C3. When [preprocess_tokens] returns a dataset, an element of the
    output of the token preprocessors that has the EOS id 1 in one of the
    output features of the task raises [UnexpectedEosError] when the
    dataset is iterated; an element that has it in no output feature
    evaluates, and has its other features unchanged, whatever they
    contain. *)
Theorem C3_unexpected_eos :
  forall (self : Task) (ds : Dataset) (sl : gmap string Z)
         (out mid : Dataset) (i : nat) (ex : Example),
    Task_preprocess_tokens self ds sl = Ok out ->
    token_preprocessing_stage self ds sl = Ok mid ->
    dataset_elements mid !! i = Some (Ok ex) ->
    example_conforms (element_spec mid) ex ->
    ((exists k shape vals,
         (k, Int64Tensor shape vals) ∈ ex /\ k ∈ _output_features self /\
         1%Z ∈ vals) ->
     exists k',
       k' ∈ _output_features self /\
       dataset_elements out !! i
       = Some (Raise (UnexpectedEosError k' "token preprocessing"))) /\
    ((forall k shape vals,
         (k, Int64Tensor shape vals) ∈ ex -> k ∈ _output_features self ->
         1%Z ∉ vals) ->
     exists ex',
       dataset_elements out !! i = Some (Ok ex') /\
       Forall2 (fun kv kv' =>
                  fst kv' = fst kv /\
                  (fst kv ∉ _output_features self -> snd kv' = snd kv))
               ex ex').
Proof.
  intros self ds sl out mid i ex Hout Hmid Hi Hconf. split.
  - by apply (eos_element_raises self ds sl out mid i ex).
  - intros Hclean.
    destruct (clean_element_evaluates self ds sl out mid i ex)
      as (ex' & Hi' & Htrim); [done..|].
    exists ex'. split; [done|].
    eapply Forall2_impl; [exact Htrim|].
    intros kv kv' (Hk & Hother & _). done.
Qed.

(** C2 (amended). On a value of an output feature that already has the
    sequence length and ends with the EOS id, the trimming step returns the
    value as it is; [preprocess_tokens] as a whole does not: the element
    that holds such a value raises [UnexpectedEosError] when the result is
    iterated, because the final EOS id is an occurrence of the id 1. *)
Theorem C2_trim_idempotent_but_eos_rejected :
  forall (self : Task) (sl : gmap string Z) (feat : string) (len : Z)
         (vals : list Z),
    feat ∈ _output_features self ->
    sl !! feat = Some len ->
    Z.of_nat (length vals) = len ->
    last vals = Some 1%Z ->
    _trim_and_append_eos self sl feat (Int64Tensor [length vals] vals)
    = Ok (Int64Tensor [length vals] vals) /\
    (forall ds out mid i ex,
        Task_preprocess_tokens self ds sl = Ok out ->
        token_preprocessing_stage self ds sl = Ok mid ->
        dataset_elements mid !! i = Some (Ok ex) ->
        example_conforms (element_spec mid) ex ->
        (feat, Int64Tensor [length vals] vals) ∈ ex ->
        exists k',
          k' ∈ _output_features self /\
          dataset_elements out !! i
          = Some (Raise (UnexpectedEosError k' "token preprocessing"))).
Proof.
  intros self sl feat len vals Hfeat Hlen Hlength Hlast.
  apply last_Some in Hlast as [init ->].
  rewrite length_app in Hlength. simpl in Hlength. split.
  - rewrite (_trim_and_append_eos_int64 _ _ _ len) by done.
    assert (slice_to (len - 1) (init ++ [1%Z]) = init) as ->; [|done].
    unfold slice_to.
    destruct (len - 1 <? 0)%Z eqn:Hneg; [apply Z.ltb_lt in Hneg; lia|].
    replace (Z.to_nat (len - 1)) with (length init) by lia.
    by rewrite take_app_length.
  - intros ds out mid i ex Hout Hmid Hi Hconf Hin.
    apply (eos_element_raises self ds sl out mid i ex); try done.
    exists feat, [length (init ++ [1%Z])], (init ++ [1%Z]).
    split_and!; [done..|]. apply elem_of_app. right. apply list_elem_of_here.
Qed.

Lemma C2_witness :
  _trim_and_append_eos plain_task (lengths 2 2) "inputs"
                       (Int64Tensor [length [5; 1]%Z] [5; 1]%Z)
  = Ok (Int64Tensor [length [5; 1]%Z] [5; 1]%Z) /\
  exists out k',
    Task_preprocess_tokens plain_task (dataset_of example_eos) (lengths 2 2)
    = Ok out /\
    k' ∈ _output_features plain_task /\
    dataset_elements out !! 0
    = Some (Raise (UnexpectedEosError k' "token preprocessing")).
Proof.
  destruct (C2_trim_idempotent_but_eos_rejected
              plain_task (lengths 2 2) "inputs" 2 [5; 1]%Z)
    as [Htrim Hraise].
  - apply list_elem_of_here.
  - reflexivity.
  - reflexivity.
  - reflexivity.
  - split; [exact Htrim|].
    assert (exists out,
               Task_preprocess_tokens plain_task (dataset_of example_eos)
                                      (lengths 2 2) = Ok out) as [out Hout].
    { eexists. vm_compute. reflexivity. }
    destruct (Hraise (dataset_of example_eos) out (dataset_of example_eos)
                     0 example_eos) as (k' & Hk' & Hi).
    + exact Hout.
    + reflexivity.
    + reflexivity.
    + repeat constructor.
    + apply list_elem_of_here.
    + exists out, k'. done.
Defined.

(** C2, as stated, fails: on an element whose output features already have
    the sequence length 2 and end with the EOS id, [preprocess_tokens] does
    not yield the same sequences; the element raises when the result is
    iterated. *)
Lemma C2_counterexample :
  dict_get example_eos "inputs" = Some (Int64Tensor [2] [5; 1]%Z) /\
  lengths 2 2 !! "inputs" = Some 2%Z /\
  exists out,
    Task_preprocess_tokens plain_task (dataset_of example_eos) (lengths 2 2)
    = Ok out /\
    dataset_elements out
    = [Raise (UnexpectedEosError "inputs" "token preprocessing")] /\
    dataset_elements out <> [Ok example_eos].
Proof.
  split; [reflexivity|]. split; [reflexivity|].
  eexists. split; [vm_compute; reflexivity|]. split; [reflexivity|].
  discriminate.
Qed.

Lemma C3_witness :
  (exists out k',
      Task_preprocess_tokens plain_task (dataset_of example_eos) (lengths 2 2)
      = Ok out /\
      k' ∈ _output_features plain_task /\
      dataset_elements out !! 0
      = Some (Raise (UnexpectedEosError k' "token preprocessing"))) /\
  (exists out ex',
      Task_preprocess_tokens plain_task (dataset_of example_567) (lengths 2 4)
      = Ok out /\
      dataset_elements out !! 0 = Some (Ok ex') /\
      Forall2 (fun kv kv' =>
                 fst kv' = fst kv /\
                 (fst kv ∉ _output_features plain_task -> snd kv' = snd kv))
              example_567 ex').
Proof.
  split.
  - assert (exists out,
               Task_preprocess_tokens plain_task (dataset_of example_eos)
                                      (lengths 2 2) = Ok out) as [out Hout].
    { eexists. vm_compute. reflexivity. }
    destruct (proj1 (C3_unexpected_eos
                       plain_task (dataset_of example_eos) (lengths 2 2) out
                       (dataset_of example_eos) 0 example_eos
                       Hout eq_refl eq_refl
                       ltac:(repeat constructor)))
      as (k' & Hk' & Hi).
    + exists "inputs", [2], [5; 1]%Z. split_and!.
      * apply list_elem_of_here.
      * apply list_elem_of_here.
      * apply list_elem_of_further, list_elem_of_here.
    + exists out, k'. done.
  - assert (exists out,
               Task_preprocess_tokens plain_task (dataset_of example_567)
                                      (lengths 2 4) = Ok out) as [out Hout].
    { eexists. vm_compute. reflexivity. }
    destruct (proj2 (C3_unexpected_eos
                       plain_task (dataset_of example_567) (lengths 2 4) out
                       (dataset_of example_567) 0 example_567
                       Hout eq_refl eq_refl
                       ltac:(repeat constructor)))
      as (ex' & Hi & Hrel).
    + intros k shape vals Hin Hk H1.
      apply list_elem_of_In in Hin. simpl in Hin.
      destruct Hin as [[= <- <- <-]|[[= <- <- <-]|[[= <- <- <-]|[]]]].
      * apply list_elem_of_In in H1. simpl in H1.
        destruct H1 as [?|[?|[]]]; discriminate.
      * apply list_elem_of_In in H1. simpl in H1.
        destruct H1 as [?|[]]; discriminate.
      * apply list_elem_of_In in Hk. simpl in Hk.
        destruct Hk as [?|[?|[]]]; discriminate.
    + exists out, ex'. done.
Defined.

Lemma C4_witness :
  exists m,
    Mixture_init [TaskWithRate "cola" (RateNumber 3%float); TaskName "rte"]
                 (Some (RateNumber 1%float)) world_with_cola_rte
    = (Ok m, world_with_cola_rte) /\
    _tasks m = [registered_task world_with_cola_rte "cola";
                registered_task world_with_cola_rte "rte"].
Proof.
  assert (forall t,
             t ∈ [registered_task world_with_cola_rte "cola";
                  registered_task world_with_cola_rte "rte"] ->
             _output_features t = ["inputs"; "targets"] /\
             _sentencepiece_model_path t = "sp.model") as Hts.
  { intros t Ht. apply list_elem_of_In in Ht. simpl in Ht.
    destruct Ht as [<-|[<-|[]]]; split; vm_compute; reflexivity. }
  apply (proj1 (C4_mixture_compatibility
                  [TaskWithRate "cola" (RateNumber 3%float); TaskName "rte"]
                  (Some (RateNumber 1%float)) world_with_cola_rte
                  [registered_task world_with_cola_rte "cola";
                   registered_task world_with_cola_rte "rte"]
                  ltac:(discriminate)
                  ltac:(repeat constructor; try (eexists; reflexivity);
                        vm_compute; reflexivity)
                  ltac:(repeat constructor; vm_compute; reflexivity))).
  split.
  - intros t1 t2 H1 H2 x. destruct (Hts t1 H1) as [-> _].
    by destruct (Hts t2 H2) as [-> _].
  - intros t1 t2 H1 H2. destruct (Hts t1 H1) as [_ ->].
    by destruct (Hts t2 H2) as [_ ->].
Defined.

Lemma C10_witness :
  exists m,
    Mixture_init [TaskWithRate "cola" (RateNumber 3%float); TaskName "rte"]
                 (Some (RateNumber 1%float)) world_with_cola_rte
    = (Ok m, world_with_cola_rte) /\
    _tasks m <> [] /\
    exists t,
      Mixture_first_task m = Ok t /\
      Mixture_output_features m = Ok (_output_features t) /\
      Mixture_sentencepiece_model_path m = Ok (_sentencepiece_model_path t).
Proof.
  assert (exists m,
             Mixture_init
               [TaskWithRate "cola" (RateNumber 3%float); TaskName "rte"]
               (Some (RateNumber 1%float)) world_with_cola_rte
             = (Ok m, world_with_cola_rte)) as [m Hm].
  { eexists. vm_compute. reflexivity. }
  destruct (proj2 (C10_mixture_not_empty (Some (RateNumber 1%float))
                                         world_with_cola_rte)
                  _ m world_with_cola_rte Hm)
    as (_ & Hne & _ & t & Ht & Hf & Hp & _).
  exists m. split; [exact Hm|]. split; [exact Hne|].
  exists t. split_and!; assumption.
Defined.

(* ===================================================================== *)
(** ** [rate_num_examples] *)
(* ===================================================================== *)

(** A temperature that is zero is not one. *)
Lemma float_zero_not_one (t : float) :
  PrimFloat.eqb t 0%float = true -> PrimFloat.eqb t 1%float = false.
Proof.
  rewrite !FloatAxioms.eqb_spec.
  change (FloatOps.Prim2SF 0%float) with (SpecFloat.S754_zero false).
  destruct (FloatOps.Prim2SF t) as [s| s | |s m e] eqn:Ht.
  - intros _. vm_compute. reflexivity.
  - intros H. destruct s; cbv in H; discriminate H.
  - intros H. cbv in H. discriminate H.
  - intros H. destruct s; cbv in H; discriminate H.
Qed.



(* ===================================================================== *)
(** ** The name pattern on ASCII names *)
(* ===================================================================== *)

Lemma string_forallb_app p (a b : string) :
  string_forallb p (a ++ b)%string = string_forallb p a && string_forallb p b.
Proof.
  induction a as [|c a IH]; [done|].
  change (string_forallb p (String c (a ++ b)%string)
          = string_forallb p (String c a) && string_forallb p b).
  simpl. by rewrite IH, andb_assoc.
Qed.

Lemma string_forallb_ext p q (s : string) :
  (forall c, p c = true -> q c = true) ->
  string_forallb p s = true -> string_forallb q s = true.
Proof.
  intros Hpq. induction s as [|c s IH]; [done|]. simpl.
  intros [Hc Hs]%andb_true_iff. by rewrite (Hpq c Hc), IH.
Qed.

Lemma plain_name_char_ascii c :
  plain_name_char c = true -> (Re.code c <? 128)%N = true.
Proof.
  unfold plain_name_char, Re.ascii_letter, Re.ascii_digit, Re.between.
  intros H. apply N.ltb_lt.
  repeat (apply orb_true_iff in H as [H|H]).
  - apply andb_true_iff in H as [_ H%N.leb_le]. lia.
  - apply andb_true_iff in H as [_ H%N.leb_le]. lia.
  - apply andb_true_iff in H as [_ H%N.leb_le]. lia.
  - apply Ascii.eqb_eq in H as ->. vm_compute. reflexivity.
  - apply Ascii.eqb_eq in H as ->. vm_compute. reflexivity.
Qed.

Lemma in_class_plain ua ud (s : string) :
  ascii_name s = true ->
  string_forallb
    (Re.in_class ua ud
       [Re.cls_w; Re.cls_d; Re.cls_lit Re.dot; Re.cls_lit Re.underscore]) s
  = string_forallb plain_name_char s.
Proof.
  unfold ascii_name. induction s as [|c s IH]; [done|]. simpl.
  intros [Hc Hs]%andb_true_iff.
  rewrite IH by done. f_equal. apply in_class_ascii. by apply N.ltb_lt.
Qed.

(** On a name made of ASCII characters the name check of [Task.__init__]
    does not depend on the Unicode tables: it accepts the non-empty strings
    over [[A-Za-z0-9_.]], with or without one final newline, and nothing
    else. *)
Theorem valid_task_name_ascii ua ud (name : string) :
  ascii_name name = true ->
  valid_task_name ua ud name = true <->
  exists body,
    body <> "" /\ string_forallb plain_name_char body = true /\
    (name = body \/ name = (body ++ String Re.newline "")%string).
Proof.
  intros Hascii. rewrite valid_task_name_true.
  assert (forall body,
             name = body \/ name = (body ++ String Re.newline "")%string ->
             ascii_name body = true) as Hbody.
  { intros body [<-| ->]; [done|]. unfold ascii_name in *.
    rewrite string_forallb_app in Hascii.
    by apply andb_true_iff in Hascii as [? _]. }
  split; intros (body & Hne & Hall & Hname); exists body;
    (split; [done|]); (split; [|done]).
  - by rewrite <- (in_class_plain ua ud) by auto.
  - by rewrite (in_class_plain ua ud) by auto.
Qed.

Lemma valid_task_name_ascii_witness :
  ascii_name "glue_cola.v002" = true /\
  (valid_task_name ascii_only ascii_only "glue_cola.v002" = true <->
   exists body,
     body <> "" /\ string_forallb plain_name_char body = true /\
     ("glue_cola.v002" = body \/
      "glue_cola.v002" = (body ++ String Re.newline "")%string)).
Proof.
  split; [reflexivity|].
  apply (valid_task_name_ascii ascii_only ascii_only "glue_cola.v002").
  reflexivity.
Defined.

(* ===================================================================== *)
(** ** [Task.__init__]: what it raises *)
(* ===================================================================== *)

(** A construction that raises has raised [InvalidName], the name check
    being made first, or [MissingVersion]; it has created no loader and has
    left the world as it was. *)
Theorem Task_init_failure ua ud name (a : TaskArgs) w e w' :
  Task_init ua ud name a w = (Raise e, w') ->
  w' = w /\
  ((valid_task_name ua ud name = false /\ e = InvalidName name) \/
   (valid_task_name ua ud name = true /\
    str_contains ":" (arg_tfds_name a) = false /\
    e = MissingVersion (arg_tfds_name a))).
Proof.
  unfold Task_init.
  destruct (valid_task_name ua ud name); simpl.
  - destruct (str_contains ":" (arg_tfds_name a)); simpl.
    + unfold bind.
      destruct (LazyTfdsLoader_call_spec (arg_tfds_name a) (arg_tfds_data_dir a) w)
        as (l & w1 & -> & _). discriminate.
    + intros [= <- <-]. split; [done|]. right. done.
  - intros [= <- <-]. split; [done|]. left. done.
Qed.

Lemma Task_init_failure_witness :
  Task_init ascii_only ascii_only "glue cola" rte_args world_with_cola
  = (Raise (InvalidName "glue cola"), world_with_cola) /\
  world_with_cola = world_with_cola /\
  ((valid_task_name ascii_only ascii_only "glue cola" = false /\
    InvalidName "glue cola" = InvalidName "glue cola") \/
   (valid_task_name ascii_only ascii_only "glue cola" = true /\
    str_contains ":" (arg_tfds_name rte_args) = false /\
    InvalidName "glue cola" = MissingVersion (arg_tfds_name rte_args))).
Proof.
  split; [reflexivity|].
  apply (Task_init_failure ascii_only ascii_only "glue cola" rte_args
                           world_with_cola).
  reflexivity.
Defined.

(* ===================================================================== *)
(** ** [LazyTfdsLoader]: one object per key *)
(* ===================================================================== *)

Lemma loader_inv_empty : loader_inv empty_world.
Proof. split; intros *; simpl; rewrite lookup_empty; discriminate. Qed.

Lemma LazyTfdsLoader_call_inv name data_dir w :
  loader_inv w -> loader_inv (snd (LazyTfdsLoader_call name data_dir w)).
Proof.
  intros [Hdom Hinj].
  unfold LazyTfdsLoader_call, LazyTfdsLoader__new__, LazyTfdsLoader__init__,
    store, object__new__, bind, gets, modify, ret, raise. simpl.
  destruct (_MEMOIZED_INSTANCES w !! (name, data_dir)) as [l|] eqn:Hm; simpl.
  - rewrite Hm. simpl. split; simpl.
    + intros k l0 Hk. destruct (decide (l0 = l)) as [->|Hne].
      * rewrite lookup_insert_eq. by eexists.
      * rewrite lookup_insert_ne by done. eauto.
    + exact Hinj.
  - rewrite lookup_insert_eq. simpl.
    set (l := fresh (dom (heap w))).
    assert (heap w !! l = None) as Hfresh.
    { apply not_elem_of_dom. apply is_fresh. }
    split; simpl.
    + intros k l0 Hk. destruct (decide (l0 = l)) as [->|Hne].
      * rewrite lookup_insert_eq. by eexists.
      * rewrite lookup_insert_ne by done. rewrite lookup_insert_ne by done.
        destruct (decide (k = (name, data_dir))) as [->|Hk'].
        -- rewrite lookup_insert_eq in Hk. congruence.
        -- rewrite lookup_insert_ne in Hk by done. eauto.
    + intros k1 k2 l0 H1 H2.
      destruct (decide (k1 = (name, data_dir))) as [->|Hk1],
               (decide (k2 = (name, data_dir))) as [->|Hk2]; [done| | |].
      * rewrite lookup_insert_eq in H1. rewrite lookup_insert_ne in H2 by done.
        assert (l0 = l) as -> by congruence.
        apply Hdom in H2 as [? H2]. congruence.
      * rewrite lookup_insert_eq in H2. rewrite lookup_insert_ne in H1 by done.
        assert (l0 = l) as -> by congruence.
        apply Hdom in H1 as [? H1]. congruence.
      * rewrite lookup_insert_ne in H1 by done.
        rewrite lookup_insert_ne in H2 by done. eauto.
Qed.

Lemma construct_all_inv keys w :
  loader_inv w -> loader_inv (snd (construct_all keys w)).
Proof.
  revert w. induction keys as [|[name dd] keys IH]; intros w Hinv; [done|].
  simpl. unfold bind.
  pose proof (LazyTfdsLoader_call_inv name dd w Hinv) as Hinv'.
  destruct (LazyTfdsLoader_call_spec name dd w) as (l' & w' & E & _).
  rewrite E in *. simpl in Hinv'. by apply IH.
Qed.

(** Constructions with different keys return different objects, whatever
    other loaders are constructed in between, in any world whose memo table
    names existing objects and no object twice.  The world at start-up is
    such a world, and every construction keeps it so. *)
Theorem distinct_keys_distinct_instances
        name1 data_dir1 name2 data_dir2 others w l1 w1 r w2 l2 w3 :
  loader_inv w ->
  (name1, data_dir1) <> (name2, data_dir2) ->
  LazyTfdsLoader_call name1 data_dir1 w = (Ok l1, w1) ->
  construct_all others w1 = (r, w2) ->
  LazyTfdsLoader_call name2 data_dir2 w2 = (Ok l2, w3) ->
  l1 <> l2 /\ loader_inv w3.
Proof.
  intros Hinv Hne H1 Hmid H2.
  pose proof (LazyTfdsLoader_call_inv name1 data_dir1 w Hinv) as Hinv1.
  destruct (LazyTfdsLoader_call_spec name1 data_dir1 w)
    as (l & w1' & E1 & Hmemo1 & _).
  rewrite E1 in H1, Hinv1. simpl in Hinv1.
  assert (l = l1) as -> by congruence.
  assert (w1' = w1) as -> by congruence. clear H1.
  pose proof (construct_all_memo others w1 _ _ Hmemo1) as Hmemo2.
  pose proof (construct_all_inv others w1 Hinv1) as Hinv2.
  rewrite Hmid in Hmemo2, Hinv2. simpl in Hmemo2, Hinv2.
  pose proof (LazyTfdsLoader_call_inv name2 data_dir2 w2 Hinv2) as Hinv3.
  destruct (LazyTfdsLoader_call_spec name2 data_dir2 w2)
    as (l' & w3' & E2 & Hmemo3 & _ & Hkeep & _).
  rewrite E2 in H2, Hinv3. simpl in Hinv3.
  assert (l' = l2) as -> by congruence.
  assert (w3' = w3) as -> by congruence. clear H2.
  split; [|done].
  intros ->. apply Hne. destruct Hinv3 as [_ Hinj].
  eapply Hinj; [|exact Hmemo3]. by apply Hkeep.
Qed.

Lemma distinct_keys_distinct_instances_witness :
  LazyTfdsLoader_call "glue/cola:1.0.0" None empty_world
  = (Ok 0, world_after_cola) /\
  LazyTfdsLoader_call "glue/cola:1.0.0" (Some "/data") world_after_rte
  = (Ok 2, snd (LazyTfdsLoader_call "glue/cola:1.0.0" (Some "/data")
                                    world_after_rte)) /\
  0 <> 2 /\
  loader_inv (snd (LazyTfdsLoader_call "glue/cola:1.0.0" (Some "/data")
                                       world_after_rte)).
Proof.
  split; [reflexivity|]. split; [reflexivity|].
  apply (distinct_keys_distinct_instances
           "glue/cola:1.0.0" None "glue/cola:1.0.0" (Some "/data")
           [("glue/rte:1.0.0", None)] empty_world
           0 world_after_cola (Ok tt) world_after_rte 2 _).
  - exact loader_inv_empty.
  - discriminate.
  - reflexivity.
  - reflexivity.
  - reflexivity.
Defined.

(** The builder is built with the data directory in force at its first
    use and is kept: a later override of the data directory does not reach
    it.  Constructing the loader again, with the same key, returns the same
    object with its builder forgotten, and the next use builds it with the
    override. *)
Theorem builder_kept_until_constructed_again
        name data_dir (d : string) w l w1 b w2 :
  str_truthy (Some d) = true ->
  LazyTfdsLoader_call name data_dir w = (Ok l, w1) ->
  LazyTfdsLoader_builder l w1 = (Ok b, w2) ->
  b = mkBuilder name (if str_truthy (_TFDS_DATA_DIR_OVERRIDE w)
                      then _TFDS_DATA_DIR_OVERRIDE w else data_dir) /\
  let w3 := set_tfds_data_dir_override (Some d) w2 in
  LazyTfdsLoader_builder l w3 = (Ok b, w3) /\
  exists w4,
    LazyTfdsLoader_call name data_dir w3 = (Ok l, w4) /\
    fst (LazyTfdsLoader_builder l w4) = Ok (mkBuilder name (Some d)).
Proof.
  intros Hd H1 Hb.
  destruct (LazyTfdsLoader_call_spec name data_dir w)
    as (l0 & w1' & E1 & Hmemo1 & Hheap1 & _ & _).
  assert (_TFDS_DATA_DIR_OVERRIDE w1' = _TFDS_DATA_DIR_OVERRIDE w) as Hov.
  { revert E1. unfold LazyTfdsLoader_call, LazyTfdsLoader__new__,
      LazyTfdsLoader__init__, store, object__new__, bind, gets, modify, ret,
      raise. simpl.
    destruct (_MEMOIZED_INSTANCES w !! (name, data_dir)) eqn:Hm; simpl.
    - rewrite Hm. by intros [= _ <-].
    - rewrite lookup_insert_eq. by intros [= _ <-]. }
  rewrite E1 in H1.
  assert (l0 = l) as -> by congruence.
  assert (w1' = w1) as -> by congruence. clear H1 E1.
  revert Hb. unfold LazyTfdsLoader_builder, LazyTfdsLoader_name,
    LazyTfdsLoader_data_dir, load, store, bind, gets, modify, ret.
  repeat (rewrite Hheap1; simpl). rewrite Hov.
  intros Hb.
  assert (b = mkBuilder name (if str_truthy (_TFDS_DATA_DIR_OVERRIDE w)
                              then _TFDS_DATA_DIR_OVERRIDE w else data_dir)
          /\ heap w2 !! l = Some (Some (mkLazyTfdsLoader name data_dir (Some b)))
          /\ _MEMOIZED_INSTANCES w2 = _MEMOIZED_INSTANCES w1) as (Eb & Hheap2 & Hm2).
  { destruct (str_truthy (_TFDS_DATA_DIR_OVERRIDE w)); simpl in Hb;
      injection Hb as <- <-; simpl; by rewrite lookup_insert_eq. }
  split; [exact Eb|]. clear Hb. simpl. split.
  - rewrite Hheap2. reflexivity.
  - destruct (LazyTfdsLoader_call_spec name data_dir
                (set_tfds_data_dir_override (Some d) w2))
      as (l' & w4 & E4 & Hmemo4 & Hheap4 & Hkeep & _).
    assert (l' = l) as ->.
    { specialize (Hkeep (name, data_dir) l). simpl in Hkeep.
      rewrite Hm2 in Hkeep. specialize (Hkeep Hmemo1). congruence. }
    exists w4. split; [exact E4|].
    assert (_TFDS_DATA_DIR_OVERRIDE w4 = Some d) as Hov4.
    { revert E4. unfold LazyTfdsLoader_call, LazyTfdsLoader__new__,
        LazyTfdsLoader__init__, store, object__new__, bind, gets, modify, ret,
        raise. simpl. rewrite Hm2, Hmemo1. simpl. rewrite Hm2, Hmemo1.
      by intros [= <-]. }
    repeat (rewrite Hheap4; simpl). rewrite Hov4, Hd. reflexivity.
Qed.

Lemma builder_kept_until_constructed_again_witness :
  fst (LazyTfdsLoader_builder
         0 (snd (LazyTfdsLoader_call
                   "glue/cola:1.0.0" None
                   (set_tfds_data_dir_override
                      (Some "/override")
                      (snd (LazyTfdsLoader_builder 0 world_after_cola))))))
  = Ok (mkBuilder "glue/cola:1.0.0" (Some "/override")).
Proof.
  destruct (builder_kept_until_constructed_again
              "glue/cola:1.0.0" None "/override" empty_world 0
              world_after_cola (mkBuilder "glue/cola:1.0.0" None)
              (snd (LazyTfdsLoader_builder 0 world_after_cola))
              eq_refl eq_refl eq_refl) as (_ & _ & w4 & E4 & Hb).
  assert (w4 = snd (LazyTfdsLoader_call
                      "glue/cola:1.0.0" None
                      (set_tfds_data_dir_override
                         (Some "/override")
                         (snd (LazyTfdsLoader_builder 0 world_after_cola)))))
    as <- by (rewrite E4; reflexivity).
  exact Hb.
Defined.

(* ===================================================================== *)
(** ** [LazyTfdsLoader]: the builder and the splits *)
(* ===================================================================== *)

(** The first use of the builder of an initialised object builds it and
    stores it; every later use returns it and changes nothing. *)
Lemma LazyTfdsLoader_builder_spec self w o :
  heap w !! self = Some (Some o) ->
  exists b w',
    LazyTfdsLoader_builder self w = (Ok b, w') /\
    heap w' !! self
    = Some (Some (mkLazyTfdsLoader (_name o) (_data_dir o) (Some b))) /\
    LazyTfdsLoader_builder self w' = (Ok b, w').
Proof.
  intros Hheap. destruct o as [n dd [b|]];
    unfold LazyTfdsLoader_builder, LazyTfdsLoader_name,
      LazyTfdsLoader_data_dir, load, store, bind, gets, modify, ret;
    repeat (rewrite Hheap; simpl).
  - exists b, w. by rewrite Hheap.
  - destruct (str_truthy (_TFDS_DATA_DIR_OVERRIDE w)); simpl;
      eexists _, _; (split; [reflexivity|]); simpl;
      rewrite lookup_insert_eq; done.
Qed.

Section TfdsInfoFacts.
Variable tfds_splits : Builder -> gmap string Z.

(** On an initialised loader, [size] raises [InvalidSplit] for a split the
    dataset does not have, and nothing else; for a split it has, it returns
    the number of examples when that is positive and infinity otherwise, so
    never zero or a negative number.  The builder is built once, although
    the metadata is read twice. *)
Theorem LazyTfdsLoader_size_spec (self : loc) (split : string) w o :
  heap w !! self = Some (Some o) ->
  exists b w',
    LazyTfdsLoader_builder self w = (Ok b, w') /\
    LazyTfdsLoader_size tfds_splits self split w =
    (match tfds_splits b !! split with
     | None => Raise (InvalidSplit (_name o) split)
     | Some n => Ok (if (0 <? n)%Z then FiniteSize n else InfiniteSize)
     end, w').
Proof.
  intros Hheap.
  destruct (LazyTfdsLoader_builder_spec self w o Hheap)
    as (b & w' & Hb & Hheap' & Hb').
  exists b, w'. split; [exact Hb|].
  unfold LazyTfdsLoader_size, LazyTfdsLoader_verify_split,
    LazyTfdsLoader_info_splits, bind at 1 2 3. rewrite Hb.
  unfold ret at 1.
  destruct (tfds_splits b !! split) as [n|] eqn:Hsplit.
  - rewrite bool_decide_eq_false_2.
    2:{ intros Hnot. apply Hnot. apply elem_of_dom. by eexists. }
    unfold ret at 1, bind. rewrite Hb'. unfold ret. by rewrite Hsplit.
  - rewrite bool_decide_eq_true_2 by by apply not_elem_of_dom.
    unfold LazyTfdsLoader_name, load, bind, ret, raise.
    by rewrite Hheap'.
Qed.

Lemma Mixture_get_dataset_loop_declared all split acc w :
  Forall (fun t => list_or (_splits t) [] <> []) all ->
  Mixture_get_dataset_loop tfds_splits all split acc w =
  (Ok (acc ++ List.filter
                (fun t => bool_decide (split ∈ default [] (_splits t))) all),
   w).
Proof.
  intros Hall. revert acc.
  induction Hall as [|t all Ht _ IH]; intros acc; simpl.
  - by rewrite app_nil_r.
  - unfold bind, Task_splits.
    destruct (_splits t) as [[|s l]|] eqn:Hs; simpl in Ht; [done| |done].
    unfold ret. cbv beta iota.
    destruct (decide (split ∈ s :: l)) as [Hin|Hout].
    + rewrite bool_decide_eq_false_2.
      2:{ intros Hn. apply Hn. by apply elem_of_list_to_set. }
      rewrite (bool_decide_eq_true_2 _ Hin).
      rewrite IH. by rewrite <- app_assoc.
    + rewrite bool_decide_eq_true_2.
      2:{ intros Hn. apply Hout. by apply elem_of_list_to_set in Hn. }
      rewrite (bool_decide_eq_false_2 _ Hout). apply IH.
Qed.

(** When every task of a mixture declares its splits, the tasks that
    [Mixture.get_dataset] draws from are those that declare the split, in
    the order of the mixture and with their repetitions; the others are
    skipped without an error, and the call raises only when no task is
    left.  No metadata is loaded. *)
Theorem Mixture_get_dataset_tasks_declared (self : Mixture) (split : string) w :
  Forall (fun t => list_or (_splits t) [] <> []) (_tasks self) ->
  Mixture_get_dataset_tasks tfds_splits self split w =
  (match List.filter (fun t => bool_decide (split ∈ default [] (_splits t)))
                     (_tasks self) with
   | [] => Raise (NoAvailableTasks split)
   | tasks => Ok tasks
   end, w).
Proof.
  intros Hall. unfold Mixture_get_dataset_tasks, bind.
  rewrite Mixture_get_dataset_loop_declared by done. simpl.
  by destruct (List.filter _ _).
Qed.
End TfdsInfoFacts.

Lemma LazyTfdsLoader_size_spec_witness :
  exists b w',
    LazyTfdsLoader_builder 0 world_after_cola = (Ok b, w') /\
    LazyTfdsLoader_size glue_splits 0 "train" world_after_cola =
    (match glue_splits b !! "train" with
     | None => Raise (InvalidSplit "glue/cola:1.0.0" "train")
     | Some n => Ok (if (0 <? n)%Z then FiniteSize n else InfiniteSize)
     end, w').
Proof.
  apply (LazyTfdsLoader_size_spec
           glue_splits 0 "train" world_after_cola
           (mkLazyTfdsLoader "glue/cola:1.0.0" None None)).
  reflexivity.
Defined.

Lemma Mixture_get_dataset_tasks_declared_witness :
  fst (Mixture_get_dataset_tasks
         glue_splits
         (mkMixture [task_with_splits "a" ["train"; "validation"];
                     task_with_splits "b" ["train"];
                     task_with_splits "c" ["validation"; "test"]] ∅)
         "validation" empty_world)
  = Ok [task_with_splits "a" ["train"; "validation"];
        task_with_splits "c" ["validation"; "test"]] /\
  fst (Mixture_get_dataset_tasks
         glue_splits
         (mkMixture [task_with_splits "b" ["train"]] ∅)
         "validation" empty_world)
  = Raise (NoAvailableTasks "validation").
Proof.
  split.
  - rewrite (Mixture_get_dataset_tasks_declared
               glue_splits
               (mkMixture [task_with_splits "a" ["train"; "validation"];
                           task_with_splits "b" ["train"];
                           task_with_splits "c" ["validation"; "test"]] ∅)
               "validation" empty_world).
    + reflexivity.
    + repeat constructor; discriminate.
  - rewrite (Mixture_get_dataset_tasks_declared
               glue_splits
               (mkMixture [task_with_splits "b" ["train"]] ∅)
               "validation" empty_world).
    + reflexivity.
    + repeat constructor; discriminate.
Defined.

(* ===================================================================== *)
(** ** The cache of a [Task] *)
(* ===================================================================== *)

Lemma append_not_empty (a b : string) : a <> "" -> (a ++ b)%string <> "".
Proof. destruct a; [done|discriminate]. Qed.

Lemma os_path_join_not_empty (a b : string) : b <> "" -> os_path_join a b <> "".
Proof.
  intros Hb. unfold os_path_join.
  destruct (String.prefix "/" b); [done|].
  destruct (String.eqb a "") eqn:Ha; [done|].
  apply String.eqb_neq in Ha.
  destruct (String.eqb _ "/"); by apply append_not_empty.
Qed.

Lemma str_truthy_Some (s : string) : s <> "" -> str_truthy (Some s) = true.
Proof.
  intros Hs. simpl. apply negb_true_iff. by apply String.eqb_neq.
Qed.

Lemma find_app_Some {A} (p : A -> bool) (l1 l2 : list A) a :
  List.find p l1 = Some a -> List.find p (l1 ++ l2) = Some a.
Proof.
  induction l1 as [|x l1 IH]; [done|]. simpl. destruct (p x); auto.
Qed.

Lemma find_map_In {A B} (p : B -> bool) (f : A -> B) (l : list A) b :
  List.find p (map f l) = Some b -> exists a, b = f a.
Proof.
  induction l as [|x l IH]; [done|]. simpl. destruct (p (f x)).
  - intros [= <-]. by exists x.
  - exact IH.
Qed.

(** What [initialize] changes is [_cache_dir], from a false value to the
    directory it found. *)
Lemma Task_initialize_spec st self :
  Task_initialize st self = self \/
  exists d,
    str_truthy (_cache_dir self) = false /\
    Task_initialize st self
    = set_cache_dir (Some (os_path_join d (task_name self))) self.
Proof.
  unfold Task_initialize.
  destruct (str_truthy (_cache_dir self)) eqn:Ht; [by left|].
  destruct (List.find _ _) as [c|] eqn:Hfind; [|by left].
  right. apply find_map_In in Hfind as [d ->]. by exists d.
Qed.

(** Cache directories that are added come after the ones that are there:
    a task that is found in the cache keeps its directory. *)
Theorem add_global_cache_dirs_keeps_cache st (self : Task) dirs :
  _cache_dir self = None ->
  fst (Task_cached st self) = true ->
  Task_initialize (add_global_cache_dirs dirs st) self = Task_initialize st self.
Proof.
  intros Hnone. unfold Task_cached, Task_initialize. rewrite Hnone. simpl.
  rewrite map_app.
  destruct (List.find _ (map _ (_GLOBAL_CACHE_DIRECTORIES st))) as [c|] eqn:Hfind.
  - intros _. by rewrite (find_app_Some _ _ _ _ Hfind).
  - rewrite Hnone. intros Hc. apply bool_decide_eq_true in Hc as [? Hc].
    discriminate.
Qed.

Lemma add_global_cache_dirs_keeps_cache_witness :
  _cache_dir plain_task = None /\
  fst (Task_cached (cache_storage 7) plain_task) = true /\
  _cache_dir (Task_initialize
                (add_global_cache_dirs ["/"] (cache_storage 7)) plain_task)
  = Some "/cache/plain".
Proof.
  split; [reflexivity|]. split; [vm_compute; reflexivity|].
  rewrite (add_global_cache_dirs_keeps_cache
             (cache_storage 7) plain_task ["/"]).
  - vm_compute. reflexivity.
  - reflexivity.
  - vm_compute. reflexivity.
Defined.

Lemma find_app_None {A} (p : A -> bool) (l1 l2 : list A) :
  Forall (fun a => p a = false) l1 ->
  List.find p (l1 ++ l2) = List.find p l2.
Proof.
  induction 1 as [|a l1 Ha _ IH]; [done|]. simpl. by rewrite Ha.
Qed.

(** The cache directories are searched in the order in which they were
    given: a task that has no cache directory yet gets the first one in which
    its data is marked as completed, whatever directories come after it. *)
Theorem Task_initialize_priority st (self : Task) pre d post :
  str_truthy (_cache_dir self) = false ->
  Forall (fun d' =>
            gfile_exists st (os_path_join (os_path_join d' (task_name self))
                                          "COMPLETED") = false) pre ->
  gfile_exists st (os_path_join (os_path_join d (task_name self)) "COMPLETED")
  = true ->
  _cache_dir (Task_initialize (set_global_cache_dirs (pre ++ d :: post) st)
                              self)
  = Some (os_path_join d (task_name self)).
Proof.
  intros Hfalse Hpre Hd. unfold Task_initialize. rewrite Hfalse.
  cbn [_GLOBAL_CACHE_DIRECTORIES set_global_cache_dirs].
  rewrite map_app.
  rewrite find_app_None.
  2:{ apply Forall_map. eapply Forall_impl; [exact Hpre|].
      intros d' Hd'. exact Hd'. }
  cbn [map List.find].
  change (gfile_exists (set_global_cache_dirs (pre ++ d :: post) st))
    with (gfile_exists st).
  by rewrite Hd.
Qed.

Lemma Task_initialize_priority_witness :
  _cache_dir (Task_initialize
                (set_global_cache_dirs ["/tmp"; "/cache"; "/other"]
                                       (cache_storage 7))
                plain_task)
  = Some "/cache/plain".
Proof.
  apply (Task_initialize_priority (cache_storage 7) plain_task
                                  ["/tmp"] "/cache" ["/other"]).
  - reflexivity.
  - repeat constructor.
  - vm_compute. reflexivity.
Defined.

(** The cache directory is looked up until it is found, and never again:
    once a task with a name has been found in the cache, [initialize]
    leaves it alone, whatever becomes of the cache directories and of the
    files. *)
Theorem Task_initialize_once st st' (self : Task) :
  task_name self <> "" ->
  _cache_dir self = None ->
  fst (Task_cached st self) = true ->
  Task_initialize st' (Task_initialize st self) = Task_initialize st self.
Proof.
  intros Hname Hnone. unfold Task_cached. simpl.
  destruct (Task_initialize_spec st self) as [->|(d & _ & ->)].
  - rewrite Hnone. intros Hc. apply bool_decide_eq_true in Hc as [? Hc].
    discriminate.
  - intros _. unfold Task_initialize at 1.
    change (_cache_dir (set_cache_dir ?x _)) with x.
    by rewrite str_truthy_Some by by apply os_path_join_not_empty.
Qed.

Lemma Task_initialize_once_witness :
  task_name plain_task <> "" /\
  _cache_dir plain_task = None /\
  fst (Task_cached (cache_storage 7) plain_task) = true /\
  Task_initialize (mkStorage [] ∅) (Task_initialize (cache_storage 7) plain_task)
  = Task_initialize (cache_storage 7) plain_task.
Proof.
  split; [discriminate|]. split; [reflexivity|].
  split; [vm_compute; reflexivity|].
  apply (Task_initialize_once (cache_storage 7) (mkStorage [] ∅) plain_task).
  - discriminate.
  - reflexivity.
  - vm_compute. reflexivity.
Defined.

Lemma Task_initialize_stats st self :
  _stats (Task_initialize st self) = _stats self.
Proof. by destruct (Task_initialize_spec st self) as [->|(d & _ & ->)]. Qed.

Lemma Task_initialize_name st self :
  task_name (Task_initialize st self) = task_name self.
Proof. by destruct (Task_initialize_spec st self) as [->|(d & _ & ->)]. Qed.

Lemma Task_initialize_cached st self :
  is_Some (_cache_dir self) -> is_Some (_cache_dir (Task_initialize st self)).
Proof.
  intros Hc. destruct (Task_initialize_spec st self) as [->|(d & _ & ->)];
    [done|by eexists].
Qed.

(** The statistics of a split are read from the file once: after a call
    that returned them, every later call returns the same statistics,
    whatever becomes of the cache directories and of the files. *)
Theorem Task_get_cached_stats_memoised st st' (self : Task) split stats self' :
  Task_get_cached_stats st self split = (Ok stats, self') ->
  fst (Task_get_cached_stats st' self' split) = Ok stats.
Proof.
  intros Hget.
  assert (is_Some (_cache_dir self') /\ _stats self' !! split = Some stats)
    as [Hc Hs].
  { revert Hget.
    unfold Task_get_cached_stats, Task_cache_dir, Task_assert_cached,
      Task_cached.
    set (t := Task_initialize st self).
    case_bool_decide as Hc; [|discriminate].
    destruct (_stats t !! split) as [s0|] eqn:Hs0.
    - intros [= <- <-]. done.
    - set (t2 := Task_initialize st t).
      assert (is_Some (_cache_dir t2)) as Hc2
          by by apply Task_initialize_cached.
      rewrite (bool_decide_eq_true_2 _ Hc2).
      destruct (_cache_dir t2) as [d|] eqn:Hd; [|by destruct Hc2].
      destruct (negb _); [discriminate|].
      destruct (files st !! _) as [[c|]|]; try discriminate.
      intros [= <- <-]. simpl. rewrite Hd, lookup_insert_eq. by split. }
  unfold Task_get_cached_stats, Task_assert_cached, Task_cached.
  rewrite bool_decide_eq_true_2 by by apply Task_initialize_cached.
  by rewrite Task_initialize_stats, Hs.
Qed.

Lemma Task_get_cached_stats_memoised_witness :
  fst (Task_get_cached_stats
         (mkStorage [] ∅)
         (snd (Task_get_cached_stats (cache_storage 7) plain_task "train"))
         "train")
  = Ok (<["examples" := 7%Z]> ∅).
Proof.
  apply (Task_get_cached_stats_memoised
           (cache_storage 7) (mkStorage [] ∅) plain_task "train").
  vm_compute. reflexivity.
Defined.

(* ===================================================================== *)
(** ** [rate_num_examples]: what it raises *)
(* ===================================================================== *)

Lemma Task_get_cached_stats_not_cached st self split :
  fst (Task_cached st self) = false ->
  fst (Task_get_cached_stats st self split) = Raise (NotCached (task_name self)).
Proof.
  unfold Task_get_cached_stats, Task_assert_cached, Task_cached. simpl.
  intros ->. simpl. by rewrite Task_initialize_name.
Qed.



(* ===================================================================== *)
(** ** [Task._preprocess_dataset] and [Task._validate_dataset] *)
(* ===================================================================== *)

Lemma fold_left_Raise {F} (call : F -> Dataset -> Result Dataset) fs e :
  fold_left (fun ds prep_fn => res_bind ds (call prep_fn)) fs (Raise e)
  = Raise e.
Proof. induction fs as [|f fs IH]; [done|]. exact IH. Qed.

(** [_preprocess_dataset] applies the preprocessors from left to right,
    each to what the one before it returned: the empty list returns the
    dataset as it is; a list calls its first function on the dataset and
    goes on with the rest on what that returned, and raises what it
    raised; a single function is the list of that function, so it is called
    on the dataset; and a list that is split in two is the first part
    followed by the second. *)
Theorem _preprocess_dataset_sequence {F}
        (call : F -> Dataset -> Result Dataset) (dataset : Dataset)
        (f : F) (fs fs1 fs2 : list F) :
  _preprocess_dataset call dataset (FnList []) = Ok dataset /\
  _preprocess_dataset call dataset (FnList (f :: fs)) =
  res_bind (call f dataset)
           (fun ds => _preprocess_dataset call ds (FnList fs)) /\
  _preprocess_dataset call dataset (OneFn f)
  = _preprocess_dataset call dataset (FnList [f]) /\
  _preprocess_dataset call dataset (OneFn f) = call f dataset /\
  _preprocess_dataset call dataset (FnList (fs1 ++ fs2)) =
  res_bind (_preprocess_dataset call dataset (FnList fs1))
           (fun ds => _preprocess_dataset call ds (FnList fs2)).
Proof.
  split_and!.
  - reflexivity.
  - unfold _preprocess_dataset. cbn [fold_left res_bind].
    destruct (call f dataset) as [ds|e]; [reflexivity|].
    apply fold_left_Raise.
  - reflexivity.
  - reflexivity.
  - unfold _preprocess_dataset. rewrite fold_left_app.
    destruct (fold_left _ fs1 (Ok dataset)) as [ds|e]; [done|].
    apply fold_left_Raise.
Qed.

Lemma _preprocess_dataset_sequence_witness :
  _preprocess_dataset (fun f ds => f ds)
                      (mkDataset text_spec [Ok text_example])
                      (FnList [label_cola; label_rte])
  = Ok (mkDataset
          [("inputs", mkTensorSpec tf_string []);
           ("targets", mkTensorSpec tf_string [])]
          [Ok [("inputs", StringTensor [] ["rte: cola sentence: hello"]);
               ("targets", StringTensor [] ["cola: acceptable"])]]) /\
  _preprocess_dataset (fun f ds => f ds)
                      (mkDataset text_spec [Ok text_example])
                      (FnList [])
  = Ok (mkDataset text_spec [Ok text_example]).
Proof.
  split.
  - etrans.
    + apply (proj1 (proj2 (_preprocess_dataset_sequence
                             (fun (f : TextPreprocessor) ds => f ds)
                             (mkDataset text_spec [Ok text_example])
                             label_cola [label_rte] [] []))).
    + vm_compute. reflexivity.
  - apply (proj1 (_preprocess_dataset_sequence
                    (fun (f : TextPreprocessor) ds => f ds)
                    (mkDataset text_spec [Ok text_example])
                    label_cola [] [] [])).
Defined.

Lemma dict_get_map {V W} (g : V -> W) (d : Dict V) k :
  dict_get (map (fun kv => (fst kv, g (snd kv))) d) k = g <$> dict_get d k.
Proof.
  induction d as [|[k' v] d IH]; [done|]. simpl.
  by destruct (decide (k' = k)).
Qed.

(** The feature is described with the expected type and rank. *)
Lemma check_output_feature_Ok (ds : Dataset) ty rank label feat u :
  check_output_feature (get_output_types ds) (get_output_shapes ds)
                       ty rank label feat = Ok u <->
  exists s, dict_get (element_spec ds) feat = Some s /\
            ts_dtype s = ty /\ length (ts_shape s) = rank.
Proof.
  unfold check_output_feature, get_output_types, get_output_shapes.
  rewrite !dict_get_map.
  destruct (dict_get (element_spec ds) feat) as [s|]; simpl.
  - destruct (decide (ty <> ts_dtype s)) as [Hty|Hty].
    + split; [discriminate|]. intros (s0 & [= <-] & Hs & _). by destruct Hty.
    + apply dec_stable in Hty.
      destruct (decide (rank <> length (ts_shape s))) as [Hr|Hr].
      * split; [discriminate|]. intros (s0 & [= <-] & _ & Hs). by destruct Hr.
      * apply dec_stable in Hr. split; [|by destruct u].
        intros _. by exists s.
  - split; [discriminate|]. intros (s0 & [=] & _).
Qed.

Lemma res_mapM_unit_Ok {A} (f : A -> Result unit) (l : list A) :
  (exists us, res_mapM f l = Ok us) <-> Forall (fun a => f a = Ok tt) l.
Proof.
  induction l as [|a l IH]; simpl.
  - split; [constructor|]. by eexists.
  - destruct (f a) as [[]|e] eqn:Hfa; simpl.
    + destruct (res_mapM f l) as [us|e] eqn:Hl; simpl.
      * split; [|by eexists]. intros _. constructor; [done|].
        apply IH. by eexists.
      * split; [by intros [? ?]|]. intros H. inversion H as [|? ? _ Hl']; subst.
        apply IH in Hl' as [? ?]. discriminate.
    + split; [by intros [? ?]|]. intros H. inversion H. congruence.
Qed.

Lemma res_mapM_Raise_inv {A B} (f : A -> Result B) (l : list A) e :
  res_mapM f l = Raise e -> exists a, a ∈ l /\ f a = Raise e.
Proof.
  induction l as [|a l IH]; simpl; [discriminate|].
  destruct (f a) as [b|e'] eqn:Hfa; simpl.
  - destruct (res_mapM f l) as [bs|e'] eqn:Hl; simpl; [discriminate|].
    intros [= ->]. destruct IH as (a0 & Hin & Ha0); [done|].
    exists a0. split; [by apply list_elem_of_further|done].
  - intros [= ->]. exists a. split; [apply list_elem_of_here|done].
Qed.

Lemma dict_map_items_Raise_inv {V W} (f : string -> V -> Result W) d e :
  dict_map_items f d = Raise e -> exists k v, (k, v) ∈ d /\ f k v = Raise e.
Proof.
  unfold dict_map_items. intros (kv & Hin & Hkv)%res_mapM_Raise_inv.
  destruct kv as [k v]. exists k, v. split; [done|]. simpl in Hkv.
  destruct (f k v) as [w|e']; simpl in Hkv; [discriminate|].
  by injection Hkv as ->.
Qed.

Lemma dict_get_elem_of {V} (d : Dict V) k v :
  NoDup (map fst d) -> (k, v) ∈ d -> dict_get d k = Some v.
Proof.
  induction d as [|[k' v'] d IH]; intros Hnd Hin.
  - by apply elem_of_nil in Hin.
  - simpl in *. apply NoDup_cons in Hnd as [Hk' Hnd].
    apply elem_of_cons in Hin as [[= -> ->]|Hin].
    + by rewrite decide_True.
    + rewrite decide_False; [by apply IH|].
      intros ->. apply Hk'. apply list_elem_of_In, in_map_iff.
      exists (k, v). split; [done|]. by apply list_elem_of_In.
Qed.

Lemma dict_map_items_total {V W} (f : string -> V -> Result W) (d : Dict V) :
  (forall k v, (k, v) ∈ d -> exists w, f k v = Ok w) ->
  exists d', dict_map_items f d = Ok d'.
Proof.
  intros Hall. destruct (dict_map_items f d) as [d'|e] eqn:Hd; [by eexists|].
  apply dict_map_items_Raise_inv in Hd as (k & v & Hin & Hk).
  destruct (Hall k v Hin) as [w Hw]. congruence.
Qed.

Lemma dict_map_items_id {V} (f : string -> V -> Result V) (d d' : Dict V) :
  (forall k v v', f k v = Ok v' -> v' = v) ->
  dict_map_items f d = Ok d' -> d' = d.
Proof.
  intros Hid Hd. apply dict_map_items_Ok in Hd.
  induction Hd as [|[k v] [k' v'] d d' [Hk Hv] _ IH]; [done|].
  simpl in *. subst k'. apply Hid in Hv as ->. by rewrite IH.
Qed.

(** [_validate_dataset] returns exactly when the description of the
    dataset has every output feature of the task with the expected type and
    rank.  What it returns has the description of the dataset and as many
    elements, and is the dataset itself when the EOS check is not asked
    for.  This is so of the call that [preprocess_text] makes and, where
    the description has its keys once, of the call with the EOS check that
    [preprocess_tokens] makes of vectors of int64. *)
Theorem _validate_dataset_returns (self : Task) (dataset : Dataset)
        ty rank label (ensure_no_eos : bool) :
  ensure_no_eos = false \/
  (ty = tf_int64 /\ NoDup (map fst (element_spec dataset))) ->
  ((exists out,
       _validate_dataset self dataset ty rank label ensure_no_eos = Ok out) <->
   Forall (fun feat =>
             exists s, dict_get (element_spec dataset) feat = Some s /\
                       ts_dtype s = ty /\ length (ts_shape s) = rank)
          (_output_features self)) /\
  (forall out,
      _validate_dataset self dataset ty rank label ensure_no_eos = Ok out ->
      element_spec out = element_spec dataset /\
      length (dataset_elements out) = length (dataset_elements dataset) /\
      (ensure_no_eos = false -> out = dataset)).
Proof.
  intros Hcase. unfold _validate_dataset.
  assert (Forall (fun feat =>
                    exists s, dict_get (element_spec dataset) feat = Some s /\
                              ts_dtype s = ty /\ length (ts_shape s) = rank)
                 (_output_features self) <->
          exists us,
            res_mapM (check_output_feature
                        (get_output_types dataset) (get_output_shapes dataset)
                        ty rank label)
                     (_output_features self) = Ok us) as Hchk.
  { rewrite res_mapM_unit_Ok. apply Forall_iff. intros feat.
    by rewrite check_output_feature_Ok. }
  destruct (res_mapM _ (_output_features self)) as [us|e] eqn:Hm;
    cbn [res_bind].
  2:{ split; [|discriminate]. rewrite Hchk.
      split; [by intros [? ?]|]. by intros [? ?]. }
  assert (Forall (fun feat =>
                    exists s, dict_get (element_spec dataset) feat = Some s /\
                              ts_dtype s = ty /\ length (ts_shape s) = rank)
                 (_output_features self)) as Hall
      by (apply Hchk; by eexists).
  destruct ensure_no_eos.
  - destruct Hcase as [|[-> Hnd]]; [discriminate|].
    unfold Dataset_map.
    destruct (dict_map_items_total (_ensure_no_eos_traced self)
                                   (element_spec dataset)) as [spec1 Hspec1].
    { intros k s Hin. unfold _ensure_no_eos_traced.
      case_bool_decide as Hout; [by eexists|].
      assert (k ∈ _output_features self) as Hfeat
          by (destruct (decide (k ∈ _output_features self)); done).
      rewrite Forall_forall in Hall.
      destruct (Hall k Hfeat) as (s' & Hget & Hty & _).
      rewrite (dict_get_elem_of _ _ _ Hnd Hin) in Hget.
      injection Hget as <-. rewrite decide_True by done. by eexists. }
    rewrite Hspec1. cbn [res_bind].
    apply dict_map_items_id in Hspec1.
    2:{ intros k v v'. unfold _ensure_no_eos_traced.
        case_bool_decide; [by intros [= <-]|].
        destruct (decide (ts_dtype v = tf_int64)); [by intros [= <-]|].
        discriminate. }
    subst spec1. split.
    + split; [done|]. intros _. by eexists.
    + intros out [= <-]. cbn [element_spec dataset_elements].
      split; [done|]. split; [by rewrite length_map|]. discriminate.
  - split.
    + split; [done|]. intros _. by eexists.
    + by intros out [= <-].
Qed.

Lemma _validate_dataset_returns_witness :
  (exists out,
      _validate_dataset plain_task (dataset_of example_567) tf_int64 1
                        "token preprocessing" true = Ok out) /\
  ~ (exists out,
        _validate_dataset plain_task (dataset_of example_567) tf_string 0
                          "text preprocessing" false = Ok out).
Proof.
  split.
  - apply (proj1 (_validate_dataset_returns
                    plain_task (dataset_of example_567) tf_int64 1
                    "token preprocessing" true
                    ltac:(right; split;
                          [reflexivity
                          |apply (bool_decide_unpack _); vm_compute;
                           reflexivity]))).
    repeat constructor; eexists; (split; [reflexivity|]); split; reflexivity.
  - intros Hout.
    apply (proj1 (_validate_dataset_returns
                    plain_task (dataset_of example_567) tf_string 0
                    "text preprocessing" false
                    ltac:(left; reflexivity))) in Hout.
    apply Forall_cons in Hout as [(s & Hs & Hty & _) _].
    injection Hs as <-. discriminate Hty.
Defined.

(* ===================================================================== *)
(** ** [Task.preprocess_text] *)
(* ===================================================================== *)

(** [preprocess_text] returns what the text preprocessors returned,
    unchanged, and it returns exactly when they return a dataset whose
    description has every output feature of the task as a string of rank
    0. *)
Theorem Task_preprocess_text_returns (self : Task) (dataset out : Dataset) :
  Task_preprocess_text self dataset = Ok out <->
  _preprocess_dataset (fun f ds => f ds) dataset (_text_preprocessor self)
  = Ok out /\
  Forall (fun feat =>
            exists s, dict_get (element_spec out) feat = Some s /\
                      ts_dtype s = tf_string /\ ts_shape s = [])
         (_output_features self).
Proof.
  unfold Task_preprocess_text.
  destruct (_preprocess_dataset (fun f ds => f ds) dataset
                                (_text_preprocessor self)) as [mid|e]; simpl.
  2:{ split; [discriminate|]. by intros [? _]. }
  unfold _validate_dataset.
  assert (forall ds : Dataset,
             Forall (fun feat =>
                       exists s, dict_get (element_spec ds) feat = Some s /\
                                 ts_dtype s = tf_string /\ ts_shape s = [])
                    (_output_features self) <->
             exists us,
               res_mapM (check_output_feature
                           (get_output_types ds) (get_output_shapes ds)
                           tf_string 0 "text preprocessing")
                        (_output_features self) = Ok us) as Hchk.
  { intros ds. rewrite res_mapM_unit_Ok. apply Forall_iff. intros feat.
    rewrite check_output_feature_Ok.
    split; intros (s & Hs & Hty & Hsh); exists s; split_and!; try done.
    - by rewrite Hsh.
    - by destruct (ts_shape s). }
  split.
  - destruct (res_mapM _ (_output_features self)) as [us|e] eqn:Hm; simpl;
      [|discriminate].
    intros [= <-]. split; [done|]. apply Hchk. by eexists.
  - intros [[= <-] Hall]. apply Hchk in Hall as [us ->]. done.
Qed.

(* ===================================================================== *)
(** ** [Task.preprocess_tokens]: the description of the result *)
(* ===================================================================== *)

(** The length that is known of a trimmed feature, for a sequence length
    of 1 or more. *)
Lemma trimmed_dim_Some (len : Z) (n : nat) :
  (1 <= len)%Z ->
  trimmed_dim len (Some n) = Some (Z.to_nat (Z.min len (Z.of_nat n + 1))).
Proof.
  intros Hlen. unfold trimmed_dim, static_slice_length. simpl. f_equal.
  destruct (len - 1 <? 0)%Z eqn:Hneg; [apply Z.ltb_lt in Hneg; lia|].
  lia.
Qed.

(** What the EOS check and the trimming make of the description of one
    feature, when both are traced without an error. *)
Lemma traced_item (self : Task) (sl : gmap string Z) k s s1 s2 :
  _ensure_no_eos_traced self k s = Ok s1 ->
  _trim_and_append_eos_traced self sl k s1 = Ok s2 ->
  traced_spec_item self sl (k, s) (k, s2).
Proof.
  unfold _ensure_no_eos_traced, _trim_and_append_eos_traced, traced_spec_item.
  simpl. case_bool_decide as Hout.
  - intros [= <-] [= <-]. split; [done|]. split; [done|]. intros Hin. done.
  - destruct (decide (ts_dtype s = tf_int64)) as [Hty|]; [|discriminate].
    intros [= <-]. destruct (sl !! k) as [len|]; [|discriminate].
    rewrite Hty. destruct (ts_shape s) as [|d [|? ?]] eqn:Hsh;
      try discriminate.
    intros [= <-]. split; [done|]. split; [done|]. intros _.
    exists len, d. split; [done|]. split; [|done].
    destruct s as [ty sh]. simpl in *. by subst.
Qed.

Lemma traced_spec_get (self : Task) (sl : gmap string Z) spec spec' k s :
  Forall2 (traced_spec_item self sl) spec spec' ->
  dict_get spec k = Some s ->
  exists s', dict_get spec' k = Some s' /\
             traced_spec_item self sl (k, s) (k, s').
Proof.
  induction 1 as [|[k0 s0] [k0' s0'] spec spec' Hit _ IH]; [done|].
  simpl. pose proof Hit as [Hk _]. simpl in Hk. subst k0'.
  destruct (decide (k0 = k)) as [->|Hne].
  - intros [= ->]. by exists s0'.
  - exact IH.
Qed.

(** When [preprocess_tokens] returns, the result has as many elements as
    the token preprocessors returned and the same features in the same
    order; the features that are not output features keep their
    description.  Every output feature of the task has a sequence length
    and was a vector of int64, and is one in the result: of unknown length
    when its length was unknown, and else of the length of its slice and one
    more, which for a sequence length of 1 or more is the smaller of the
    sequence length and the length it had plus one. *)
Theorem Task_preprocess_tokens_spec (self : Task) (dataset : Dataset)
        (sequence_length : gmap string Z) (out : Dataset) :
  Task_preprocess_tokens self dataset sequence_length = Ok out ->
  exists mid,
    token_preprocessing_stage self dataset sequence_length = Ok mid /\
    length (dataset_elements out) = length (dataset_elements mid) /\
    Forall2 (fun ks ks' =>
               fst ks' = fst ks /\
               (fst ks ∉ _output_features self -> snd ks' = snd ks))
            (element_spec mid) (element_spec out) /\
    Forall (fun feat =>
              exists len d,
                sequence_length !! feat = Some len /\
                dict_get (element_spec mid) feat
                = Some (mkTensorSpec tf_int64 [d]) /\
                dict_get (element_spec out) feat
                = Some (mkTensorSpec tf_int64 [trimmed_dim len d]) /\
                (d = None -> trimmed_dim len d = None) /\
                (forall n,
                    d = Some n -> (1 <= len)%Z ->
                    trimmed_dim len d
                    = Some (Z.to_nat (Z.min len (Z.of_nat n + 1)))))
           (_output_features self).
Proof.
  unfold Task_preprocess_tokens, token_preprocessing_stage.
  destruct (_preprocess_dataset
              (fun f ds0 => f ds0 sequence_length (Task_get_vocabulary self))
              dataset (_token_preprocessor self)) as [mid|e];
    [|discriminate].
  simpl. unfold _validate_dataset.
  destruct (res_mapM
              (check_output_feature (get_output_types mid)
                 (get_output_shapes mid) tf_int64 1 "token preprocessing")
              (_output_features self)) as [u|e] eqn:Hchk; [|discriminate].
  simpl. unfold Dataset_map.
  destruct (dict_map_items (_ensure_no_eos_traced self) (element_spec mid))
    as [spec1|e] eqn:Hspec1; [|discriminate].
  simpl.
  destruct (dict_map_items
              (_trim_and_append_eos_traced self sequence_length) spec1)
    as [spec2|e] eqn:Hspec2; [|discriminate].
  simpl. intros [= <-]. exists mid. split; [done|]. simpl.
  split; [by rewrite !length_map|].
  assert (Forall2 (traced_spec_item self sequence_length)
                  (element_spec mid) spec2) as Hitems.
  { apply dict_map_items_Ok in Hspec1. apply dict_map_items_Ok in Hspec2.
    clear -Hspec1 Hspec2. revert spec2 Hspec2.
    induction Hspec1 as [|[k s] [k1 s1] spec spec1 [Hk Hs] _ IH];
      intros spec2 Hspec2.
    - inversion Hspec2. constructor.
    - inversion Hspec2 as [|? [k2 s2] ? spec2' [Hk2 Hs2] Hrest]; subst.
      simpl in *. subst k1.
      constructor; [|by eapply IH].
      pose proof (traced_item self sequence_length k s s1 s2 Hs Hs2) as Hit.
      destruct Hit as (_ & Hout & Hin). split; [done|]. split; done. }
  split.
  - eapply Forall2_impl; [exact Hitems|]. intros ks ks' (Hk & Hout & _). done.
  - assert (Forall (fun a => check_output_feature
                               (get_output_types mid) (get_output_shapes mid)
                               tf_int64 1 "token preprocessing" a = Ok tt)
                   (_output_features self)) as Hall
        by (apply res_mapM_unit_Ok; by eexists).
    rewrite Forall_forall in Hall |- *. intros feat Hfeat.
    specialize (Hall feat Hfeat).
    apply check_output_feature_Ok in Hall as (s & Hget & _).
    destruct (traced_spec_get self sequence_length _ _ _ _ Hitems Hget)
      as (s' & Hget' & _ & _ & Hin).
    simpl in Hin. destruct (Hin Hfeat) as (len & d & Hlen & -> & ->).
    exists len, d. split_and!; try done.
    + by intros ->.
    + intros n -> Hone. by apply trimmed_dim_Some.
Qed.

Lemma Task_preprocess_tokens_spec_witness :
  exists out,
    Task_preprocess_tokens plain_task (static_dataset_of example_567)
                           (lengths 2 4) = Ok out /\
    element_spec out = [("inputs", mkTensorSpec tf_int64 [Some 2]);
                        ("targets", mkTensorSpec tf_int64 [Some 2]);
                        ("idx", mkTensorSpec tf_int64 [Some 2])] /\
    exists mid,
      token_preprocessing_stage plain_task (static_dataset_of example_567)
                                (lengths 2 4) = Ok mid /\
      length (dataset_elements out) = length (dataset_elements mid) /\
      Forall (fun feat =>
                exists len d,
                  lengths 2 4 !! feat = Some len /\
                  dict_get (element_spec mid) feat
                  = Some (mkTensorSpec tf_int64 [d]) /\
                  dict_get (element_spec out) feat
                  = Some (mkTensorSpec tf_int64 [trimmed_dim len d]))
             (_output_features plain_task).
Proof.
  assert (exists out,
             Task_preprocess_tokens plain_task (static_dataset_of example_567)
                                    (lengths 2 4) = Ok out /\
             element_spec out = [("inputs", mkTensorSpec tf_int64 [Some 2]);
                                 ("targets", mkTensorSpec tf_int64 [Some 2]);
                                 ("idx", mkTensorSpec tf_int64 [Some 2])])
    as (out & Hout & Hspec).
  { eexists. split; [vm_compute; reflexivity|]. reflexivity. }
  exists out. split; [exact Hout|]. split; [exact Hspec|].
  destruct (Task_preprocess_tokens_spec
              plain_task (static_dataset_of example_567) (lengths 2 4) out
              Hout) as (mid & Hmid & Hlen & _ & Hfeat).
  exists mid. split; [exact Hmid|]. split; [exact Hlen|].
  eapply Forall_impl; [exact Hfeat|].
  intros feat (len & d & H1 & H2 & H3 & _). exists len, d.
  split; [exact H1|]. split; [exact H2|]. exact H3.
Defined.

(* ===================================================================== *)
(** ** [TaskRegistry.add]: what it changes *)
(* ===================================================================== *)

Lemma LazyTfdsLoader_call_override name data_dir w :
  _TFDS_DATA_DIR_OVERRIDE (snd (LazyTfdsLoader_call name data_dir w))
  = _TFDS_DATA_DIR_OVERRIDE w.
Proof.
  unfold LazyTfdsLoader_call, LazyTfdsLoader__new__, LazyTfdsLoader__init__,
    store, object__new__, bind, gets, modify, ret, raise. simpl.
  destruct (_MEMOIZED_INSTANCES w !! (name, data_dir)) eqn:Hm; simpl.
  - by rewrite Hm.
  - by rewrite lookup_insert_eq.
Qed.

(** A construction that returns has constructed the loader, and nothing
    else has happened to the world. *)
Lemma Task_init_world ua ud name (a : TaskArgs) w t w' :
  Task_init ua ud name a w = (Ok t, w') ->
  w' = snd (LazyTfdsLoader_call (arg_tfds_name a) (arg_tfds_data_dir a) w) /\
  task_name t = name.
Proof.
  unfold Task_init.
  destruct (valid_task_name ua ud name); [|discriminate].
  destruct (str_contains ":" (arg_tfds_name a)); [|discriminate].
  simpl. unfold bind.
  destruct (LazyTfdsLoader_call (arg_tfds_name a) (arg_tfds_data_dir a) w)
    as [[l|e] w1]; [|discriminate].
  unfold ret. by intros [= <- <-].
Qed.

(** The structure of a registration that returns. *)
Lemma TaskRegistry_add_ok_inv ua ud name kwargs w w' :
  TaskRegistry_add ua ud name kwargs w = (Ok tt, w') ->
  TaskRegistry_REGISTRY w !! name = None /\
  exists t w1,
    Task_init ua ud name kwargs w = (Ok t, w1) /\
    w' = set_TaskRegistry_REGISTRY (<[name := t]> (TaskRegistry_REGISTRY w1)) w1.
Proof.
  unfold TaskRegistry_add. intros Hadd.
  apply add_ok_inv in Hadd as (Hnone & provider & t & w1 & Hc & Hp & ->).
  split; [exact Hnone|].
  unfold bind in Hc.
  destruct (Task_init ua ud name kwargs w) as [[t0|e] w0] eqn:Hinit;
    [|discriminate].
  unfold ret in Hc. assert (provider = TaskObject t0) as -> by congruence.
  assert (w0 = w1) as -> by congruence.
  simpl in Hp. assert (t0 = t) as -> by congruence.
  by exists t, w1.
Qed.

(** A registration that raises leaves the world as it was. *)
Lemma TaskRegistry_add_Raise_world ua ud name kwargs w e w' :
  TaskRegistry_add ua ud name kwargs w = (Raise e, w') -> w' = w.
Proof.
  unfold TaskRegistry_add.
  destruct (TaskRegistry_REGISTRY w !! name) as [t0|] eqn:Hreg.
  - rewrite (add_duplicate TaskRegistry) by (simpl; rewrite Hreg; eauto).
    by intros [= _ <-].
  - rewrite (add_fresh TaskRegistry) by done. unfold bind.
    destruct (Task_init ua ud name kwargs w) as [[t|e0] w0] eqn:Hinit.
    + unfold ret. simpl. discriminate.
    + intros [= _ <-]. revert Hinit. unfold Task_init.
      destruct (valid_task_name ua ud name); simpl; [|by intros [= _ <-]].
      destruct (str_contains ":" (arg_tfds_name kwargs)); simpl;
        [|by intros [= _ <-]].
      unfold bind.
      destruct (LazyTfdsLoader_call_spec
                  (arg_tfds_name kwargs) (arg_tfds_data_dir kwargs) w)
        as (l & w1 & -> & _). discriminate.
Qed.

Lemma registry_inv_empty : registry_inv empty_world.
Proof. intros k t. simpl. rewrite lookup_empty. discriminate. Qed.

Lemma TaskRegistry_add_registry_inv ua ud name kwargs w :
  registry_inv w -> registry_inv (snd (TaskRegistry_add ua ud name kwargs w)).
Proof.
  intros Hinv.
  destruct (TaskRegistry_add ua ud name kwargs w) as [[[]|e] w'] eqn:Hadd.
  - apply TaskRegistry_add_ok_inv in Hadd as (_ & t & w1 & Hinit & ->).
    pose proof (Task_init_normalised _ _ _ _ _ _ _ Hinit) as Hnorm.
    destruct (Task_init_inv _ _ _ _ _ _ _ Hinit) as [Hn Hcol].
    destruct (Task_init_ok ua ud name kwargs w Hn Hcol)
      as (t1 & w1' & E & Hname & _ & _ & Hreg & _).
    rewrite E in Hinit.
    assert (t1 = t) as -> by congruence.
    assert (w1' = w1) as -> by congruence.
    intros k t'. simpl. rewrite Hreg.
    destruct (decide (k = name)) as [->|Hne].
    + rewrite lookup_insert_eq. by intros [= <-].
    + rewrite lookup_insert_ne by done. apply Hinv.
  - apply TaskRegistry_add_Raise_world in Hadd as ->. exact Hinv.
Qed.

(** A registration of a task that returns adds the new task under the new
    name, which was free, and changes no other entry of the registry of
    tasks, nothing in the registry of mixtures and no data directory
    override.  The task is registered under its own name with its output
    features sorted and without repetitions; if that was so of all the
    registered tasks, it still is, and the memo table of the loaders still
    has one key for one object. *)
Theorem TaskRegistry_add_frame ua ud name kwargs w w' :
  TaskRegistry_add ua ud name kwargs w = (Ok tt, w') ->
  TaskRegistry_REGISTRY w !! name = None /\
  (exists t,
      TaskRegistry_REGISTRY w' = <[name := t]> (TaskRegistry_REGISTRY w) /\
      task_name t = name /\ features_normalised t) /\
  MixtureRegistry_REGISTRY w' = MixtureRegistry_REGISTRY w /\
  _TFDS_DATA_DIR_OVERRIDE w' = _TFDS_DATA_DIR_OVERRIDE w /\
  (registry_inv w -> registry_inv w') /\
  (loader_inv w -> loader_inv w').
Proof.
  intros Hadd.
  pose proof (TaskRegistry_add_registry_inv ua ud name kwargs w) as Hrinv.
  rewrite Hadd in Hrinv. simpl in Hrinv.
  apply TaskRegistry_add_ok_inv in Hadd as (Hnone & t & w1 & Hinit & ->).
  pose proof (Task_init_normalised _ _ _ _ _ _ _ Hinit) as Hnorm.
  destruct (Task_init_world _ _ _ _ _ _ _ Hinit) as [Hw1 Hname].
  destruct (LazyTfdsLoader_call_spec
              (arg_tfds_name kwargs) (arg_tfds_data_dir kwargs) w)
    as (l & w1' & E & _ & _ & _ & Hreg & Hmix).
  pose proof (LazyTfdsLoader_call_override
                (arg_tfds_name kwargs) (arg_tfds_data_dir kwargs) w) as Hov.
  pose proof (LazyTfdsLoader_call_inv
                (arg_tfds_name kwargs) (arg_tfds_data_dir kwargs) w) as Hlinv.
  rewrite E in Hw1, Hov, Hlinv. simpl in Hw1, Hov, Hlinv. subst w1'.
  split; [exact Hnone|]. split.
  { exists t. simpl. by rewrite Hreg. }
  split; [exact Hmix|]. split; [exact Hov|]. split; [exact Hrinv|].
  intros Hl. apply Hlinv in Hl. exact Hl.
Qed.

Lemma TaskRegistry_add_frame_witness :
  TaskRegistry_REGISTRY world_with_cola !! "rte" = None /\
  (exists t,
      TaskRegistry_REGISTRY world_with_cola_rte
      = <["rte" := t]> (TaskRegistry_REGISTRY world_with_cola) /\
      task_name t = "rte" /\ features_normalised t) /\
  MixtureRegistry_REGISTRY world_with_cola_rte
  = MixtureRegistry_REGISTRY world_with_cola /\
  _TFDS_DATA_DIR_OVERRIDE world_with_cola_rte
  = _TFDS_DATA_DIR_OVERRIDE world_with_cola /\
  (registry_inv world_with_cola -> registry_inv world_with_cola_rte) /\
  (loader_inv world_with_cola -> loader_inv world_with_cola_rte).
Proof.
  apply (TaskRegistry_add_frame ascii_only ascii_only "rte" rte_args
                                world_with_cola world_with_cola_rte).
  vm_compute. reflexivity.
Defined.

(** After a registration of a task that returned, [names] lists the new
    name, which it did not list before, besides the names that were there,
    and [get] returns for every other name what it returned before, a task
    or [NotFound]. *)
Theorem TaskRegistry_names_after_add ua ud name kwargs w w' :
  TaskRegistry_add ua ud name kwargs w = (Ok tt, w') ->
  fst (DatasetProviderRegistry_names TaskRegistry w)
  = Ok (dom (TaskRegistry_REGISTRY w)) /\
  (name ∉ dom (TaskRegistry_REGISTRY w)) /\
  fst (DatasetProviderRegistry_names TaskRegistry w')
  = Ok ({[name]} ∪ dom (TaskRegistry_REGISTRY w)) /\
  forall other,
    other <> name ->
    fst (DatasetProviderRegistry_get TaskRegistry other w')
    = fst (DatasetProviderRegistry_get TaskRegistry other w).
Proof.
  intros Hadd.
  apply TaskRegistry_add_ok_inv in Hadd as (Hnone & t & w1 & Hinit & ->).
  destruct (Task_init_inv _ _ _ _ _ _ _ Hinit) as [Hn Hcol].
  destruct (Task_init_ok ua ud name kwargs w Hn Hcol)
    as (t1 & w1' & E & _ & _ & _ & Hreg & _).
  rewrite E in Hinit. assert (w1' = w1) as -> by congruence.
  split; [reflexivity|]. split; [by apply not_elem_of_dom|].
  unfold DatasetProviderRegistry_names, DatasetProviderRegistry_get,
    bind, gets. simpl. rewrite Hreg. split.
  - by rewrite dom_insert_L.
  - intros other Hne. rewrite lookup_insert_ne by done.
    by destruct (TaskRegistry_REGISTRY w !! other).
Qed.

Lemma TaskRegistry_names_after_add_witness :
  fst (DatasetProviderRegistry_names TaskRegistry world_with_cola_rte)
  = Ok ({["rte"]} ∪ dom (TaskRegistry_REGISTRY world_with_cola)) /\
  fst (DatasetProviderRegistry_get TaskRegistry "cola" world_with_cola_rte)
  = fst (DatasetProviderRegistry_get TaskRegistry "cola" world_with_cola).
Proof.
  destruct (TaskRegistry_names_after_add
              ascii_only ascii_only "rte" rte_args
              world_with_cola world_with_cola_rte)
    as (_ & _ & Hnames & Hget).
  - vm_compute. reflexivity.
  - split; [exact Hnames|]. apply Hget. discriminate.
Defined.

(** A registration of a task that raises has changed nothing: no task is
    registered and no loader is created.  It raises
    [DuplicateRegistration] for a name that is taken, whatever the name and
    the arguments are; for a free name it raises what the constructor
    raises, [InvalidName] or else [MissingVersion]. *)
Theorem TaskRegistry_add_failure ua ud name kwargs w e w' :
  TaskRegistry_add ua ud name kwargs w = (Raise e, w') ->
  w' = w /\
  ((is_Some (TaskRegistry_REGISTRY w !! name) /\
    e = DuplicateRegistration name) \/
   (TaskRegistry_REGISTRY w !! name = None /\
    valid_task_name ua ud name = false /\ e = InvalidName name) \/
   (TaskRegistry_REGISTRY w !! name = None /\
    valid_task_name ua ud name = true /\
    str_contains ":" (arg_tfds_name kwargs) = false /\
    e = MissingVersion (arg_tfds_name kwargs))).
Proof.
  unfold TaskRegistry_add.
  destruct (TaskRegistry_REGISTRY w !! name) as [t0|] eqn:Hreg.
  - rewrite (add_duplicate TaskRegistry) by (simpl; rewrite Hreg; eauto).
    intros [= <- <-]. split; [done|]. left. split; [by eexists|done].
  - rewrite (add_fresh TaskRegistry) by done. unfold bind, Task_init.
    destruct (valid_task_name ua ud name); simpl.
    + destruct (str_contains ":" (arg_tfds_name kwargs)); simpl.
      * unfold bind.
        destruct (LazyTfdsLoader_call_spec
                    (arg_tfds_name kwargs) (arg_tfds_data_dir kwargs) w)
          as (l & w1 & -> & _). simpl. discriminate.
      * intros [= <- <-]. split; [done|]. right. right. done.
    + intros [= <- <-]. split; [done|]. right. left. done.
Qed.

Lemma TaskRegistry_add_failure_witness :
  TaskRegistry_add ascii_only ascii_only "super glue"
                   (mkTaskArgs "super_glue/rte" None "sp.model" None None
                               None None)
                   world_with_cola
  = (Raise (InvalidName "super glue"), world_with_cola) /\
  TaskRegistry_add ascii_only ascii_only "super_glue"
                   (mkTaskArgs "super_glue/rte" None "sp.model" None None
                               None None)
                   world_with_cola
  = (Raise (MissingVersion "super_glue/rte"), world_with_cola).
Proof.
  split.
  - destruct (TaskRegistry_add_failure
                ascii_only ascii_only "super glue"
                (mkTaskArgs "super_glue/rte" None "sp.model" None None
                            None None)
                world_with_cola (InvalidName "super glue") world_with_cola)
      as [_ _]; reflexivity.
  - destruct (TaskRegistry_add_failure
                ascii_only ascii_only "super_glue"
                (mkTaskArgs "super_glue/rte" None "sp.model" None None
                            None None)
                world_with_cola (MissingVersion "super_glue/rte")
                world_with_cola)
      as [_ _]; reflexivity.
Defined.

(* ===================================================================== *)
(** ** [Mixture.__init__]: entries, rates and the world *)
(* ===================================================================== *)

(** One step of the loop, on an entry that resolves and on one that does
    not. *)
Lemma Mixture_init_loop_cons e tasks default_rate self w :
  Mixture_init_loop (e :: tasks) default_rate self w =
  match entry_rate default_rate e with
  | None => (Raise MissingRate, w)
  | Some r =>
      match TaskRegistry_REGISTRY w !! entry_name e with
      | None => (Raise (NotFound (entry_name e)), w)
      | Some t =>
          Mixture_init_loop tasks default_rate
            {| _tasks := _tasks self ++ [t];
               _task_to_rate := <[entry_name e := r]> (_task_to_rate self) |}
            w
      end
  end.
Proof.
  simpl. unfold bind.
  destruct e as [n|n r0]; simpl.
  - destruct default_rate as [r|]; simpl; [|done].
    unfold DatasetProviderRegistry_get, bind, gets, ret, raise. simpl.
    by destruct (TaskRegistry_REGISTRY w !! n).
  - unfold DatasetProviderRegistry_get, bind, gets, ret, raise. simpl.
    by destruct (TaskRegistry_REGISTRY w !! n).
Qed.

Lemma Mixture_init_loop_world tasks default_rate self w :
  snd (Mixture_init_loop tasks default_rate self w) = w.
Proof.
  revert self. induction tasks as [|e tasks IH]; intros self; [done|].
  rewrite Mixture_init_loop_cons.
  destruct (entry_rate default_rate e); [|done].
  destruct (TaskRegistry_REGISTRY w !! entry_name e); [|done].
  apply IH.
Qed.

Lemma Mixture_init_world tasks default_rate w :
  snd (Mixture_init tasks default_rate w) = w.
Proof.
  unfold Mixture_init, bind.
  pose proof (Mixture_init_loop_world tasks default_rate
                {| _tasks := []; _task_to_rate := ∅ |} w) as Hw.
  destruct (Mixture_init_loop _ _ _ w) as [[m|e] w0]; simpl in Hw; subst;
    [|done].
  destruct (negb _); [done|]. by destruct (negb _).
Qed.

Lemma Mixture_init_loop_rates tasks default_rate self w m w' :
  Mixture_init_loop tasks default_rate self w = (Ok m, w') ->
  _task_to_rate m = rates_of default_rate tasks (_task_to_rate self).
Proof.
  revert self. induction tasks as [|e tasks IH]; intros self.
  - simpl. by intros [= <- _].
  - rewrite Mixture_init_loop_cons. unfold rates_of. simpl.
    destruct (entry_rate default_rate e) as [r|]; [|discriminate].
    destruct (TaskRegistry_REGISTRY w !! entry_name e) as [t|];
      [|discriminate].
    intros Hloop. by apply IH in Hloop.
Qed.

Lemma rates_of_other default_rate tasks init k :
  k ∉ map entry_name tasks ->
  rates_of default_rate tasks init !! k = init !! k.
Proof.
  revert init. induction tasks as [|e tasks IH]; intros init Hk; [done|].
  unfold rates_of. simpl.
  apply not_elem_of_cons in Hk as [Hne Hk].
  etrans; [apply IH; exact Hk|].
  destruct (entry_rate default_rate e); [|done].
  by rewrite lookup_insert_ne.
Qed.

Lemma rates_of_last default_rate pre e post init r :
  entry_rate default_rate e = Some r ->
  entry_name e ∉ map entry_name post ->
  rates_of default_rate (pre ++ e :: post) init !! entry_name e = Some r.
Proof.
  intros Hr Hpost. unfold rates_of. rewrite fold_left_app. simpl.
  rewrite Hr. etrans; [apply rates_of_other; exact Hpost|].
  apply lookup_insert_eq.
Qed.

Lemma Mixture_init_loop_bad pre e post default_rate self w ts :
  Forall2 (entry_resolves default_rate w) pre ts ->
  (forall t, ~ entry_resolves default_rate w e t) ->
  Mixture_init_loop (pre ++ e :: post) default_rate self w
  = (Raise (entry_error default_rate e), w).
Proof.
  intros Hpre Hbad. revert self.
  induction Hpre as [|e0 t0 pre ts [[r Hr] Ht] _ IH]; intros self.
  - simpl app. rewrite Mixture_init_loop_cons. unfold entry_error.
    destruct (entry_rate default_rate e) as [r|] eqn:Hr; [|done].
    destruct (TaskRegistry_REGISTRY w !! entry_name e) as [t|] eqn:Ht; [|done].
    destruct (Hbad t). split; [by eexists|done].
  - simpl app. rewrite Mixture_init_loop_cons, Hr, Ht. apply IH.
Qed.

(** The entries are resolved in order, before the tasks are compared: at
    the first entry that has no rate or names no registered task, the
    constructor raises [MissingRate] or [NotFound] with that name, the rate
    being looked at first; whatever comes after that entry plays no part.
    The world is left as it was. *)
Theorem Mixture_init_bad_entry pre e post default_rate w ts :
  Forall2 (entry_resolves default_rate w) pre ts ->
  (forall t, ~ entry_resolves default_rate w e t) ->
  Mixture_init (pre ++ e :: post) default_rate w
  = (Raise (entry_error default_rate e), w).
Proof.
  intros Hpre Hbad. unfold Mixture_init, bind.
  by rewrite (Mixture_init_loop_bad pre e post default_rate _ w ts).
Qed.

Lemma Mixture_init_bad_entry_witness :
  Mixture_init [TaskWithRate "cola" (RateNumber 3%float); TaskName "mnli";
                TaskName "rte"]
               None world_with_cola_rte
  = (Raise MissingRate, world_with_cola_rte) /\
  Mixture_init [TaskWithRate "cola" (RateNumber 3%float); TaskName "mnli";
                TaskName "rte"]
               (Some (RateNumber 1%float)) world_with_cola_rte
  = (Raise (NotFound "mnli"), world_with_cola_rte).
Proof.
  split.
  - apply (Mixture_init_bad_entry
             [TaskWithRate "cola" (RateNumber 3%float)] (TaskName "mnli")
             [TaskName "rte"] None world_with_cola_rte
             [registered_task world_with_cola_rte "cola"]).
    + repeat constructor; try (eexists; reflexivity).
    + intros t [[r Hr] _]. discriminate.
  - apply (Mixture_init_bad_entry
             [TaskWithRate "cola" (RateNumber 3%float)] (TaskName "mnli")
             [TaskName "rte"] (Some (RateNumber 1%float)) world_with_cola_rte
             [registered_task world_with_cola_rte "cola"]).
    + repeat constructor; try (eexists; reflexivity).
    + intros t [_ Ht]. vm_compute in Ht. discriminate.
Defined.

(** The rate of a task of a mixture is the rate of the last entry that
    names it, where every task is registered under its own name: a number
    is returned as it is, and a function is called on the task.  So
    [get_rate] raises no [KeyError] on such a task. *)
Theorem Mixture_get_rate_last_entry
        pre e post default_rate w (m : Mixture) w' (t : Task) r st :
  registry_inv w ->
  Mixture_init (pre ++ e :: post) default_rate w = (Ok m, w') ->
  entry_name e ∉ map entry_name post ->
  TaskRegistry_REGISTRY w !! entry_name e = Some t ->
  entry_rate default_rate e = Some r ->
  Mixture_get_rate m st t
  = match r with
    | RateNumber x => Ok x
    | RateFn f => f st t
    end.
Proof.
  intros Hinv Hinit Hpost Ht Hr.
  destruct (Hinv _ _ Ht) as [Hname _].
  assert (_task_to_rate m !! entry_name e = Some r) as Hrate.
  { revert Hinit. unfold Mixture_init, bind.
    destruct (Mixture_init_loop _ _ _ w) as [[m0|e0] w0] eqn:Hloop;
      [|discriminate].
    apply Mixture_init_loop_rates in Hloop.
    destruct (negb _); [discriminate|]. destruct (negb _); [discriminate|].
    intros [= <- _]. rewrite Hloop. by apply rates_of_last. }
  unfold Mixture_get_rate. rewrite Hname, Hrate. by destruct r.
Qed.

Lemma registry_inv_cola_rte : registry_inv world_with_cola_rte.
Proof.
  apply (TaskRegistry_add_registry_inv ascii_only ascii_only "rte" rte_args).
  apply (TaskRegistry_add_registry_inv ascii_only ascii_only "cola" cola_args).
  exact registry_inv_empty.
Qed.

Lemma Mixture_get_rate_last_entry_witness :
  exists m,
    Mixture_init [TaskWithRate "cola" (RateNumber 3%float); TaskName "rte";
                  TaskWithRate "cola" (RateNumber 5%float)]
                 (Some (RateNumber 1%float)) world_with_cola_rte
    = (Ok m, world_with_cola_rte) /\
    Mixture_get_rate m (mkStorage [] ∅)
                     (registered_task world_with_cola_rte "cola")
    = Ok 5%float.
Proof.
  assert (exists m,
             Mixture_init [TaskWithRate "cola" (RateNumber 3%float);
                           TaskName "rte";
                           TaskWithRate "cola" (RateNumber 5%float)]
                          (Some (RateNumber 1%float)) world_with_cola_rte
             = (Ok m, world_with_cola_rte)) as [m Hinit].
  { eexists. vm_compute. reflexivity. }
  exists m. split; [exact Hinit|].
  apply (Mixture_get_rate_last_entry
           [TaskWithRate "cola" (RateNumber 3%float); TaskName "rte"]
           (TaskWithRate "cola" (RateNumber 5%float)) []
           (Some (RateNumber 1%float)) world_with_cola_rte m
           world_with_cola_rte
           (registered_task world_with_cola_rte "cola")
           (RateNumber 5%float) (mkStorage [] ∅)).
  - exact registry_inv_cola_rte.
  - exact Hinit.
  - apply not_elem_of_nil.
  - reflexivity.
  - reflexivity.
Defined.

(** Registering a mixture changes the registry of mixtures, by the new
    entry, and nothing else; a registration that raises has changed
    nothing at all.  The tasks and the loaders are never touched. *)
Theorem MixtureRegistry_add_frame name tasks default_rate w r w' :
  MixtureRegistry_add name tasks default_rate w = (r, w') ->
  match r with
  | Raise _ => w' = w
  | Ok _ =>
      MixtureRegistry_REGISTRY w !! name = None /\
      exists m,
        Mixture_init tasks default_rate w = (Ok m, w) /\
        w' = set_MixtureRegistry_REGISTRY
               (<[name := m]> (MixtureRegistry_REGISTRY w)) w
  end.
Proof.
  unfold MixtureRegistry_add.
  destruct (MixtureRegistry_REGISTRY w !! name) as [m0|] eqn:Hreg.
  - rewrite (add_duplicate MixtureRegistry) by (simpl; rewrite Hreg; eauto).
    by intros [= <- <-].
  - rewrite (add_fresh MixtureRegistry) by done. unfold bind.
    pose proof (Mixture_init_world tasks default_rate w) as Hw.
    destruct (Mixture_init tasks default_rate w) as [[m|e] w0];
      simpl in Hw; subst w0; unfold ret; simpl.
    + intros [= <- <-]. split; [done|]. by exists m.
    + by intros [= <- <-].
Qed.

Lemma MixtureRegistry_add_frame_witness :
  snd (MixtureRegistry_add "glue" [TaskName "cola"] None world_with_cola_rte)
  = world_with_cola_rte.
Proof.
  apply (MixtureRegistry_add_frame
           "glue" [TaskName "cola"] None world_with_cola_rte
           (Raise MissingRate)).
  vm_compute. reflexivity.
Defined.

(* ===================================================================== *)
(** ** Dictionaries built item by item *)
(* ===================================================================== *)

Lemma dict_set_fresh {V} (d : Dict V) k v :
  k ∉ dict_keys d -> dict_set d k v = d ++ [(k, v)].
Proof.
  induction d as [|[k' v'] d IH]; [done|]. simpl.
  intros [Hne Hk]%not_elem_of_cons.
  rewrite decide_False by done. by rewrite IH.
Qed.

Lemma dict_keys_app {V} (d1 d2 : Dict V) :
  dict_keys (d1 ++ d2) = dict_keys d1 ++ dict_keys d2.
Proof. apply map_app. Qed.

Lemma dict_keys_snoc {V} (d : Dict V) k v :
  dict_keys (d ++ [(k, v)]) = dict_keys d ++ [k].
Proof. apply map_app. Qed.

Lemma string_length_app (a b : string) :
  String.length (a ++ b)%string = String.length a + String.length b.
Proof.
  induction a as [|c a IH]; [done|].
  change (S (String.length (a ++ b)%string)
          = S (String.length a + String.length b)).
  by rewrite IH.
Qed.

Lemma string_app_inj_r (a b s : string) :
  (a ++ s)%string = (b ++ s)%string -> a = b.
Proof.
  revert b. induction a as [|c a IH]; intros [|c' b] H.
  - done.
  - change (s = String c' (b ++ s)%string) in H.
    apply (f_equal String.length) in H. simpl in H.
    rewrite string_length_app in H. lia.
  - change (String c (a ++ s)%string = s) in H.
    apply (f_equal String.length) in H. simpl in H.
    rewrite string_length_app in H. lia.
  - change (String c (a ++ s)%string = String c' (b ++ s)%string) in H.
    injection H as -> H. f_equal. by apply IH.
Qed.

(* ===================================================================== *)
(** ** [encode_string_features] *)
(* ===================================================================== *)

Lemma encode_fold_Raise {V} (dtype : V -> DType) (encode : V -> Result V)
      (keys : gset string) (cp : bool) (features : Dict V) e :
  fold_left
    (fun ret kv =>
       (ret <- ret ;;
        if bool_decide (dtype (snd kv) = tf_string) && bool_decide (fst kv ∈ keys)
        then
          let ret :=
            if cp
            then dict_set ret (fst kv ++ "_plaintext")%string (snd kv)
            else ret in
          v <- encode (snd kv) ;;
          Ok (dict_set ret (fst kv) v)
        else Ok (dict_set ret (fst kv) (snd kv)))%result)
    features (Raise e) = Raise e.
Proof. induction features as [|kv features IH]; [done|]. exact IH. Qed.

Lemma encode_fold {V} (dtype : V -> DType) (encode : V -> Result V)
      (keys : gset string) (cp : bool) (features acc : Dict V) :
  NoDup (dict_keys features) ->
  (forall k, k ∈ dict_keys features -> k ∉ dict_keys acc) ->
  (cp = true ->
   forall k, k ∈ dict_keys features ->
             ((k ++ "_plaintext")%string ∉ dict_keys acc) /\
             ((k ++ "_plaintext")%string ∉ dict_keys features)) ->
  fold_left
    (fun ret kv =>
       (ret <- ret ;;
        if bool_decide (dtype (snd kv) = tf_string) && bool_decide (fst kv ∈ keys)
        then
          let ret :=
            if cp
            then dict_set ret (fst kv ++ "_plaintext")%string (snd kv)
            else ret in
          v <- encode (snd kv) ;;
          Ok (dict_set ret (fst kv) v)
        else Ok (dict_set ret (fst kv) (snd kv)))%result)
    features (Ok acc)
  = (items <- res_mapM (fun kv => encode_items dtype encode keys cp
                                               (fst kv) (snd kv)) features ;;
     Ok (acc ++ concat items))%result.
Proof.
  revert acc. induction features as [|[k v] features IH];
    intros acc Hnd Hacc Hpt.
  - simpl. by rewrite app_nil_r.
  - simpl in Hnd. apply NoDup_cons in Hnd as [Hk Hnd].
    assert (k ∉ dict_keys acc) as Hkacc by (apply Hacc; apply list_elem_of_here).
    cbn [fold_left res_mapM res_bind fst snd]. unfold encode_items at 1.
    destruct (bool_decide (dtype v = tf_string) && bool_decide (k ∈ keys)).
    + destruct (encode v) as [v'|e]; cbn [res_bind].
      2:{ apply encode_fold_Raise. }
      destruct cp.
      * destruct (Hpt eq_refl k) as [Hptacc Hptf]; [apply list_elem_of_here|].
        assert ((k ++ "_plaintext")%string <> k) as Hptk.
        { intros Heq. apply Hptf. rewrite Heq. apply list_elem_of_here. }
        rewrite (dict_set_fresh acc) by done.
        rewrite dict_set_fresh.
        2:{ rewrite dict_keys_snoc, elem_of_app, list_elem_of_singleton.
            intros [?|?]; [done|]. by apply Hptk. }
        rewrite IH; [| done | |].
        -- destruct (res_mapM _ features) as [items|e]; [|done].
           cbn [res_bind concat]. by rewrite <- !app_assoc.
        -- intros k2 Hk2. rewrite !dict_keys_snoc, !elem_of_app, !list_elem_of_singleton.
           intros [[Hin|Heq]|Heq].
           ++ eapply Hacc; [|exact Hin]. by apply list_elem_of_further.
           ++ subst k2. apply Hptf. by apply list_elem_of_further.
           ++ by subst k2.
        -- intros _ k2 Hk2.
           destruct (Hpt eq_refl k2) as [Hacc2 Hf2];
             [by apply list_elem_of_further|].
           split; [|by apply not_elem_of_cons in Hf2 as [_ ?]].
           rewrite !dict_keys_snoc, !elem_of_app, !list_elem_of_singleton.
           intros [[Hin|Heq]|Heq].
           ++ done.
           ++ apply string_app_inj_r in Heq. by subst k2.
           ++ apply Hf2. rewrite Heq. apply list_elem_of_here.
      * rewrite dict_set_fresh by done.
        rewrite IH; [| done | | done].
        -- destruct (res_mapM _ features) as [items|e]; [|done].
           cbn [res_bind concat]. by rewrite <- !app_assoc.
        -- intros k2 Hk2. rewrite !dict_keys_snoc, !elem_of_app, !list_elem_of_singleton.
           intros [Hin|Heq].
           ++ eapply Hacc; [|exact Hin]. by apply list_elem_of_further.
           ++ by subst k2.
    + rewrite dict_set_fresh by done. cbn [res_bind].
      rewrite IH; [| done | |].
      -- destruct (res_mapM _ features) as [items|e]; [|done].
         cbn [res_bind concat]. by rewrite <- !app_assoc.
      -- intros k2 Hk2. rewrite !dict_keys_snoc, !elem_of_app, !list_elem_of_singleton.
         intros [Hin|Heq].
         ++ eapply Hacc; [|exact Hin]. by apply list_elem_of_further.
         ++ by subst k2.
      -- intros Hcp k2 Hk2.
         destruct (Hpt Hcp k2) as [Hacc2 Hf2];
           [by apply list_elem_of_further|].
         split; [|by apply not_elem_of_cons in Hf2 as [_ ?]].
         rewrite !dict_keys_snoc, !elem_of_app, !list_elem_of_singleton.
         intros [Hin|Heq]; [done|].
         apply Hf2. rewrite Heq. apply list_elem_of_here.
Qed.

(** The function that [encode_string_features] maps over a dataset goes
    through the features in order and puts each one in the result under its
    own key: as it is, when it is not a string or is not among the keys to
    encode, and else encoded, after its copy under the key with the suffix
    [_plaintext] when copies are asked for.  Nothing else is in the result,
    and the first encoding that raises is what the function raises.  This
    is so when no key with the suffix is already a key of the element;
    without copies, always. *)
Theorem encode_my_fn_items {V} (dtype : V -> DType) (encode : V -> Result V)
        (keys : gset string) (copy_plaintext : bool) (features : Dict V) :
  NoDup (dict_keys features) ->
  (copy_plaintext = true ->
   forall k, k ∈ dict_keys features ->
             (k ++ "_plaintext")%string ∉ dict_keys features) ->
  encode_my_fn dtype encode keys copy_plaintext features
  = (items <- res_mapM (fun kv => encode_items dtype encode keys
                                               copy_plaintext
                                               (fst kv) (snd kv)) features ;;
     Ok (concat items))%result.
Proof.
  intros Hnd Hpt. unfold encode_my_fn.
  apply (encode_fold dtype encode keys copy_plaintext features []).
  - exact Hnd.
  - intros k _. apply not_elem_of_nil.
  - intros Hcp k Hk. split; [apply not_elem_of_nil|by apply Hpt].
Qed.

Lemma encode_my_fn_items_witness :
  encode_my_fn tensor_dtype
               (fun v => res_bind (length_encode_tf v) tf_cast_int64)
               (list_to_set ["inputs"; "label"]) true text_example
  = Ok [("inputs_plaintext", StringTensor [] ["cola sentence: hello"]);
        ("inputs", Int64Tensor [1] [20%Z]);
        ("targets", StringTensor [] ["acceptable"]);
        ("idx", Int64Tensor [] [3%Z])].
Proof.
  rewrite (encode_my_fn_items
             tensor_dtype
             (fun v => res_bind (length_encode_tf v) tf_cast_int64)
             (list_to_set ["inputs"; "label"]) true text_example).
  - vm_compute. reflexivity.
  - apply (bool_decide_unpack _). vm_compute. reflexivity.
  - intros _ k Hk. apply list_elem_of_In in Hk. simpl in Hk.
    destruct Hk as [<-|[<-|[<-|[]]]];
      apply (bool_decide_unpack _); vm_compute; reflexivity.
Defined.

Lemma encode_fold_nothing {V} (dtype : V -> DType) (encode : V -> Result V)
      (keys : gset string) (cp : bool) (features acc : Dict V) :
  NoDup (dict_keys acc ++ dict_keys features) ->
  Forall (fun kv => dtype (snd kv) = tf_string -> fst kv ∉ keys) features ->
  fold_left
    (fun ret kv =>
       (ret <- ret ;;
        if bool_decide (dtype (snd kv) = tf_string) && bool_decide (fst kv ∈ keys)
        then
          let ret :=
            if cp
            then dict_set ret (fst kv ++ "_plaintext")%string (snd kv)
            else ret in
          v <- encode (snd kv) ;;
          Ok (dict_set ret (fst kv) v)
        else Ok (dict_set ret (fst kv) (snd kv)))%result)
    features (Ok acc)
  = Ok (acc ++ features).
Proof.
  intros Hnd Hall. revert acc Hnd.
  induction Hall as [|[k v] features Hkv _ IH]; intros acc Hnd.
  - simpl. by rewrite app_nil_r.
  - cbn [fold_left res_bind fst snd]. simpl in Hkv, Hnd.
    assert (bool_decide (dtype v = tf_string) && bool_decide (k ∈ keys)
            = false) as ->.
    { apply andb_false_iff.
      destruct (decide (dtype v = tf_string)) as [Hs|Hs].
      - right. apply bool_decide_eq_false_2. by apply Hkv.
      - left. by apply bool_decide_eq_false_2. }
    assert (k ∉ dict_keys acc) as Hk.
    { apply NoDup_app in Hnd as (_ & Hdisj & _). intros Hin.
      apply (Hdisj k Hin). apply list_elem_of_here. }
    rewrite dict_set_fresh by done. rewrite IH.
    + by rewrite <- app_assoc.
    + rewrite dict_keys_snoc, <- app_assoc. exact Hnd.
Qed.

Lemma encode_my_fn_nothing {V} (dtype : V -> DType) (encode : V -> Result V)
      (keys : gset string) (cp : bool) (features : Dict V) :
  NoDup (dict_keys features) ->
  Forall (fun kv => dtype (snd kv) = tf_string -> fst kv ∉ keys) features ->
  encode_my_fn dtype encode keys cp features = Ok features.
Proof.
  intros Hnd Hall. unfold encode_my_fn.
  apply (encode_fold_nothing dtype encode keys cp features []); done.
Qed.

Lemma example_conforms_keys spec ex :
  example_conforms spec ex -> dict_keys ex = dict_keys spec.
Proof.
  induction 1 as [|ks kv spec ex [Hk _] _ IH]; [done|].
  unfold dict_keys in *. simpl. by rewrite Hk, IH.
Qed.

Section VocabularyFacts.
Variable encode_tf : Tensor -> Result Tensor.
Variable encode_tf_traced : TensorSpec -> Result TensorSpec.

(** A dataset none of whose string features is among the keys to encode
    is returned as it is, description and elements, with or without
    plaintext copies; the vocabulary is not used.  The elements are those
    that agree with the description of the dataset, and those that raise. *)
Theorem encode_string_features_nothing_to_encode
        (dataset : Dataset) (keys : list string) (copy_plaintext : bool) :
  NoDup (dict_keys (element_spec dataset)) ->
  Forall (fun ks => ts_dtype (snd ks) = tf_string -> fst ks ∉ keys)
         (element_spec dataset) ->
  Forall (fun r => forall ex, r = Ok ex ->
                              example_conforms (element_spec dataset) ex)
         (dataset_elements dataset) ->
  encode_string_features encode_tf encode_tf_traced dataset keys
                         copy_plaintext
  = Ok dataset.
Proof.
  intros Hnd Hspec Hel. unfold encode_string_features, Dataset_map.
  rewrite (encode_my_fn_nothing ts_dtype _ _ _ (element_spec dataset)).
  2:{ exact Hnd. }
  2:{ eapply Forall_impl; [exact Hspec|]. intros ks Hks Hs.
      rewrite elem_of_list_to_set. by apply Hks. }
  cbn [res_bind]. destruct dataset as [spec els]. simpl in *.
  do 2 f_equal. rewrite <- (map_id els) at 2.
  apply map_ext_Forall. eapply Forall_impl; [exact Hel|].
  intros [ex|e] Hr; [|done]. cbn [res_bind].
  specialize (Hr ex eq_refl).
  apply encode_my_fn_nothing.
  - by rewrite (example_conforms_keys _ _ Hr).
  - clear Hnd Hel. induction Hr as [|ks kv spec ex [Hk [Hty _]] _ IH];
      [constructor|].
    apply Forall_cons in Hspec as [Hks Hspec].
    constructor; [|by apply IH].
    intros Hs. rewrite elem_of_list_to_set, <- Hk. apply Hks. congruence.
Qed.
End VocabularyFacts.

Lemma encode_string_features_nothing_to_encode_witness :
  encode_string_features length_encode_tf (fun _ => Raise TypeError)
                         (mkDataset text_spec [Ok text_example])
                         ["idx"; "label"] true
  = Ok (mkDataset text_spec [Ok text_example]).
Proof.
  apply (encode_string_features_nothing_to_encode
           length_encode_tf (fun _ => Raise TypeError)
           (mkDataset text_spec [Ok text_example]) ["idx"; "label"] true).
  - apply (bool_decide_unpack _). vm_compute. reflexivity.
  - repeat constructor; simpl; intros H;
      try discriminate; apply (bool_decide_unpack _); vm_compute; reflexivity.
  - repeat constructor. intros ex [= <-]. repeat constructor.
Defined.

(* ===================================================================== *)
(** ** [inverse_dataset] *)
(* ===================================================================== *)

(** Inverting a dataset whose inputs and targets are strings, and then
    inverting the result, returns: the outcome has the inputs and the
    targets back in their places, each with a label in front, the targets
    with the label of the first inversion and the inputs with the label of
    the second, and no other feature.  Inversion is not its own inverse,
    except for empty labels on elements that have no other feature. *)
Theorem inverse_dataset_twice (dataset : Dataset) (label1 label2 : string)
        (si st : TensorSpec) :
  dict_get (element_spec dataset) "inputs" = Some si ->
  dict_get (element_spec dataset) "targets" = Some st ->
  ts_dtype si = tf_string -> ts_dtype st = tf_string ->
  exists ds1 ds2,
    inverse_dataset dataset label1 = Ok ds1 /\
    inverse_dataset ds1 label2 = Ok ds2 /\
    element_spec ds2 = [("inputs", si); ("targets", st)] /\
    length (dataset_elements ds2) = length (dataset_elements dataset) /\
    forall i ex shi vi sht vt,
      dataset_elements dataset !! i = Some (Ok ex) ->
      dict_get ex "inputs" = Some (StringTensor shi vi) ->
      dict_get ex "targets" = Some (StringTensor sht vt) ->
      dataset_elements ds2 !! i
      = Some (Ok [("inputs",
                   StringTensor shi (map (String.append label2) vi));
                  ("targets",
                   StringTensor sht (map (String.append label1) vt))]).
Proof.
  intros Hin Htg Hsi Hst.
  set (ds1 := {| element_spec := [("inputs", st); ("targets", si)];
                 dataset_elements :=
                   map (fun r => res_bind r (inverse_map_fn
                                               (strings_join label1)))
                       (dataset_elements dataset) |}).
  set (ds2 := {| element_spec := [("inputs", si); ("targets", st)];
                 dataset_elements :=
                   map (fun r => res_bind r (inverse_map_fn
                                               (strings_join label2)))
                       (dataset_elements ds1) |}).
  assert (inverse_dataset dataset label1 = Ok ds1) as H1.
  { unfold inverse_dataset, Dataset_map, inverse_map_fn at 1, dict_item,
      strings_join_traced.
    rewrite Htg, Hin. cbn [res_bind]. by rewrite Hst. }
  assert (inverse_dataset ds1 label2 = Ok ds2) as H2.
  { unfold inverse_dataset, Dataset_map, inverse_map_fn at 1, dict_item,
      strings_join_traced.
    change (dict_get (element_spec ds1) "targets") with (Some si).
    change (dict_get (element_spec ds1) "inputs") with (Some st).
    cbn [res_bind]. by rewrite Hsi. }
  exists ds1, ds2. split; [exact H1|]. split; [exact H2|].
  split; [reflexivity|]. split.
  { subst ds1 ds2. cbn [dataset_elements]. by rewrite !length_map. }
  intros i ex shi vi sht vt Hi Hexi Hext.
  subst ds1 ds2. cbn [dataset_elements]. rewrite map_map.
  rewrite (lookup_element _ _ _ i (Ok ex) eq_refl Hi).
  f_equal. cbn [res_bind]. unfold inverse_map_fn, dict_item.
  rewrite Hext, Hexi. reflexivity.
Qed.

Lemma inverse_dataset_twice_witness :
  exists ds1 ds2,
    inverse_dataset (mkDataset text_spec [Ok text_example]) "a: " = Ok ds1 /\
    inverse_dataset ds1 "b: " = Ok ds2 /\
    element_spec ds2 = [("inputs", mkTensorSpec tf_string []);
                        ("targets", mkTensorSpec tf_string [])] /\
    dataset_elements ds2 !! 0
    = Some (Ok [("inputs", StringTensor [] ["b: cola sentence: hello"]);
                ("targets", StringTensor [] ["a: acceptable"])]).
Proof.
  destruct (inverse_dataset_twice
              (mkDataset text_spec [Ok text_example]) "a: " "b: "
              (mkTensorSpec tf_string []) (mkTensorSpec tf_string [])
              eq_refl eq_refl eq_refl eq_refl)
    as (ds1 & ds2 & H1 & H2 & Hspec & _ & Hel).
  exists ds1, ds2. split; [exact H1|]. split; [exact H2|].
  split; [exact Hspec|].
  apply (Hel 0 text_example [] ["cola sentence: hello"] [] ["acceptable"]);
    reflexivity.
Defined.

(** What [inverse_dataset] raises when it is called: [KeyError] for the
    targets when the dataset has none, whether it has inputs or not;
    [TypeError] when the targets are not strings; and [KeyError] for the
    inputs only after that.  The inputs may be of any type. *)
Theorem inverse_dataset_call (dataset : Dataset) (label : string) :
  (dict_get (element_spec dataset) "targets" = None ->
   inverse_dataset dataset label = Raise (KeyError "targets")) /\
  (forall st,
      dict_get (element_spec dataset) "targets" = Some st ->
      (ts_dtype st <> tf_string ->
       inverse_dataset dataset label = Raise TypeError) /\
      (ts_dtype st = tf_string ->
       match dict_get (element_spec dataset) "inputs" with
       | None => inverse_dataset dataset label = Raise (KeyError "inputs")
       | Some si =>
           exists out,
             inverse_dataset dataset label = Ok out /\
             element_spec out = [("inputs", st); ("targets", si)] /\
             length (dataset_elements out) = length (dataset_elements dataset)
       end)).
Proof.
  unfold inverse_dataset, Dataset_map, inverse_map_fn, dict_item,
    strings_join_traced.
  split.
  - by intros ->.
  - intros st ->. cbn [res_bind]. split.
    + intros Hst. by destruct (ts_dtype st).
    + intros ->. cbn [res_bind].
      destruct (dict_get (element_spec dataset) "inputs") as [si|];
        [|done].
      cbn [res_bind]. eexists. split; [reflexivity|]. split; [done|].
      cbn [dataset_elements]. by rewrite length_map.
Qed.

(* ===================================================================== *)
(** ** [dict_to_tfexample] *)
(* ===================================================================== *)

Section TfExampleFacts.
Variable unsupported_type : string -> Exception.

Lemma tfexample_fold_Raise (ex : Dict ExampleValue) e :
  fold_left
    (fun feature_dict kv =>
       (feature_dict <- feature_dict ;;
        feature <- value_feature unsupported_type (fst kv) (snd kv) ;;
        Ok (dict_set feature_dict (fst kv) feature))%result)
    ex (Raise e) = Raise e.
Proof. induction ex as [|kv ex IH]; [done|]. exact IH. Qed.

Lemma tfexample_fold (ex : Dict ExampleValue) (acc : Dict Feature) :
  NoDup (dict_keys acc ++ dict_keys ex) ->
  fold_left
    (fun feature_dict kv =>
       (feature_dict <- feature_dict ;;
        feature <- value_feature unsupported_type (fst kv) (snd kv) ;;
        Ok (dict_set feature_dict (fst kv) feature))%result)
    ex (Ok acc)
  = (features <- dict_map_items (value_feature unsupported_type) ex ;;
     Ok (acc ++ features))%result.
Proof.
  revert acc. induction ex as [|[k v] ex IH]; intros acc Hnd.
  - simpl. by rewrite app_nil_r.
  - unfold dict_map_items.
    cbn [fold_left res_mapM res_bind fst snd].
    destruct (value_feature unsupported_type k v) as [feature|e];
      cbn [res_bind].
    + simpl in Hnd.
      assert (k ∉ dict_keys acc) as Hk.
      { apply NoDup_app in Hnd as (_ & Hdisj & _). intros Hin.
        apply (Hdisj k Hin). apply list_elem_of_here. }
      rewrite dict_set_fresh by done. rewrite IH.
      * unfold dict_map_items.
        destruct (res_mapM _ ex) as [features|e]; [|done].
        cbn [res_bind]. by rewrite <- app_assoc.
      * rewrite dict_keys_snoc, <- app_assoc. exact Hnd.
    + apply tfexample_fold_Raise.
Qed.

(** [dict_to_tfexample] goes through the items of the example in order and
    raises at the first value that it does not support: for the shape, with
    the key, when the rank of the value is 2 or more, whatever its type is;
    and else for the type, when the value is not made of strings or of
    integers.  It returns when there is no such value, exactly then, and
    what it returns has one feature for each item, in order and under the
    same key: the strings of a string value and the integers of an integer
    value.  The shape of a value and the width of its integers do not show
    in its feature. *)
Theorem dict_to_tfexample_spec (ex : Dict ExampleValue) :
  NoDup (dict_keys ex) ->
  dict_to_tfexample unsupported_type ex
  = dict_map_items (value_feature unsupported_type) ex /\
  ((exists features, dict_to_tfexample unsupported_type ex = Ok features) <->
   Forall (fun kv => exists t, snd kv = TensorValue t /\
                               length (tensor_shape t) <= 1) ex) /\
  (forall features,
      dict_to_tfexample unsupported_type ex = Ok features ->
      Forall2 (fun kv kf =>
                 fst kf = fst kv /\
                 exists t, snd kv = TensorValue t /\ snd kf = feature_of t)
              ex features).
Proof.
  intros Hnd.
  assert (dict_to_tfexample unsupported_type ex
          = dict_map_items (value_feature unsupported_type) ex) as Heq.
  { unfold dict_to_tfexample. etrans; [apply (tfexample_fold ex []); exact Hnd|].
    by destruct (dict_map_items _ ex). }
  assert (forall k v f,
             value_feature unsupported_type k v = Ok f <->
             exists t, v = TensorValue t /\ length (tensor_shape t) <= 1 /\
                       f = feature_of t) as Hitem.
  { intros k v f. unfold value_feature.
    destruct (1 <? length (value_shape v))%nat eqn:Hrank.
    - apply Nat.ltb_lt in Hrank. split; [discriminate|].
      intros (t & -> & Hle & _). simpl in Hrank. lia.
    - apply Nat.ltb_ge in Hrank. destruct v as [t|shape].
      + split.
        * intros [= <-]. by exists t.
        * by intros (t' & [= <-] & _ & ->).
      + split; [discriminate|]. by intros (t & [=] & _). }
  split; [exact Heq|]. rewrite Heq. split.
  - split.
    + intros [features Hf]. apply dict_map_items_Ok in Hf.
      clear -Hf Hitem. induction Hf as [|[k v] [k' f] ex fs [_ Hv] _ IH];
        [constructor|].
      constructor; [|exact IH]. simpl in *.
      apply Hitem in Hv as (t & -> & Hle & _). by exists t.
    + intros Hall. apply dict_map_items_total.
      intros k v Hin. rewrite Forall_forall in Hall.
      destruct (Hall (k, v) Hin) as (t & Hv & Hle). simpl in Hv. subst v.
      exists (feature_of t). apply Hitem. by exists t.
  - intros features Hf. apply dict_map_items_Ok in Hf.
    eapply Forall2_impl; [exact Hf|].
    intros [k v] [k' f] [Hk Hv]. simpl in *. split; [done|].
    apply Hitem in Hv as (t & -> & _ & ->). by exists t.
Qed.
End TfExampleFacts.

Lemma dict_to_tfexample_spec_witness :
  dict_to_tfexample (fun _ => AttributeError)
                    [("inputs", TensorValue (Int64Tensor [2] [5; 6]%Z));
                     ("targets", TensorValue (Int32Tensor [] [7]%Z));
                     ("text", TensorValue (StringTensor [1] ["hello"]))]
  = Ok [("inputs", int64_list [5; 6]%Z);
        ("targets", int64_list [7]%Z);
        ("text", bytes_list ["hello"])] /\
  dict_to_tfexample (fun _ => AttributeError) scored_example
  = Raise AttributeError /\
  dict_to_tfexample (fun _ => AttributeError)
                    (("image", OtherValue [2; 2]) :: scored_example)
  = Raise (UnsupportedShape "image").
Proof.
  split_and!.
  - rewrite (proj1 (dict_to_tfexample_spec
                      (fun _ => AttributeError)
                      [("inputs", TensorValue (Int64Tensor [2] [5; 6]%Z));
                       ("targets", TensorValue (Int32Tensor [] [7]%Z));
                       ("text", TensorValue (StringTensor [1] ["hello"]))]
                      ltac:(apply (bool_decide_unpack _); vm_compute;
                            reflexivity))).
    reflexivity.
  - rewrite (proj1 (dict_to_tfexample_spec
                      (fun _ => AttributeError) scored_example
                      ltac:(apply (bool_decide_unpack _); vm_compute;
                            reflexivity))).
    reflexivity.
  - rewrite (proj1 (dict_to_tfexample_spec
                      (fun _ => AttributeError)
                      (("image", OtherValue [2; 2]) :: scored_example)
                      ltac:(apply (bool_decide_unpack _); vm_compute;
                            reflexivity))).
    reflexivity.
Defined.

